(** * ts-askit: the compile-time transformer ([src/transform/transformer.ts])

    A shallow embedding of the TypeScript transformer that rewrites the
    marker call-forms [ask<T>(...)], [llm<T>(...)] and [define<T>(...)],
    together with the properties of it that the specification states.

    Layout
    - syntax trees and the part of the [ts.factory] API the transformer uses;
    - the interfaces the transformer consumes (Node's [path], the TypeScript
      type checker and printer, and the sibling modules of the package);
    - the effects: process-wide variables, the disk, the per-pass metadata
      array, thrown errors;
    - the transformer itself, function by function;
    - a sample host on which everything can be evaluated;
    - the properties. *)

From Stdlib Require Import String Ascii List Bool Arith Lia.
From stdpp Require Import base option list strings gmap pretty.

Local Open Scope string_scope.
Local Open Scope list_scope.

Set Warnings "-register-all".

(** ** Syntax trees *)

(** The syntax kinds that the transformer creates; every other kind of the
    compiler is [OtherKind] with its numeric tag. *)
Inductive SyntaxKind : Type :=
  | ConstKeyword
  | ExportKeyword
  | VariableDeclaration
  | VariableDeclarationListConst      (* a declaration list with NodeFlags.Const *)
  | VariableStatement
  | ImportSpecifier
  | NamedImports
  | ImportClause
  | ImportDeclaration
  | ParameterDeclaration
  | FunctionDeclaration
  | TypeReference
  | OtherKind (tag : nat).

(** [ts.Node].  The kinds that the transformer inspects or builds with a
    dedicated shape have a constructor of their own; a node of any other kind
    is a [SyntaxNode] with its children in the order [ts.visitEachChild]
    visits them.  Type nodes are nodes, as in the compiler. *)
Inductive Node : Type :=
  | Identifier (text : string)
  | StringLiteral (text : string)
  | NoSubstitutionTemplateLiteral (text : string)
  | ArrayLiteralExpression (elements : list Node)
  | PropertyAssignment (name initializer : Node)
  | ObjectLiteralExpression (properties : list Node)
  | PropertyAccessExpression (expression name : Node)
  | CallExpression (expression : Node) (typeArguments : option (list Node))
                   (arguments : list Node)
  | SyntaxNode (kind : SyntaxKind) (children : list Node).

(** [ts.SourceFile]: the file name and the top-level statements. *)
Record SourceFile : Type := mkSourceFile {
  fileName : string;
  statements : list Node
}.

(** [ts.factory.updateSourceFile(node, statements)] *)
Definition updateSourceFile (node : SourceFile) (stmts : list Node) : SourceFile :=
  mkSourceFile (fileName node) stmts.

(** [ts.isStringLiteralLike]: a string literal or a template literal without
    substitutions. *)
Definition isStringLiteralLike (n : Node) : bool :=
  match n with
  | StringLiteral _ | NoSubstitutionTemplateLiteral _ => true
  | _ => false
  end.

Definition isIdentifier (n : Node) : bool :=
  match n with
  | Identifier _ => true
  | _ => false
  end.

(** [escapeLeadingUnderscores]: the compiler stores an identifier that starts
    with two underscores with a third one in front ([escapedText]). *)
Definition escapeLeadingUnderscores (text : string) : string :=
  match text with
  | String "_" (String "_" _) => String "_" text
  | _ => text
  end.

Definition escapedText (text : string) : string := escapeLeadingUnderscores text.

(** [Array.prototype.includes] on an array of strings. *)
Definition includes (l : list string) (s : string) : bool :=
  existsb (String.eqb s) l.

(** The [.text] of a literal-like node. *)
Definition literalText (n : Node) : option string :=
  match n with
  | StringLiteral t | NoSubstitutionTemplateLiteral t => Some t
  | _ => None
  end.

(** *** The factory functions the transformer calls *)

Definition createIdentifier (text : string) : Node := Identifier text.
Definition createStringLiteral (text : string) : Node := StringLiteral text.
Definition createModifier (k : SyntaxKind) : Node := SyntaxNode k [].

Definition createArrayLiteralExpression (elements : list Node) : Node :=
  ArrayLiteralExpression elements.

Definition createObjectLiteralExpression (properties : list Node) : Node :=
  ObjectLiteralExpression properties.

(** the property name is given as a string and becomes an identifier *)
Definition createPropertyAssignment (name : string) (initializer : Node) : Node :=
  PropertyAssignment (createIdentifier name) initializer.

Definition createPropertyAccessExpression (expression : Node) (name : Node) : Node :=
  PropertyAccessExpression expression name.

Definition createCallExpression (expression : Node)
    (typeArguments : option (list Node)) (arguments : list Node) : Node :=
  CallExpression expression typeArguments arguments.

(** [updateCallExpression(node, expression, typeArguments, arguments)]: the
    call with its three parts replaced. *)
Definition updateCallExpression (node expression : Node)
    (typeArguments : option (list Node)) (arguments : list Node) : Node :=
  CallExpression expression typeArguments arguments.

(** [createVariableDeclaration(name, undefined, undefined, initializer)] *)
Definition createVariableDeclaration (name : string) (initializer : Node) : Node :=
  SyntaxNode VariableDeclaration [createIdentifier name; initializer].

(** [createVariableDeclarationList(declarations, NodeFlags.Const)] *)
Definition createVariableDeclarationList (declarations : list Node) : Node :=
  SyntaxNode VariableDeclarationListConst declarations.

Definition createVariableStatement (modifiers : list Node) (declarationList : Node) : Node :=
  SyntaxNode VariableStatement (modifiers ++ [declarationList]).

(** [createImportSpecifier(false, undefined, name)] *)
Definition createImportSpecifier (name : Node) : Node :=
  SyntaxNode ImportSpecifier [name].

Definition createNamedImports (elements : list Node) : Node :=
  SyntaxNode NamedImports elements.

(** [createImportClause(false, undefined, namedBindings)] *)
Definition createImportClause (namedBindings : Node) : Node :=
  SyntaxNode ImportClause [namedBindings].

(** [createImportDeclaration(undefined, importClause, moduleSpecifier)] *)
Definition createImportDeclaration (importClause moduleSpecifier : Node) : Node :=
  SyntaxNode ImportDeclaration [importClause; moduleSpecifier].

(** [createTypeReferenceNode(typeName, undefined)] *)
Definition createTypeReferenceNode (typeName : string) : Node :=
  SyntaxNode TypeReference [createIdentifier typeName].

(** [createParameterDeclaration(undefined, undefined, name, undefined, type)] *)
Definition createParameterDeclaration (name : string) (type : Node) : Node :=
  SyntaxNode ParameterDeclaration [createIdentifier name; type].

(** [createFunctionDeclaration(modifiers, undefined, name, undefined,
    parameters, type, undefined)]: a declaration without a body. *)
Definition createFunctionDeclaration (modifiers : list Node) (name : string)
    (parameters : list Node) (type : Node) : Node :=
  SyntaxNode FunctionDeclaration
    (modifiers ++ [createIdentifier name] ++ parameters ++ [type]).

(** ** Values and records of the package *)

(** [ExampleType] (module [../example]): the JSON value of one worked
    example. *)
Inductive ExampleType : Type :=
  | JsonNumber (n : Z)
  | JsonString (s : string)
  | JsonArray (items : list ExampleType)
  | JsonObject (fields : list (string * ExampleType)).

(** [Info] (module [../info]): the metadata record of one rewritten call. *)
Record Info : Type := mkInfo {
  signature : string;
  desc : string;
  params : list (string * string);
  info_name : string;
  examples : list ExampleType
}.

(** [ts.Symbol], as far as the transformer reads it. *)
Record Symbol : Type := mkSymbol {
  symbol_name : string;
  valueDeclaration : Node
}.

(** [ts.Type]: an opaque handle of the checker. *)
Inductive TsType : Type := TypeHandle (id : nat).

(** ** The interfaces the transformer consumes *)

(** Node's [path] module, [JSON.stringify] on a record, and the printer
    [ts.createPrinter().printNode]. *)
Class Platform : Type := {
  basename : string -> string;
  dirname : string -> string;
  join : list string -> string;
  JSON_stringify : Info -> string;
  printer_printNode : Node -> string
}.

(** [ts.TypeChecker].  [getSymbolsInScope] is always asked for
    [SymbolFlags.Variable].  [staticValue] is the checker's answer to "which
    value is this identifier statically bound to", when there is one. *)
Class TypeChecker : Type := {
  getSymbolsInScope : Node -> list Symbol;
  getTypeOfSymbolAtLocation : Symbol -> Node -> TsType;
  getTypeAtLocation : Node -> TsType;
  typeToString : TsType -> string;
  staticValue : Node -> option (list ExampleType)
}.

(** The sibling modules of the package ([../template], [../function-name],
    [../type], [../ast]).  The two type-descriptor synthesizers fail on a
    type they cannot represent ([None]). *)
Class Package : Type := {
  extractVariables : string -> list string;
  convertTemplate : string -> string;
  generateUniqueFunctionName : string -> string;
  convertToDynamicType : Node -> TypeChecker -> option Node;
  makeTypeDirection : Node -> TypeChecker -> option string;
  makeExpressionFromString : string -> Node
}.

(** Modelled from the spec: [getIdentifierValue] of the module
    [../expression], which is not among the sources.  The spec: the examples
    are "the statically known value bound to that identifier -- resolution
    failure for the identifier silently yields an empty examples list, not
    an error". *)
Definition getIdentifierValue (node : Node) (checker : TypeChecker) : list ExampleType :=
  match staticValue node with
  | Some v => v
  | None => []
  end.

(** ** Effects *)

(** What a pass can throw: [throwError(node, message)] of [../common], the
    failure of a type-descriptor synthesizer, the [TypeError] of the
    JavaScript runtime on reading a property of [undefined], and the error
    of a file-system call, with its code ([ENOENT], [ENOTDIR], [EEXIST],
    [EISDIR]) and the path of the call. *)
Inductive Error : Type :=
  | AskitError (node : Node) (message : string)
  | UnrepresentableType (node : Node)
  | TypeError (message : string)
  | SystemError (code path : string).

Inductive outcome (A : Type) : Type :=
  | Ok (a : A)
  | Throw (e : Error).
Arguments Ok {A} a.
Arguments Throw {A} e.

(** An entry of the file system. *)
Inductive Entry : Type :=
  | Directory
  | File (data : string).

(** The process-wide state: the disk, the two module-level variables
    [functions] and [imports] (lines 15-16), and what was printed with
    [console.log]. *)
Record World : Type := mkWorld {
  disk : gmap string Entry;
  functions : list Node;
  imports : list Node;
  console : list string
}.

(** The state of one pass over a source file: the process-wide state, the
    array [info] that [transformer] allocates (line 98) and hands to every
    [visit], and, as a ghost field without counterpart in the source, the
    call-forms that [visit] has handed to a rewriter so far. *)
Record Pass : Type := mkPass {
  globals : World;
  info : list Info;
  visited : list Node
}.

Definition M (A : Type) : Type := Pass -> outcome A * Pass.

Definition ret {A} (a : A) : M A := fun p => (Ok a, p).

Definition bind {A B} (m : M A) (k : A -> M B) : M B :=
  fun p => match m p with
           | (Ok a, p') => k a p'
           | (Throw e, p') => (Throw e, p')
           end.

Definition throw {A} (e : Error) : M A := fun p => (Throw e, p).

Declare Scope pass_scope.
Delimit Scope pass_scope with pass.
Notation "x <- m ;; k" := (bind m (fun x => k))
  (at level 100, m at next level, right associativity) : pass_scope.
Notation "m ;;; k" := (bind m (fun _ => k))
  (at level 100, right associativity) : pass_scope.
Local Open Scope pass_scope.

(** What reading [.text] of [undefined] throws. *)
Definition readTextOfUndefined : Error :=
  TypeError "Cannot read properties of undefined (reading 'text')".

(** Modelled from the spec: [throwError(node, message)] of the module
    [../common], which is not among the sources.  The spec: these errors are
    "all fatal to the current compilation pass"; the call throws and never
    returns. *)
Definition throwError {A} (node : Node) (message : string) : M A :=
  throw (AskitError node message).

(** [fs.existsSync] *)
Definition existsSync (w : World) (path : string) : bool :=
  bool_decide (is_Some (disk w !! path)).

(** [fs.mkdirSync(path)], without the option [recursive]: the parent of the
    path, its [path.dirname], has to be a directory, and nothing may be at
    the path.  A call that throws leaves the disk as it was.  Of the
    failures of the operating system, those that the shape of the disk
    decides are modelled; permissions and device errors are not. *)
Definition mkdirSync `{Platform} (path : string) (w : World) : outcome unit * World :=
  match disk w !! dirname path with
  | None => (Throw (SystemError "ENOENT" path), w)
  | Some (File _) => (Throw (SystemError "ENOTDIR" path), w)
  | Some Directory =>
      match disk w !! path with
      | Some _ => (Throw (SystemError "EEXIST" path), w)
      | None => (Ok tt, mkWorld (<[path := Directory]> (disk w)) (functions w) (imports w) (console w))
      end
  end.

(** [fs.writeFileSync(path, data)]: the parent of the path has to be a
    directory and the path itself must not be one; the file is created, or
    its content replaced. *)
Definition writeFileSync `{Platform} (path data : string) (w : World) : outcome unit * World :=
  match disk w !! dirname path with
  | None => (Throw (SystemError "ENOENT" path), w)
  | Some (File _) => (Throw (SystemError "ENOTDIR" path), w)
  | Some Directory =>
      match disk w !! path with
      | Some Directory => (Throw (SystemError "EISDIR" path), w)
      | _ =>
          (Ok tt, mkWorld (<[path := File data]> (disk w)) (functions w) (imports w) (console w))
      end
  end.

Definition console_log (line : string) (w : World) : World :=
  mkWorld (disk w) (functions w) (imports w) (console w ++ [line]).

(** [imports.push(statement)] on the module-level array. *)
Definition imports_push (statement : Node) (w : World) : World :=
  mkWorld (disk w) (functions w) (imports w ++ [statement]) (console w).

(** Operations of a pass. *)
Definition info_push (item : Info) : M unit :=
  fun p => (Ok tt, mkPass (globals p) (info p ++ [item]) (visited p)).

Definition onGlobals (f : World -> World) : M unit :=
  fun p => (Ok tt, mkPass (f (globals p)) (info p) (visited p)).

Definition readGlobals {A} (f : World -> A) : M A :=
  fun p => (Ok (f (globals p)), p).

(** ghost: note that [node] is handed to a rewriter *)
Definition enter (node : Node) : M unit :=
  fun p => (Ok tt, mkPass (globals p) (info p) (visited p ++ [node])).

(** ** The transformer *)

Definition MODULE_NAME : string := "ts-askit".

Definition newline : string := String (ascii_of_nat 10) EmptyString.

Section Transformer.

Context `{platform : Platform} `{checker : TypeChecker} `{package : Package}.

(** [createRequire(jsName, name, modNames)] (lines 52-75):
    [const jsName = require(...modNames).name]. *)
Definition createRequire (jsName name : string) (modNames : list string) : Node :=
  let varDeclaration :=
    createVariableDeclaration jsName
      (createPropertyAccessExpression
         (createCallExpression (createIdentifier "require") None
            (map (fun name => createStringLiteral name) modNames))
         (createIdentifier name)) in
  let varStatement :=
    createVariableStatement [createModifier ConstKeyword]
      (createVariableDeclarationList [varDeclaration]) in
  varStatement.

(** The fixed vocabulary of type constructors (lines 32-41). *)
Definition typeConstructorNames : list string :=
  ["type"; "array"; "string"; "number"; "boolean"; "object"; "union"; "literal"].

(** The bindings of lines 32-43, one per name of the vocabulary. *)
Definition typeConstructorBindings : list Node :=
  map (fun name => createRequire ("__" +:+ name +:+ "__") name [MODULE_NAME +:+ "/types"])
      typeConstructorNames.

(** [update(node)] (lines 18-50). *)
Definition update (node : SourceFile) (w : World) : SourceFile * World :=
  if negb (existsSync w (fileName node)) &&
     negb (String.eqb (basename (fileName node)) "<repl>.ts")
  then (node, w)
  else
    let stmts :=
      imports w ++
      typeConstructorBindings ++
      functions w ++
      statements node in
    (updateSourceFile node stmts, mkWorld (disk w) [] [] (console w)).

(** [saveInfo(fileName, info)] (lines 77-90).  An error of [fs.mkdirSync]
    or of [fs.writeFileSync] is not caught here. *)
Definition saveInfo (fileName : string) (info : list Info) (w : World) : outcome unit * World :=
  if Nat.eqb (length info) 0 then (Ok tt, w)
  else
    let dirName := dirname fileName in
    let baseName := basename fileName in
    let jsonlDirName := join [dirName; "askit"] in
    match (if negb (existsSync w jsonlDirName) then mkdirSync jsonlDirName w
           else (Ok tt, w)) with
    | (Throw error, w1) => (Throw error, w1)
    | (Ok _, w1) =>
        let jsonlPath := join [jsonlDirName; baseName +:+ ".jsonl"] in
        let jsonl := String.concat newline (map (fun item => JSON_stringify item) info) in
        writeFileSync jsonlPath jsonl w1
    end.

(** The first guard of both rewriters (lines 139 and 181):
    [node.arguments.length > 0 && !ts.isStringLiteralLike(node.arguments[0])]. *)
Definition nonLiteralFirstArgument (arguments : list Node) : bool :=
  Nat.ltb 0 (length arguments) &&
  negb (match arguments !! 0%nat with
        | Some argument => isStringLiteralLike argument
        | None => false
        end).

(** [createTypeExpression(returnType, checker)] (lines 157-165). *)
Definition createTypeExpression (returnType : Node) : M Node :=
  match makeTypeDirection returnType checker with
  | None => throw (UnrepresentableType returnType)
  | Some typeString =>
      let typeExpression := makeExpressionFromString typeString in
      ret typeExpression
  end.

(** [rewriteDefineCall(info, node, checker)] (lines 134-155), the node being
    [CallExpression expression typeArguments arguments]. *)
Definition rewriteDefineCall (expression : Node) (typeArguments : option (list Node))
    (arguments : list Node) : M Node :=
  let node := CallExpression expression typeArguments arguments in
  if nonLiteralFirstArgument arguments then ret node
  else
    match typeArguments with
    | Some [returnType] =>
        typeExpression <- createTypeExpression returnType ;;
        let newNode :=
          updateCallExpression node expression typeArguments
            (typeExpression :: arguments) in
        ret newNode
    | _ => throwError node "expects exactly one type parameter"
    end.

(** [printNode(node)] (lines 167-174). *)
Definition printNode (node : Node) : string := printer_printNode node.

(** [makeVariableMapObject(variables)] (lines 277-286). *)
Definition makeVariableMapObject (variables : list string) : Node :=
  createObjectLiteralExpression
    (map (fun variable => createPropertyAssignment variable (createIdentifier variable))
         variables).

(** [makeModuleName(sourceFileName, name)] (lines 288-294); the unused
    [baseName] is left out.  The result is [(modulePath, moduleName)]. *)
Definition makeModuleName (sourceFileName name : string) : string * string :=
  let sourceDir := dirname sourceFileName in
  let modulePath := join [sourceDir; "askit"; name +:+ ".ts"] in
  let moduleName := name in
  (modulePath, moduleName).

(** [makeCall(moduleName, name, args)] (lines 296-309). *)
Definition makeCall (moduleName name : string) (args : list Node) : Node :=
  createCallExpression
    (createPropertyAccessExpression
       (createIdentifier (moduleName +:+ "_1"))
       (createIdentifier name))
    None
    args.

(** The printable type of a symbol, as lines 211-217 and 318-320 compute it. *)
Definition symbolTypeString (symbol : Symbol) : string :=
  typeToString (getTypeOfSymbolAtLocation symbol (valueDeclaration symbol)).

(** [makeSignature(name, type, symbols, checker)] (lines 311-343). *)
Definition makeSignature (name : string) (type : Node) (symbols : list Symbol) : Node :=
  let params :=
    map (fun sym =>
           let t := symbolTypeString sym in
           createParameterDeclaration (symbol_name sym) (createTypeReferenceNode t))
        symbols in
  let exportModifier := createModifier ExportKeyword in
  createFunctionDeclaration [exportModifier] name params type.

(** [symbols.find((symbol) => symbol.name == variable)] (line 205). *)
Definition findSymbol (symbols : list Symbol) (variable : string) : option Symbol :=
  find (fun symbol => String.eqb (symbol_name symbol) variable) symbols.

(** [variables.map(...)] of lines 204-210: the symbol of every variable, in
    order; the first variable without a symbol throws. *)
Fixpoint resolveVariables (node : Node) (symbols : list Symbol)
    (variables : list string) : M (list Symbol) :=
  match variables with
  | [] => ret []
  | variable :: rest =>
      match findSymbol symbols variable with
      | None => throwError node ("Unknown variable: " +:+ variable)
      | Some symbol =>
          varSymbols <- resolveVariables node symbols rest ;;
          ret (symbol :: varSymbols)
      end
  end.

(** The local constants of [rewriteAskCall] that the metadata record and the
    rewritten call are built from. *)
Definition paramTypeStrings (varSymbols : list Symbol) : list string :=
  map symbolTypeString varSymbols.

Definition returnTypeString (returnType : Node) : string :=
  typeToString (getTypeAtLocation returnType).

(** lines 221-223 *)
Definition functionName (text : string) (varSymbols : list Symbol) (returnType : Node) : string :=
  generateUniqueFunctionName
    (String.concat "_" (text :: paramTypeStrings varSymbols ++ [returnTypeString returnType])).

(** lines 197-200: the second argument, or an empty array literal *)
Definition examplesNode (arguments : list Node) : Node :=
  match arguments !! 1%nat with
  | Some argument => argument
  | None => createArrayLiteralExpression []
  end.

(** lines 231-235: the examples of the metadata record *)
Definition examplesOf (arguments : list Node) : list ExampleType :=
  match arguments !! 1%nat with
  | Some argument =>
      if isIdentifier argument then getIdentifierValue argument checker else []
  | None => []
  end.

(** lines 227-230 *)
Definition paramsOf (varSymbols : list Symbol) : list (string * string) :=
  map (fun sym => (symbolTypeString sym, symbol_name sym)) varSymbols.

(** lines 236-242: the record that is pushed *)
Definition infoOf (text : string) (returnType : Node) (varSymbols : list Symbol)
    (arguments : list Node) : Info :=
  let name := functionName text varSymbols returnType in
  let decl := makeSignature name returnType varSymbols in
  mkInfo (printNode decl) (convertTemplate text) (paramsOf varSymbols) name
         (examplesOf arguments).

(** lines 249-263: [import { name } from './askit/<moduleName>'] *)
Definition importStatementOf (moduleName name : string) : Node :=
  createImportDeclaration
    (createImportClause
       (createNamedImports [createImportSpecifier (createIdentifier name)]))
    (createStringLiteral ("./askit/" +:+ moduleName)).

(** The [.text] of the template; it is read on literal-like nodes only. *)
Definition templateText (template : Node) : string :=
  match literalText template with
  | Some t => t
  | None => ""
  end.

(** [rewriteAskCall(info, node, checker)] (lines 176-275), the node being
    [CallExpression expression typeArguments arguments] of the source file
    [sourceFileName]. *)
Definition rewriteAskCall (sourceFileName : string) (expression : Node)
    (typeArguments : option (list Node)) (arguments : list Node) : M Node :=
  let node := CallExpression expression typeArguments arguments in
  if nonLiteralFirstArgument arguments then ret node
  else
    match typeArguments with
    | Some [returnType] =>
        match arguments !! 0%nat with
        | None =>
            (* [template] is undefined and [template.text] is read *)
            throw readTextOfUndefined
        | Some template =>
            let text := templateText template in
            let variables := extractVariables text in
            let variableMapObject := makeVariableMapObject variables in
            match convertToDynamicType returnType checker with
            | None => throw (UnrepresentableType returnType)
            | Some typeExpression =>
                let symbols := getSymbolsInScope node in
                varSymbols <- resolveVariables node symbols variables ;;
                let name := functionName text varSymbols returnType in
                let args := map (fun sym => createIdentifier (symbol_name sym)) varSymbols in
                info_push (infoOf text returnType varSymbols arguments) ;;;
                let '(modulePath, moduleName) := makeModuleName sourceFileName name in
                found <- readGlobals (fun w => existsSync w modulePath) ;;
                if found : bool then
                  onGlobals (console_log ("Found: " +:+ moduleName)) ;;;
                  onGlobals (imports_push (importStatementOf moduleName name)) ;;;
                  ret (makeCall moduleName name args)
                else
                  let newNode :=
                    updateCallExpression node expression typeArguments
                      [typeExpression; template; examplesNode arguments; variableMapObject] in
                  ret newNode
            end
        end
    | _ => throwError node "expects exactly one type parameter"
    end.

(** [ts.visitEachChild(node, visitor, context)]: the node with every child
    replaced by what the visitor returns for it, children in source order. *)
Section VisitEachChild.

Variable visitor : Node -> M Node.

Fixpoint visitNodes (nodes : list Node) : M (list Node) :=
  match nodes with
  | [] => ret []
  | node :: rest =>
      node' <- visitor node ;;
      rest' <- visitNodes rest ;;
      ret (node' :: rest')
  end.

Definition visitEachChild (node : Node) : M Node :=
  match node with
  | Identifier _ | StringLiteral _ | NoSubstitutionTemplateLiteral _ => ret node
  | ArrayLiteralExpression elements =>
      elements' <- visitNodes elements ;;
      ret (ArrayLiteralExpression elements')
  | PropertyAssignment name initializer =>
      name' <- visitor name ;;
      initializer' <- visitor initializer ;;
      ret (PropertyAssignment name' initializer')
  | ObjectLiteralExpression properties =>
      properties' <- visitNodes properties ;;
      ret (ObjectLiteralExpression properties')
  | PropertyAccessExpression expression name =>
      expression' <- visitor expression ;;
      name' <- visitor name ;;
      ret (PropertyAccessExpression expression' name')
  | CallExpression expression typeArguments arguments =>
      expression' <- visitor expression ;;
      typeArguments' <- match typeArguments with
                        | Some types => types' <- visitNodes types ;; ret (Some types')
                        | None => ret None
                        end ;;
      arguments' <- visitNodes arguments ;;
      ret (CallExpression expression' typeArguments' arguments')
  | SyntaxNode kind children =>
      children' <- visitNodes children ;;
      ret (SyntaxNode kind children')
  end.

(** [ts.visitEachChild] on the source file itself: its statements. *)
Definition visitEachChildOfFile (file : SourceFile) : M SourceFile :=
  stmts <- visitNodes (statements file) ;;
  ret (updateSourceFile file stmts).

End VisitEachChild.

(** [visit(info, node, context)] (lines 114-131) in the source file
    [sourceFileName]. *)
Fixpoint visit (sourceFileName : string) (node : Node) : M Node :=
  match node with
  | CallExpression (Identifier callee as expression) typeArguments arguments =>
      if includes ["llm"; "ask"] (escapedText callee) then
        enter node ;;;
        rewriteAskCall sourceFileName expression typeArguments arguments
      else if includes ["define"] (escapedText callee) then
        enter node ;;;
        rewriteDefineCall expression typeArguments arguments
      else visitEachChild (visit sourceFileName) node
  | _ => visitEachChild (visit sourceFileName) node
  end.

(** The transformation of one file (lines 96-111): traverse, save the
    metadata, update the statements.  An error of the traversal or of
    [saveInfo] is thrown again (lines 106-108), with the process-wide state
    as it was left. *)
Definition transformer (file : SourceFile) (w : World) : outcome SourceFile * World :=
  match visitEachChildOfFile (visit (fileName file)) file (mkPass w [] []) with
  | (Ok x, p) =>
      match saveInfo (fileName file) (info p) (globals p) with
      | (Ok _, w1) =>
          let '(y, w2) := update x w1 in
          (Ok y, w2)
      | (Throw error, w1) => (Throw error, w1)
      end
  | (Throw error, p) => (Throw error, globals p)
  end.

End Transformer.

(** ** Marker call-forms

    The notions the statements below are phrased with.  A marker call-form
    is a call whose callee is the identifier [llm], [ask] or [define]
    (lines 119-124). *)
Inductive Marker : Type := AskMarker | DefineMarker.

Definition markerOf (node : Node) : option Marker :=
  match node with
  | CallExpression (Identifier callee) _ _ =>
      if includes ["llm"; "ask"] (escapedText callee) then Some AskMarker
      else if includes ["define"] (escapedText callee) then Some DefineMarker
      else None
  | _ => None
  end.

(** The children of a node, in the order [visitEachChild] visits them. *)
Definition children (node : Node) : list Node :=
  match node with
  | Identifier _ | StringLiteral _ | NoSubstitutionTemplateLiteral _ => []
  | ArrayLiteralExpression l | ObjectLiteralExpression l | SyntaxNode _ l => l
  | PropertyAssignment a b | PropertyAccessExpression a b => [a; b]
  | CallExpression e ta args =>
      e :: match ta with Some l => l | None => [] end ++ args
  end.

(** The marker call-forms of a tree that are not inside another marker
    call-form, in source order. *)
Fixpoint outerMarkers (node : Node) : list Node :=
  match markerOf node with
  | Some _ => [node]
  | None =>
      match node with
      | Identifier _ | StringLiteral _ | NoSubstitutionTemplateLiteral _ => []
      | ArrayLiteralExpression l | ObjectLiteralExpression l | SyntaxNode _ l =>
          flat_map outerMarkers l
      | PropertyAssignment a b | PropertyAccessExpression a b =>
          outerMarkers a ++ outerMarkers b
      | CallExpression e ta args =>
          outerMarkers e ++
          match ta with Some l => flat_map outerMarkers l | None => [] end ++
          flat_map outerMarkers args
      end
  end.

(** The tree with [rewrite] applied to the marker call-forms that are not
    inside another marker call-form, and nothing else changed. *)
Fixpoint rewriteTree (rewrite : Node -> Node) (node : Node) : Node :=
  match markerOf node with
  | Some _ => rewrite node
  | None =>
      match node with
      | Identifier _ | StringLiteral _ | NoSubstitutionTemplateLiteral _ => node
      | ArrayLiteralExpression l => ArrayLiteralExpression (map (rewriteTree rewrite) l)
      | ObjectLiteralExpression l => ObjectLiteralExpression (map (rewriteTree rewrite) l)
      | SyntaxNode kind l => SyntaxNode kind (map (rewriteTree rewrite) l)
      | PropertyAssignment a b =>
          PropertyAssignment (rewriteTree rewrite a) (rewriteTree rewrite b)
      | PropertyAccessExpression a b =>
          PropertyAccessExpression (rewriteTree rewrite a) (rewriteTree rewrite b)
      | CallExpression e ta args =>
          CallExpression (rewriteTree rewrite e)
            (match ta with
             | Some l => Some (map (rewriteTree rewrite) l)
             | None => None
             end)
            (map (rewriteTree rewrite) args)
      end
  end.

(** All marker call-forms of a tree, nested ones included, in source order. *)
Fixpoint allMarkers (node : Node) : list Node :=
  match markerOf node with Some _ => [node] | None => [] end ++
  match node with
  | Identifier _ | StringLiteral _ | NoSubstitutionTemplateLiteral _ => []
  | ArrayLiteralExpression l | ObjectLiteralExpression l | SyntaxNode _ l =>
      flat_map allMarkers l
  | PropertyAssignment a b | PropertyAccessExpression a b =>
      allMarkers a ++ allMarkers b
  | CallExpression e ta args =>
      allMarkers e ++
      match ta with Some l => flat_map allMarkers l | None => [] end ++
      flat_map allMarkers args
  end.

(** "Exactly one type argument". *)
Definition exactlyOneTypeArgument (typeArguments : option (list Node)) : bool :=
  match typeArguments with
  | Some [_] => true
  | _ => false
  end.

(** The hard error of lines 143 and 185. *)
Definition MissingTypeArgument (node : Node) : Error :=
  AskitError node "expects exactly one type parameter".

(** The value an array literal of string literals denotes. *)
Definition literalArrayValue (node : Node) : option (list ExampleType) :=
  match node with
  | ArrayLiteralExpression elements =>
      Some (omap (fun e => JsonString <$> literalText e) elements)
  | _ => None
  end.

(** A computation of a pass is [sound] with trace [tr] when it leaves the
    disk and [functions] alone, when a normal return has handed exactly the
    call-forms [tr] to the rewriters, and when its result depends on the
    pass it starts from through the disk only. *)
Definition frame (p p' : Pass) : Prop :=
  disk (globals p') = disk (globals p) /\
  functions (globals p') = functions (globals p).

Definition sound {A} (m : M A) (tr : list Node) : Prop :=
  forall p,
    frame p (snd (m p)) /\
    (forall a p', m p = (Ok a, p') -> visited p' = visited p ++ tr) /\
    (forall q, disk (globals q) = disk (globals p) -> fst (m q) = fst (m p)).

(** The symbols of the variables, or the first variable without one: what
    [resolveVariables] computes, without the pass. *)
Fixpoint lookupAll (symbols : list Symbol) (variables : list string) : list Symbol + string :=
  match variables with
  | [] => inl []
  | variable :: rest =>
      match findSymbol symbols variable with
      | None => inr variable
      | Some symbol =>
          match lookupAll symbols rest with
          | inl varSymbols => inl (symbol :: varSymbols)
          | inr missing => inr missing
          end
      end
  end.

(** The pass in which [visit] calls a rewriter for [node]. *)
Definition entered (node : Node) (p : Pass) : Pass :=
  mkPass (globals p) (info p) (visited p ++ [node]).

(** ** Accounts of a traversal

    What a pass has accumulated is phrased with the following notions: the
    record a call-form contributes, the import it contributes on a given
    disk, and the place and content of the sidecar of a source file. *)

(** A computation [obeys] two relations between passes when a normal return
    relates the pass before and the pass after by the first, and a thrown
    error by the second. *)
Definition obeys {A} (Rok Rthrow : Pass -> Pass -> Prop) (m : M A) : Prop :=
  forall p,
    match m p with
    | (Ok _, p') => Rok p p'
    | (Throw _, p') => Rthrow p p'
    end.

Section Accounts.

Context `{platform : Platform} `{checker : TypeChecker} `{package : Package}.

(** The metadata record of a call-form: an [ask] or [llm] call with one type
    argument and a string-literal template, whose type has a dynamic
    descriptor and whose template variables all resolve, has the record of
    lines 236-242; any other node has none. *)
Definition recordOf (node : Node) : option Info :=
  match node with
  | CallExpression (Identifier callee) (Some [returnType]) (template :: rest) =>
      if includes ["llm"; "ask"] (escapedText callee) && isStringLiteralLike template then
        match convertToDynamicType returnType checker,
              lookupAll (getSymbolsInScope node) (extractVariables (templateText template)) with
        | Some _, inl varSymbols =>
            Some (infoOf (templateText template) returnType varSymbols (template :: rest))
        | _, _ => None
        end
      else None
  | _ => None
  end.

(** The import a call-form of the file [sourceFileName] contributes in the
    world [w]: the import of the name of its record, when the module of that
    name is on disk. *)
Definition importOf (sourceFileName : string) (w : World) (node : Node) : option Node :=
  match recordOf node with
  | Some item =>
      if existsSync w (fst (makeModuleName sourceFileName (info_name item)))
      then Some (importStatementOf (info_name item) (info_name item))
      else None
  | None => None
  end.

(** The directory, the path and the content of the sidecar (lines 81-88). *)
Definition sidecarDirectory (fileName : string) : string :=
  join [dirname fileName; "askit"].

Definition sidecarPath (fileName : string) : string :=
  join [sidecarDirectory fileName; basename fileName +:+ ".jsonl"].

Definition sidecarContent (records : list Info) : string :=
  String.concat newline (map (fun item => JSON_stringify item) records).

(** What a traversal that returns normally has accumulated between two
    passes of the file [sourceFileName]: for the call-forms [tr] handed to
    the rewriters, their records and their imports, in that order; the disk
    is as it was. *)
Definition accounted (sourceFileName : string) (p p' : Pass) : Prop :=
  exists tr,
    visited p' = visited p ++ tr /\
    info p' = info p ++ omap recordOf tr /\
    imports (globals p') = imports (globals p) ++ omap (importOf sourceFileName (globals p)) tr /\
    disk (globals p') = disk (globals p).

(** What any traversal, failed or not, may have done between two passes:
    the disk and [functions] are as they were, records and imports have only
    been appended. *)
Definition grown (p p' : Pass) : Prop :=
  disk (globals p') = disk (globals p) /\
  functions (globals p') = functions (globals p) /\
  (exists more, info p' = info p ++ more) /\
  (exists more, imports (globals p') = imports (globals p) ++ more).

(** Whether a path is on a disk. *)
Definition onDisk (d : gmap string Entry) (path : string) : bool :=
  bool_decide (is_Some (d !! path)).

(** What the rewriters return or throw for a call-form, told without the
    pass: the decisions of lines 181-188, 195, 204-210 and 246 for [ask] and
    [llm], of lines 139-147 for [define], on the disk [d]. *)
Definition askOutcome (sourceFileName : string) (d : gmap string Entry)
    (expression : Node) (typeArguments : option (list Node)) (arguments : list Node)
    : outcome Node :=
  if nonLiteralFirstArgument arguments
  then Ok (CallExpression expression typeArguments arguments)
  else
    match typeArguments with
    | Some [returnType] =>
        match arguments !! 0%nat with
        | None => Throw readTextOfUndefined
        | Some template =>
            match convertToDynamicType returnType checker with
            | None => Throw (UnrepresentableType returnType)
            | Some typeExpression =>
                match lookupAll
                        (getSymbolsInScope (CallExpression expression typeArguments arguments))
                        (extractVariables (templateText template)) with
                | inr missing =>
                    Throw (AskitError (CallExpression expression typeArguments arguments)
                             ("Unknown variable: " +:+ missing))
                | inl varSymbols =>
                    if onDisk d
                         (fst (makeModuleName sourceFileName
                                 (functionName (templateText template) varSymbols returnType)))
                    then
                      Ok (makeCall
                            (functionName (templateText template) varSymbols returnType)
                            (functionName (templateText template) varSymbols returnType)
                            (map (fun sym => createIdentifier (symbol_name sym)) varSymbols))
                    else
                      Ok (CallExpression expression typeArguments
                            [typeExpression; template; examplesNode arguments;
                             makeVariableMapObject (extractVariables (templateText template))])
                end
            end
        end
    | _ => Throw (MissingTypeArgument (CallExpression expression typeArguments arguments))
    end.

Definition defineOutcome (expression : Node) (typeArguments : option (list Node))
    (arguments : list Node) : outcome Node :=
  if nonLiteralFirstArgument arguments
  then Ok (CallExpression expression typeArguments arguments)
  else
    match typeArguments with
    | Some [returnType] =>
        match makeTypeDirection returnType checker with
        | Some typeString =>
            Ok (CallExpression expression typeArguments
                  (makeExpressionFromString typeString :: arguments))
        | None => Throw (UnrepresentableType returnType)
        end
    | _ => Throw (MissingTypeArgument (CallExpression expression typeArguments arguments))
    end.

Definition rewriteOutcome (sourceFileName : string) (d : gmap string Entry) (node : Node)
    : outcome Node :=
  match markerOf node, node with
  | Some AskMarker, CallExpression expression typeArguments arguments =>
      askOutcome sourceFileName d expression typeArguments arguments
  | Some DefineMarker, CallExpression expression typeArguments arguments =>
      defineOutcome expression typeArguments arguments
  | _, _ => Ok node
  end.

(** The error of a call-form, if it has one, and what it is rewritten to
    otherwise. *)
Definition errorOf (sourceFileName : string) (d : gmap string Entry) (node : Node)
    : option Error :=
  match rewriteOutcome sourceFileName d node with
  | Throw error => Some error
  | Ok _ => None
  end.

Definition rewrittenOf (sourceFileName : string) (d : gmap string Entry) (node : Node) : Node :=
  match rewriteOutcome sourceFileName d node with
  | Ok node' => node'
  | Throw _ => node
  end.

(** The first error among call-forms, in their order. *)
Definition firstError (sourceFileName : string) (d : gmap string Entry)
    (markers : list Node) : option Error :=
  head (omap (errorOf sourceFileName d) markers).

(** What a traversal of a tree, or of a list of trees, returns or throws on
    the disk [d]: the first error among its marker call-forms that are not
    inside another one, in source order; without an error, the tree with
    these call-forms rewritten. *)
Definition traversalOutcome (sourceFileName : string) (d : gmap string Entry) (node : Node)
    : outcome Node :=
  match firstError sourceFileName d (outerMarkers node) with
  | Some error => Throw error
  | None => Ok (rewriteTree (rewrittenOf sourceFileName d) node)
  end.

Definition traversalOutcomes (sourceFileName : string) (d : gmap string Entry)
    (nodes : list Node) : outcome (list Node) :=
  match firstError sourceFileName d (flat_map outerMarkers nodes) with
  | Some error => Throw error
  | None => Ok (map (rewriteTree (rewrittenOf sourceFileName d)) nodes)
  end.

(** The call-forms before the first one whose rewrite throws: those that a
    traversal has rewritten when it stops. *)
Fixpoint markersBeforeError (sourceFileName : string) (d : gmap string Entry)
    (markers : list Node) : list Node :=
  match markers with
  | [] => []
  | marker :: rest =>
      match errorOf sourceFileName d marker with
      | Some _ => []
      | None => marker :: markersBeforeError sourceFileName d rest
      end
  end.

(** Between two passes of the file [sourceFileName], the records and the
    imports of the call-forms [tr] have been appended, in that order, and
    the disk is as it was. *)
Definition accounts (sourceFileName : string) (tr : list Node) (p p' : Pass) : Prop :=
  info p' = info p ++ omap recordOf tr /\
  imports (globals p') =
    imports (globals p) ++ omap (importOf sourceFileName (globals p)) tr /\
  disk (globals p') = disk (globals p).

(** A node that a traversal returns as it is, in any pass, without touching
    the records or the process-wide state. *)
Definition settled (sourceFileName : string) (node : Node) : Prop :=
  forall q, exists q',
    visit sourceFileName node q = (Ok node, q') /\
    globals q' = globals q /\ info q' = info q.

End Accounts.

(** ** A sample host

    Stand-ins for the interfaces, small enough to evaluate the transformer
    on concrete files: POSIX-style paths, a scope with [x : number],
    [y : number] and a constant [samples], templates with [{{name}}]
    markers. *)
Module Sample.

Definition dq : string := String (ascii_of_nat 34) EmptyString.
Definition slash : ascii := ascii_of_nat 47.

(** the part after the last slash, and the part before it *)
Fixpoint lastSegment (s acc : string) : string :=
  match s with
  | EmptyString => acc
  | String c rest =>
      if Ascii.eqb c slash then lastSegment rest "" else lastSegment rest (acc +:+ String c "")
  end.

Fixpoint beforeLastSlash (s acc cur : string) : string :=
  match s with
  | EmptyString => acc
  | String c rest =>
      if Ascii.eqb c slash then beforeLastSlash rest cur (cur +:+ String c "")
      else beforeLastSlash rest acc (cur +:+ String c "")
  end.

Definition basename (p : string) : string := lastSegment p "".

Definition dirname (p : string) : string :=
  match beforeLastSlash p "" "" with
  | EmptyString => "."
  | d => d
  end.

Definition join (parts : list string) : string := String.concat "/" parts.

Definition quoted (s : string) : string := dq +:+ s +:+ dq.

Fixpoint stringifyValue (v : ExampleType) : string :=
  match v with
  | JsonNumber n => pretty n
  | JsonString s => quoted s
  | JsonArray items => "[" +:+ String.concat "," (map stringifyValue items) +:+ "]"
  | JsonObject fields =>
      "{" +:+ String.concat ","
               (map (fun kv => quoted (fst kv) +:+ ":" +:+ stringifyValue (snd kv)) fields)
          +:+ "}"
  end.

Definition JSON_stringify (item : Info) : string :=
  "{" +:+ quoted "signature" +:+ ":" +:+ quoted (signature item) +:+ "," +:+
  quoted "desc" +:+ ":" +:+ quoted (desc item) +:+ "," +:+
  quoted "params" +:+ ":[" +:+
    String.concat ","
      (map (fun tn => "[" +:+ quoted (fst tn) +:+ "," +:+ quoted (snd tn) +:+ "]")
           (params item)) +:+ "]," +:+
  quoted "name" +:+ ":" +:+ quoted (info_name item) +:+ "," +:+
  quoted "examples" +:+ ":[" +:+
    String.concat "," (map stringifyValue (examples item)) +:+ "]}".

(** keyword type nodes *)
Definition NumberKeyword : Node := SyntaxNode (OtherKind 150) [].
Definition StringKeyword : Node := SyntaxNode (OtherKind 154) [].

(** a printer for the declarations [makeSignature] builds *)
Definition assemble (kind : SyntaxKind) (parts : list string) : string :=
  match kind with
  | ExportKeyword => "export"
  | ConstKeyword => "const"
  | TypeReference => String.concat "." parts
  | ParameterDeclaration => String.concat ": " parts
  | FunctionDeclaration =>
      match parts with
      | modifier :: name :: rest =>
          modifier +:+ " function " +:+ name +:+ "(" +:+
          String.concat ", " (removelast rest) +:+ "): " +:+ List.last rest "" +:+ ";"
      | _ => ""
      end
  | OtherKind 150 => "number"
  | OtherKind 154 => "string"
  | _ => String.concat " " parts
  end.

Fixpoint printer_printNode (node : Node) : string :=
  match node with
  | Identifier text => text
  | StringLiteral text => quoted text
  | NoSubstitutionTemplateLiteral text => "`" +:+ text +:+ "`"
  | ArrayLiteralExpression elements =>
      "[" +:+ String.concat ", " (map printer_printNode elements) +:+ "]"
  | PropertyAssignment name initializer =>
      printer_printNode name +:+ ": " +:+ printer_printNode initializer
  | ObjectLiteralExpression properties =>
      "{ " +:+ String.concat ", " (map printer_printNode properties) +:+ " }"
  | PropertyAccessExpression expression name =>
      printer_printNode expression +:+ "." +:+ printer_printNode name
  | CallExpression expression _ arguments =>
      printer_printNode expression +:+ "(" +:+
      String.concat ", " (map printer_printNode arguments) +:+ ")"
  | SyntaxNode kind children => assemble kind (map printer_printNode children)
  end.

Definition platform : Platform :=
  Build_Platform basename dirname join JSON_stringify printer_printNode.

(** the scope: [x : number], [y : number], [samples] *)
Definition number : TsType := TypeHandle 0.
Definition anyType : TsType := TypeHandle 1.
Definition stringType : TsType := TypeHandle 2.

Definition declarationOf (name : string) : Node :=
  createVariableDeclaration name (Identifier "undefined").

Definition scope : list Symbol :=
  [ mkSymbol "x" (declarationOf "x");
    mkSymbol "y" (declarationOf "y");
    mkSymbol "samples" (declarationOf "samples") ].

Definition sampleExamples : list ExampleType :=
  [ JsonObject [("input", JsonObject [("x", JsonNumber 1); ("y", JsonNumber 2)]);
                ("output", JsonNumber 3)] ].

Definition checker : TypeChecker :=
  Build_TypeChecker
    (fun _ => scope)
    (fun symbol _ =>
       if String.eqb (symbol_name symbol) "samples" then anyType else number)
    (fun node =>
       match node with
       | SyntaxNode (OtherKind 150) [] => number
       | SyntaxNode (OtherKind 154) [] => stringType
       | _ => anyType
       end)
    (fun t =>
       match t with
       | TypeHandle 0 => "number"
       | TypeHandle 2 => "string"
       | _ => "any"
       end)
    (fun node =>
       match node with
       | Identifier "samples" => Some sampleExamples
       | _ => None
       end).

(** templates: the names between [{{] and [}}], in order *)
Fixpoint scanVariables (s : string) (current : option string) : list string :=
  match s with
  | EmptyString => []
  | String c rest =>
      match current, c, rest with
      | None, "{"%char, String "{"%char rest' => scanVariables rest' (Some "")
      | Some name, "}"%char, String "}"%char rest' => name :: scanVariables rest' None
      | Some name, _, _ => scanVariables rest (Some (name +:+ String c ""))
      | None, _, _ => scanVariables rest None
      end
  end.

Definition extractVariables (template : string) : list string :=
  scanVariables template None.

(** the description: the template with the braces turned into quotes *)
Fixpoint convertTemplate (s : string) : string :=
  match s with
  | EmptyString => ""
  | String c rest =>
      match c, rest with
      | "{"%char, String "{"%char rest' => String "'"%char (convertTemplate rest')
      | "}"%char, String "}"%char rest' => String "'"%char (convertTemplate rest')
      | _, _ => String c (convertTemplate rest)
      end
  end.

Definition generateUniqueFunctionName (joined : string) : string :=
  "f_" +:+ pretty (String.length joined).

Definition convertToDynamicType (node : Node) (_ : TypeChecker) : option Node :=
  match node with
  | SyntaxNode (OtherKind 150) [] => Some (Identifier "__number__")
  | SyntaxNode (OtherKind 154) [] => Some (Identifier "__string__")
  | _ => None
  end.

Definition makeTypeDirection (node : Node) (_ : TypeChecker) : option string :=
  match node with
  | SyntaxNode (OtherKind 150) [] => Some "number"
  | SyntaxNode (OtherKind 154) [] => Some "string"
  | _ => None
  end.

Definition makeExpressionFromString (text : string) : Node := StringLiteral text.

Definition package : Package :=
  Build_Package extractVariables convertTemplate generateUniqueFunctionName
    convertToDynamicType makeTypeDirection makeExpressionFromString.

(** the sample calls *)
Definition addTemplate : Node := StringLiteral "Add {{x}} and {{y}}".

Definition askAdd : Node :=
  CallExpression (Identifier "ask") (Some [NumberKeyword]) [addTemplate].

Definition statementOf (expression : Node) : Node :=
  SyntaxNode (OtherKind 244) [expression].

(** a project directory with the source file [main.ts] *)
Definition project : World :=
  mkWorld (<["/proj/main.ts" := File "..."]> (<["/proj" := Directory]> ∅)) [] [] [].

Definition startOf (w : World) : Pass := mkPass w [] [].

(** [ask<number>('Add {{x}} and {{y}}', second)] after the INLINE rewrite *)
Definition inlineAdd (second : Node) : Node :=
  CallExpression (Identifier "ask") (Some [NumberKeyword])
    [ Identifier "__number__"; addTemplate; second;
      ObjectLiteralExpression
        [ PropertyAssignment (Identifier "x") (Identifier "x");
          PropertyAssignment (Identifier "y") (Identifier "y") ] ].

(** the symbols of [x] and [y] *)
Definition symbolsOfAdd : list Symbol :=
  [ mkSymbol "x" (declarationOf "x"); mkSymbol "y" (declarationOf "y") ].

(** the same project with the generated module of [askAdd] on disk *)
Definition projectWithModule : World :=
  mkWorld (<["/proj/askit/f_40.ts" := File "..."]>
             (<["/proj/askit" := Directory]> (disk project))) [] [] [].

(** [ask<number>('Add {{x}} and {{y}}', ['1 and 2 give 3'])]: the examples
    are an inline literal array *)
Definition literalExamples : Node :=
  ArrayLiteralExpression [StringLiteral "1 and 2 give 3"].

Definition askWithLiteral : Node :=
  CallExpression (Identifier "ask") (Some [NumberKeyword]) [addTemplate; literalExamples].

(** [ask<number>('Add {{x}} and {{y}}', samples)] *)
Definition askWithSamples : Node :=
  CallExpression (Identifier "ask") (Some [NumberKeyword]) [addTemplate; Identifier "samples"].

(** [ask<number>(prompt)], [ask('static text')], [define<number>('adder')] *)
Definition askPrompt : Node :=
  CallExpression (Identifier "ask") (Some [NumberKeyword]) [Identifier "prompt"].

Definition askUntyped : Node :=
  CallExpression (Identifier "ask") None [StringLiteral "static text"].

Definition defineAdder : Node :=
  CallExpression (Identifier "define") (Some [NumberKeyword]) [StringLiteral "adder"].

(** [define<number>('adder', ask<number>('Add {{x}} and {{y}}'))]: a marker
    call-form in the arguments of another one *)
Definition defineNested : Node :=
  CallExpression (Identifier "define") (Some [NumberKeyword])
    [StringLiteral "adder"; askAdd].

(** source files: [main.ts] is on disk, [gen.ts] is not *)
Definition mainFile : SourceFile := mkSourceFile "/proj/main.ts" [statementOf askAdd].
Definition nestedFile : SourceFile := mkSourceFile "/proj/main.ts" [statementOf defineNested].
Definition genFile : SourceFile := mkSourceFile "/proj/gen.ts" [statementOf askAdd].
Definition plainFile : SourceFile :=
  mkSourceFile "/proj/gen.ts"
    [statementOf (CallExpression (Identifier "print") None [StringLiteral "done"])].

(** [ask<string>('Hello {{name}}')]: [name] is not in scope *)
Definition askHello : Node :=
  CallExpression (Identifier "ask") (Some [StringKeyword]) [StringLiteral "Hello {{name}}"].

(** the record of [askAdd] *)
Definition recordOfAdd : Info :=
  mkInfo "export function f_40(x: number, y: number): number;" "Add 'x' and 'y'"
         [("number", "x"); ("number", "y")] "f_40" [].

(** [f_40_1.f_40(x, y)] *)
Definition redirectedAdd : Node :=
  CallExpression (PropertyAccessExpression (Identifier "f_40_1") (Identifier "f_40")) None
    [Identifier "x"; Identifier "y"].

(** a file whose second statement fails, the interactive pseudo-file *)
Definition failingFile : SourceFile :=
  mkSourceFile "/proj/main.ts" [statementOf askAdd; statementOf askUntyped].

Definition replFile : SourceFile := mkSourceFile "/proj/<repl>.ts" [statementOf askAdd].

(** a package whose type directives are parsed to identifiers *)
Definition packageOfIdentifiers : Package :=
  Build_Package extractVariables convertTemplate generateUniqueFunctionName
    convertToDynamicType makeTypeDirection (fun text => Identifier text).

End Sample.

(** ** Properties *)

(** Induction on a tree: a property holds of every node when it holds of a
    node whose children have it. *)
Lemma Node_children_ind (P : Node -> Prop) :
  (forall node, Forall P (children node) -> P node) -> forall node, P node.
Proof.
  intros step. fix IH 1. intros node. apply step.
  destruct node as [t|t|t|l|a b|l|a b|e ta args|k l]; simpl.
  - constructor.
  - constructor.
  - constructor.
  - induction l as [|x l IHl]; constructor; [apply IH | exact IHl].
  - constructor; [apply IH | constructor; [apply IH | constructor]].
  - induction l as [|x l IHl]; constructor; [apply IH | exact IHl].
  - constructor; [apply IH | constructor; [apply IH | constructor]].
  - constructor; [apply IH |].
    apply Forall_app_2.
    + destruct ta as [l|]; [|constructor].
      induction l as [|x l IHl]; constructor; [apply IH | exact IHl].
    + induction args as [|x l IHl]; constructor; [apply IH | exact IHl].
  - induction l as [|x l IHl]; constructor; [apply IH | exact IHl].
Qed.

Lemma outerMarkers_marker node m :
  markerOf node = Some m -> outerMarkers node = [node].
Proof.
  intros Hm. destruct node; simpl in Hm |- *; try discriminate.
  rewrite Hm. reflexivity.
Qed.

Lemma outerMarkers_children node :
  markerOf node = None -> outerMarkers node = flat_map outerMarkers (children node).
Proof.
  intros Hm.
  destruct node as [t|t|t|l|a b|l|a b|e ta args|k l];
    simpl in Hm |- *; try rewrite Hm; try rewrite app_nil_r; try reflexivity.
  rewrite flat_map_app. destruct ta; reflexivity.
Qed.

Section Properties.

Context `{platform : Platform} `{checker : TypeChecker} `{package : Package}.

(** *** What a traversal may read and write *)

Lemma sound_ret {A} (a : A) : sound (ret a) [].
Proof.
  intros p. repeat split.
  - intros b p' E. inversion E; subst. rewrite app_nil_r. reflexivity.
Qed.

Lemma sound_throw {A} (e : Error) : sound (@throw A e) [].
Proof.
  intros p. repeat split. intros b p' E. discriminate E.
Qed.

Lemma sound_bind {A B} (m : M A) (k : A -> M B) tr1 tr2 :
  sound m tr1 -> (forall a, sound (k a) tr2) -> sound (bind m k) (tr1 ++ tr2).
Proof.
  intros Hm Hk p. unfold bind.
  destruct (Hm p) as ((Hd & Hf) & Ht & Hq).
  destruct (m p) as [[a|e] p1] eqn:E; simpl in *.
  - destruct (Hk a p1) as ((Hd' & Hf') & Ht' & Hq').
    split; [split; congruence|]. split.
    + intros b p' Eb. rewrite (Ht' _ _ Eb), (Ht _ _ eq_refl), app_assoc. reflexivity.
    + intros q Eq. specialize (Hq q Eq).
      destruct (Hm q) as ((Hdq & _) & _).
      destruct (m q) as [[a'|e'] q1]; simpl in *; inversion Hq; subst.
      apply Hq'. congruence.
  - split; [split; assumption|]. split.
    + intros b p' Eb. discriminate Eb.
    + intros q Eq. specialize (Hq q Eq).
      destruct (m q) as [[a'|e'] q1]; simpl in *; inversion Hq; subst. reflexivity.
Qed.

Lemma sound_nil_bind {A B} (m : M A) (k : A -> M B) tr :
  sound m [] -> (forall a, sound (k a) tr) -> sound (bind m k) tr.
Proof. intros Hm Hk. apply (sound_bind m k [] tr Hm Hk). Qed.

Lemma sound_bind_nil {A B} (m : M A) (k : A -> M B) tr :
  sound m tr -> (forall a, sound (k a) []) -> sound (bind m k) tr.
Proof.
  intros Hm Hk. rewrite <- (app_nil_r tr). apply sound_bind; assumption.
Qed.

Lemma sound_enter node : sound (enter node) [node].
Proof.
  intros p. repeat split. intros a p' E. inversion E; subst. reflexivity.
Qed.

Lemma sound_info_push item : sound (info_push item) [].
Proof.
  intros p. repeat split. intros a p' E. inversion E; subst. simpl.
  rewrite app_nil_r. reflexivity.
Qed.

Lemma sound_onGlobals (f : World -> World) :
  (forall w, disk (f w) = disk w /\ functions (f w) = functions w) ->
  sound (onGlobals f) [].
Proof.
  intros Hf p. split; [apply Hf|]. split.
  - intros a p' E. inversion E; subst. simpl. rewrite app_nil_r. reflexivity.
  - reflexivity.
Qed.

Lemma sound_existsSync path : sound (readGlobals (fun w => existsSync w path)) [].
Proof.
  intros p. repeat split.
  - intros a p' E. inversion E; subst. rewrite app_nil_r. reflexivity.
  - intros q Eq. unfold readGlobals, existsSync. simpl. rewrite Eq. reflexivity.
Qed.

Lemma sound_resolveVariables node symbols variables :
  sound (resolveVariables node symbols variables) [].
Proof.
  induction variables as [|v vs IH]; simpl.
  - apply sound_ret.
  - destruct (findSymbol symbols v); [|apply sound_throw].
    apply sound_nil_bind; [exact IH|]. intros a. apply sound_ret.
Qed.

Lemma sound_createTypeExpression returnType : sound (createTypeExpression returnType) [].
Proof.
  unfold createTypeExpression.
  destruct (makeTypeDirection returnType checker); [apply sound_ret | apply sound_throw].
Qed.

Lemma sound_rewriteDefineCall expression typeArguments arguments :
  sound (rewriteDefineCall expression typeArguments arguments) [].
Proof.
  unfold rewriteDefineCall.
  destruct (nonLiteralFirstArgument arguments); [apply sound_ret|].
  destruct typeArguments as [[|t [|t' l]]|]; try apply sound_throw.
  apply sound_nil_bind; [apply sound_createTypeExpression|].
  intros a. apply sound_ret.
Qed.

Lemma sound_rewriteAskCall sourceFileName expression typeArguments arguments :
  sound (rewriteAskCall sourceFileName expression typeArguments arguments) [].
Proof.
  unfold rewriteAskCall.
  destruct (nonLiteralFirstArgument arguments); [apply sound_ret|].
  destruct typeArguments as [[|t [|t' l]]|]; try apply sound_throw.
  destruct (arguments !! 0%nat) as [template|]; [|apply sound_throw].
  destruct (convertToDynamicType t checker) as [te|]; [|apply sound_throw].
  apply sound_nil_bind; [apply sound_resolveVariables|]. intros varSymbols.
  apply sound_nil_bind; [apply sound_info_push|]. intros _.
  unfold makeModuleName.
  apply sound_nil_bind; [apply sound_existsSync|]. intros [|].
  - apply sound_nil_bind; [apply sound_onGlobals; intros w; split; reflexivity|]. intros _.
    apply sound_nil_bind; [apply sound_onGlobals; intros w; split; reflexivity|]. intros _.
    apply sound_ret.
  - apply sound_ret.
Qed.

Lemma sound_visitNodes (visitor : Node -> M Node) (tr : Node -> list Node) nodes :
  Forall (fun node => sound (visitor node) (tr node)) nodes ->
  sound (visitNodes visitor nodes) (flat_map tr nodes).
Proof.
  induction 1 as [|node rest Hn _ IH]; simpl.
  - apply sound_ret.
  - apply sound_bind; [exact Hn|]. intros node'.
    apply sound_bind_nil; [exact IH|]. intros rest'. apply sound_ret.
Qed.

Lemma sound_visitEachChild (visitor : Node -> M Node) (tr : Node -> list Node) node :
  Forall (fun child => sound (visitor child) (tr child)) (children node) ->
  sound (visitEachChild visitor node) (flat_map tr (children node)).
Proof.
  intros H.
  destruct node as [t|t|t|l|a b|l|a b|e ta args|k l]; simpl in *;
    try apply sound_ret;
    try (apply sound_bind_nil; [apply sound_visitNodes; exact H|];
         intros l'; apply sound_ret).
  - inversion H as [|? ? Ha Hb']; subst. inversion Hb' as [|? ? Hb _]; subst.
    apply sound_bind; [exact Ha|]. intros a'.
    apply sound_bind; [exact Hb|]. intros b'. apply sound_ret.
  - inversion H as [|? ? Ha Hb']; subst. inversion Hb' as [|? ? Hb _]; subst.
    apply sound_bind; [exact Ha|]. intros a'.
    apply sound_bind; [exact Hb|]. intros b'. apply sound_ret.
  - inversion H as [|? ? He Hrest]; subst.
    apply Forall_app in Hrest as [Hta Hargs].
    apply sound_bind; [exact He|]. intros e'.
    rewrite flat_map_app.
    apply sound_bind.
    + destruct ta as [l|].
      * apply sound_bind_nil; [apply sound_visitNodes; exact Hta|].
        intros l'. apply sound_ret.
      * apply sound_ret.
    + intros ta'.
      apply sound_bind_nil; [apply sound_visitNodes; exact Hargs|].
      intros args'. apply sound_ret.
Qed.

(** [visit] dispatches on the marker of the node. *)
Lemma visit_unfold sourceFileName node :
  visit sourceFileName node =
  match markerOf node, node with
  | Some AskMarker, CallExpression expression typeArguments arguments =>
      bind (enter node)
           (fun _ => rewriteAskCall sourceFileName expression typeArguments arguments)
  | Some DefineMarker, CallExpression expression typeArguments arguments =>
      bind (enter node)
           (fun _ => rewriteDefineCall expression typeArguments arguments)
  | _, _ => visitEachChild (visit sourceFileName) node
  end.
Proof.
  destruct node as [t|t|t|l|a b|l|a b|e ta args|k l]; try reflexivity.
  destruct e as [callee| | | | | | | |]; try reflexivity.
  cbn [visit markerOf].
  destruct (includes ["llm"; "ask"] (escapedText callee)); [reflexivity|].
  destruct (includes ["define"] (escapedText callee)); reflexivity.
Qed.

Lemma markerOf_call node m :
  markerOf node = Some m ->
  exists callee typeArguments arguments,
    node = CallExpression (Identifier callee) typeArguments arguments.
Proof.
  destruct node as [t|t|t|l|a b|l|a b|e ta args|k l]; try discriminate.
  destruct e; try discriminate. intros _. eauto.
Qed.

Lemma visit_other sourceFileName node :
  markerOf node = None ->
  visit sourceFileName node = visitEachChild (visit sourceFileName) node.
Proof.
  intros Hm. rewrite visit_unfold, Hm. destruct node; reflexivity.
Qed.

Lemma visit_ask sourceFileName expression typeArguments arguments :
  markerOf (CallExpression expression typeArguments arguments) = Some AskMarker ->
  visit sourceFileName (CallExpression expression typeArguments arguments) =
  bind (enter (CallExpression expression typeArguments arguments))
       (fun _ => rewriteAskCall sourceFileName expression typeArguments arguments).
Proof. intros Hm. rewrite visit_unfold, Hm. reflexivity. Qed.

Lemma visit_define sourceFileName expression typeArguments arguments :
  markerOf (CallExpression expression typeArguments arguments) = Some DefineMarker ->
  visit sourceFileName (CallExpression expression typeArguments arguments) =
  bind (enter (CallExpression expression typeArguments arguments))
       (fun _ => rewriteDefineCall expression typeArguments arguments).
Proof. intros Hm. rewrite visit_unfold, Hm. reflexivity. Qed.

Lemma sound_visit sourceFileName node :
  sound (visit sourceFileName node) (outerMarkers node).
Proof.
  induction node as [node IH] using Node_children_ind.
  destruct (markerOf node) as [m|] eqn:Hm.
  - rewrite (outerMarkers_marker _ _ Hm).
    destruct (markerOf_call _ _ Hm) as (callee & ta & args & ->).
    change [CallExpression (Identifier callee) ta args]
      with ([CallExpression (Identifier callee) ta args] ++ @nil Node).
    destruct m.
    + rewrite (visit_ask _ _ _ _ Hm).
      apply sound_bind; [apply sound_enter|]. intros _. apply sound_rewriteAskCall.
    + rewrite (visit_define _ _ _ _ Hm).
      apply sound_bind; [apply sound_enter|]. intros _. apply sound_rewriteDefineCall.
  - rewrite (outerMarkers_children _ Hm), (visit_other _ _ Hm).
    apply sound_visitEachChild. exact IH.
Qed.

(** *** The rewriters, as equations *)

Lemma nonLiteralFirstArgument_cons first rest :
  nonLiteralFirstArgument (first :: rest) = negb (isStringLiteralLike first).
Proof. reflexivity. Qed.

Lemma nonLiteralFirstArgument_false arguments :
  nonLiteralFirstArgument arguments = false <->
  (forall first, arguments !! 0%nat = Some first -> isStringLiteralLike first = true).
Proof.
  destruct arguments as [|first rest].
  - split; [intros _ first E; discriminate E | reflexivity].
  - rewrite nonLiteralFirstArgument_cons. split.
    + intros H first' E. inversion E; subst.
      destruct (isStringLiteralLike first'); [reflexivity | discriminate H].
    + intros H. rewrite (H first eq_refl). reflexivity.
Qed.

Lemma resolveVariables_eq node symbols variables p :
  resolveVariables node symbols variables p =
  match lookupAll symbols variables with
  | inl varSymbols => (Ok varSymbols, p)
  | inr missing => (Throw (AskitError node ("Unknown variable: " +:+ missing)), p)
  end.
Proof.
  revert p. induction variables as [|v vs IH]; intros p; simpl.
  - reflexivity.
  - destruct (findSymbol symbols v) as [symbol|]; [|reflexivity].
    unfold bind. rewrite IH. destruct (lookupAll symbols vs); reflexivity.
Qed.

Lemma lookupAll_Forall2 symbols variables varSymbols :
  lookupAll symbols variables = inl varSymbols <->
  Forall2 (fun variable symbol => findSymbol symbols variable = Some symbol)
          variables varSymbols.
Proof.
  revert varSymbols. induction variables as [|v vs IH]; intros varSymbols; simpl.
  - split.
    + intros E. inversion E; subst. constructor.
    + intros H. inversion H; subst. reflexivity.
  - split.
    + destruct (findSymbol symbols v) as [symbol|] eqn:Ef; [|discriminate].
      destruct (lookupAll symbols vs) as [found|missing]; [|discriminate].
      intros E. inversion E; subst. constructor; [exact Ef | apply IH; reflexivity].
    + intros H. inversion H as [|? symbol ? rest Ef Hrest]; subst.
      rewrite Ef. apply IH in Hrest. rewrite Hrest. reflexivity.
Qed.

(** A symbol found for a variable carries the name of the variable. *)
Lemma findSymbol_name symbols variable symbol :
  findSymbol symbols variable = Some symbol -> symbol_name symbol = variable.
Proof.
  unfold findSymbol. intros E. apply find_some in E as [_ E].
  apply String.eqb_eq in E. exact E.
Qed.

Lemma resolved_names symbols variables varSymbols :
  Forall2 (fun variable symbol => findSymbol symbols variable = Some symbol)
          variables varSymbols ->
  map symbol_name varSymbols = variables.
Proof.
  induction 1 as [|v s vs ss E _ IH]; simpl; [reflexivity|].
  rewrite (findSymbol_name _ _ _ E), IH. reflexivity.
Qed.

Lemma rewriteDefineCall_eq expression typeArguments arguments p :
  rewriteDefineCall expression typeArguments arguments p =
  if nonLiteralFirstArgument arguments
  then (Ok (CallExpression expression typeArguments arguments), p)
  else
    match typeArguments with
    | Some [returnType] =>
        match makeTypeDirection returnType checker with
        | Some typeString =>
            (Ok (CallExpression expression typeArguments
                   (makeExpressionFromString typeString :: arguments)), p)
        | None => (Throw (UnrepresentableType returnType), p)
        end
    | _ => (Throw (MissingTypeArgument (CallExpression expression typeArguments arguments)), p)
    end.
Proof.
  unfold rewriteDefineCall.
  destruct (nonLiteralFirstArgument arguments); [reflexivity|].
  destruct typeArguments as [[|t [|t' l]]|]; try reflexivity.
  unfold bind, createTypeExpression.
  destruct (makeTypeDirection t checker); reflexivity.
Qed.

Lemma rewriteAskCall_eq sourceFileName expression typeArguments arguments p :
  rewriteAskCall sourceFileName expression typeArguments arguments p =
  if nonLiteralFirstArgument arguments
  then (Ok (CallExpression expression typeArguments arguments), p)
  else
    match typeArguments with
    | Some [returnType] =>
        match arguments !! 0%nat with
        | None => (Throw readTextOfUndefined, p)
        | Some template =>
            match convertToDynamicType returnType checker with
            | None => (Throw (UnrepresentableType returnType), p)
            | Some typeExpression =>
                match lookupAll
                        (getSymbolsInScope (CallExpression expression typeArguments arguments))
                        (extractVariables (templateText template)) with
                | inr missing =>
                    (Throw (AskitError (CallExpression expression typeArguments arguments)
                              ("Unknown variable: " +:+ missing)), p)
                | inl varSymbols =>
                    if existsSync (globals p)
                         (fst (makeModuleName sourceFileName
                                 (functionName (templateText template) varSymbols returnType)))
                    then
                      (Ok (makeCall
                             (functionName (templateText template) varSymbols returnType)
                             (functionName (templateText template) varSymbols returnType)
                             (map (fun sym => createIdentifier (symbol_name sym)) varSymbols)),
                       mkPass
                         (imports_push
                            (importStatementOf
                               (functionName (templateText template) varSymbols returnType)
                               (functionName (templateText template) varSymbols returnType))
                            (console_log
                               ("Found: " +:+
                                functionName (templateText template) varSymbols returnType)
                               (globals p)))
                         (info p ++ [infoOf (templateText template) returnType varSymbols arguments])
                         (visited p))
                    else
                      (Ok (CallExpression expression typeArguments
                             [typeExpression; template; examplesNode arguments;
                              makeVariableMapObject (extractVariables (templateText template))]),
                       mkPass (globals p)
                         (info p ++ [infoOf (templateText template) returnType varSymbols arguments])
                         (visited p))
                end
            end
        end
    | _ => (Throw (MissingTypeArgument (CallExpression expression typeArguments arguments)), p)
    end.
Proof.
  unfold rewriteAskCall.
  destruct (nonLiteralFirstArgument arguments); [reflexivity|].
  destruct typeArguments as [[|t [|t' l]]|]; try reflexivity.
  destruct (arguments !! 0%nat) as [template|]; [|reflexivity].
  destruct (convertToDynamicType t checker) as [te|]; [|reflexivity].
  unfold bind at 1. rewrite resolveVariables_eq.
  destruct (lookupAll _ _) as [varSymbols|missing]; [|reflexivity].
  unfold bind, info_push, makeModuleName, readGlobals, onGlobals. simpl.
  destruct (existsSync (globals p) _); reflexivity.
Qed.

(** [visit] on a marker call-form: the rewriter runs in the pass that has
    noted the call-form. *)
Lemma visit_ask_eq sourceFileName callee typeArguments arguments p :
  In callee ["llm"; "ask"] ->
  visit sourceFileName (CallExpression (Identifier callee) typeArguments arguments) p =
  rewriteAskCall sourceFileName (Identifier callee) typeArguments arguments
    (entered (CallExpression (Identifier callee) typeArguments arguments) p).
Proof.
  intros Hc. rewrite visit_ask; [reflexivity|].
  simpl in Hc. destruct Hc as [<-|[<-|[]]]; reflexivity.
Qed.

Lemma visit_define_eq sourceFileName typeArguments arguments p :
  visit sourceFileName (CallExpression (Identifier "define") typeArguments arguments) p =
  rewriteDefineCall (Identifier "define") typeArguments arguments
    (entered (CallExpression (Identifier "define") typeArguments arguments) p).
Proof. rewrite visit_define; reflexivity. Qed.

(** *** Single call-forms *)

(** C8.  A marker call-form ([llm], [ask] or [define]) whose first argument
    is present and is not a string literal is returned unchanged, whatever
    its type arguments: nothing is thrown, no metadata record is appended
    and the process-wide state, pending imports included, is as before. *)
Theorem non_literal_first_argument_passes_through
    sourceFileName callee typeArguments first rest p :
  In callee ["llm"; "ask"; "define"] ->
  isStringLiteralLike first = false ->
  visit sourceFileName (CallExpression (Identifier callee) typeArguments (first :: rest)) p =
  (Ok (CallExpression (Identifier callee) typeArguments (first :: rest)),
   mkPass (globals p) (info p)
          (visited p ++ [CallExpression (Identifier callee) typeArguments (first :: rest)])).
Proof.
  intros Hc Hfirst. simpl in Hc.
  destruct Hc as [<-|[<-|[<-|[]]]].
  - rewrite visit_ask_eq by (simpl; tauto).
    rewrite rewriteAskCall_eq, nonLiteralFirstArgument_cons, Hfirst. reflexivity.
  - rewrite visit_ask_eq by (simpl; tauto).
    rewrite rewriteAskCall_eq, nonLiteralFirstArgument_cons, Hfirst. reflexivity.
  - rewrite visit_define_eq.
    rewrite rewriteDefineCall_eq, nonLiteralFirstArgument_cons, Hfirst. reflexivity.
Qed.

(** C9.  A [define] call-form with exactly one type argument, whose first
    argument is a string literal or absent and whose type has a descriptor,
    becomes the same callee applied to the type descriptor expression
    followed by all the original arguments in order.  The pass is the one
    the rewriter was entered with: no metadata record is appended, and the
    result is the same on every disk. *)
Theorem define_call_is_rewritten
    sourceFileName returnType arguments typeString p :
  (forall first, arguments !! 0%nat = Some first -> isStringLiteralLike first = true) ->
  makeTypeDirection returnType checker = Some typeString ->
  visit sourceFileName (CallExpression (Identifier "define") (Some [returnType]) arguments) p =
  (Ok (CallExpression (Identifier "define") (Some [returnType])
         (makeExpressionFromString typeString :: arguments)),
   mkPass (globals p) (info p)
          (visited p ++ [CallExpression (Identifier "define") (Some [returnType]) arguments])).
Proof.
  intros Hfirst Htype.
  apply nonLiteralFirstArgument_false in Hfirst.
  rewrite visit_define_eq, rewriteDefineCall_eq, Hfirst, Htype. reflexivity.
Qed.

(** C7.  For a marker call-form whose first argument, if present, is a
    string literal, the rewrite throws the error "expects exactly one type
    parameter" if and only if the call-form does not have exactly one type
    argument: none and several both throw it. *)
Theorem missing_type_argument_iff
    sourceFileName callee typeArguments arguments p :
  In callee ["llm"; "ask"; "define"] ->
  (forall first, arguments !! 0%nat = Some first -> isStringLiteralLike first = true) ->
  fst (visit sourceFileName (CallExpression (Identifier callee) typeArguments arguments) p) =
    Throw (MissingTypeArgument (CallExpression (Identifier callee) typeArguments arguments))
  <-> exactlyOneTypeArgument typeArguments = false.
Proof.
  intros Hc Hfirst. apply nonLiteralFirstArgument_false in Hfirst.
  assert (Hask : In callee ["llm"; "ask"] ->
    fst (visit sourceFileName (CallExpression (Identifier callee) typeArguments arguments) p) =
      Throw (MissingTypeArgument (CallExpression (Identifier callee) typeArguments arguments))
    <-> exactlyOneTypeArgument typeArguments = false).
  { intros Ha. rewrite (visit_ask_eq _ _ _ _ _ Ha), rewriteAskCall_eq, Hfirst.
    destruct typeArguments as [[|t [|t' l]]|]; simpl; try (split; [reflexivity | reflexivity]).
    split; [|discriminate].
    destruct (arguments !! 0%nat) as [template|]; simpl; [|discriminate].
    destruct (convertToDynamicType t checker) as [te|]; simpl; [|discriminate].
    destruct (lookupAll _ _) as [varSymbols|missing]; simpl.
    - destruct (existsSync _ _); simpl; discriminate.
    - unfold MissingTypeArgument. intros E. inversion E. }
  simpl in Hc. destruct Hc as [<-|[<-|[<-|[]]]].
  - apply Hask. simpl. tauto.
  - apply Hask. simpl. tauto.
  - rewrite visit_define_eq, rewriteDefineCall_eq, Hfirst.
    destruct typeArguments as [[|t [|t' l]]|]; simpl; try (split; [reflexivity | reflexivity]).
    split; [|discriminate].
    destruct (makeTypeDirection t checker); simpl; discriminate.
Qed.

(** C10 (what the code does).  An [ask] or [llm] call-form with one type
    argument and no positional argument passes both guards, although it has
    no first argument: [arguments[0]] is [undefined], and reading its
    [.text] throws a [TypeError]. *)
Theorem ask_without_arguments_reads_undefined sourceFileName returnType p :
  nonLiteralFirstArgument [] = false /\
  exactlyOneTypeArgument (Some [returnType]) = true /\
  (@nil Node) !! 0%nat = None /\
  visit sourceFileName (CallExpression (Identifier "ask") (Some [returnType]) []) p =
    (Throw readTextOfUndefined,
     mkPass (globals p) (info p)
            (visited p ++ [CallExpression (Identifier "ask") (Some [returnType]) []])) /\
  visit sourceFileName (CallExpression (Identifier "llm") (Some [returnType]) []) p =
    (Throw readTextOfUndefined,
     mkPass (globals p) (info p)
            (visited p ++ [CallExpression (Identifier "llm") (Some [returnType]) []])).
Proof.
  split; [reflexivity|]. split; [reflexivity|]. split; [reflexivity|]. split.
  - rewrite visit_ask_eq by (simpl; tauto). rewrite rewriteAskCall_eq. reflexivity.
  - rewrite visit_ask_eq by (simpl; tauto). rewrite rewriteAskCall_eq. reflexivity.
Qed.


(** C3.  REDIRECT.  The same call-form, when its generated module is on
    disk: the import of the synthesized name from [./askit/<name>] is
    appended to the pending imports, the call-form becomes the invocation
    of the imported symbol, reached as [<name>_1.<name>], on the identifiers
    of the resolved variables in template order, and the metadata record
    appended is the record that the same call appends in a pass where the
    module is not on disk (the INLINE case). *)
Theorem redirect_rewrite
    sourceFileName callee returnType template rest typeExpression varSymbols p :
  In callee ["llm"; "ask"] ->
  isStringLiteralLike template = true ->
  convertToDynamicType returnType checker = Some typeExpression ->
  Forall2 (fun variable symbol =>
             findSymbol
               (getSymbolsInScope
                  (CallExpression (Identifier callee) (Some [returnType]) (template :: rest)))
               variable = Some symbol)
          (extractVariables (templateText template)) varSymbols ->
  existsSync (globals p)
    (fst (makeModuleName sourceFileName
            (functionName (templateText template) varSymbols returnType))) = true ->
  visit sourceFileName
        (CallExpression (Identifier callee) (Some [returnType]) (template :: rest)) p =
  (Ok (CallExpression
         (PropertyAccessExpression
            (Identifier (functionName (templateText template) varSymbols returnType +:+ "_1"))
            (Identifier (functionName (templateText template) varSymbols returnType)))
         None
         (map Identifier (extractVariables (templateText template)))),
   mkPass
     (mkWorld (disk (globals p)) (functions (globals p))
        (imports (globals p) ++
         [importStatementOf (functionName (templateText template) varSymbols returnType)
                            (functionName (templateText template) varSymbols returnType)])
        (console (globals p) ++
         ["Found: " +:+ functionName (templateText template) varSymbols returnType]))
     (info p ++ [infoOf (templateText template) returnType varSymbols (template :: rest)])
     (visited p ++
      [CallExpression (Identifier callee) (Some [returnType]) (template :: rest)])) /\
  importStatementOf (functionName (templateText template) varSymbols returnType)
                    (functionName (templateText template) varSymbols returnType) =
    SyntaxNode ImportDeclaration
      [SyntaxNode ImportClause
         [SyntaxNode NamedImports
            [SyntaxNode ImportSpecifier
               [Identifier (functionName (templateText template) varSymbols returnType)]]];
       StringLiteral
         ("./askit/" +:+ functionName (templateText template) varSymbols returnType)] /\
  (forall q,
      existsSync (globals q)
        (fst (makeModuleName sourceFileName
                (functionName (templateText template) varSymbols returnType))) = false ->
      info (snd (visit sourceFileName
                   (CallExpression (Identifier callee) (Some [returnType]) (template :: rest))
                   q)) =
      info q ++ [infoOf (templateText template) returnType varSymbols (template :: rest)]).
Proof.
  intros Hc Hlit Htype Hvars Hdisk.
  pose proof (resolved_names _ _ _ Hvars) as Hnames.
  apply lookupAll_Forall2 in Hvars.
  split; [|split; [reflexivity|]].
  - rewrite (visit_ask_eq _ _ _ _ _ Hc), rewriteAskCall_eq.
    rewrite nonLiteralFirstArgument_cons, Hlit. simpl.
    rewrite Htype, Hvars. simpl in Hdisk |- *. rewrite Hdisk.
    assert (Hargs : map (fun sym => createIdentifier (symbol_name sym)) varSymbols =
                    map Identifier (extractVariables (templateText template))).
    { rewrite <- Hnames, map_map. reflexivity. }
    rewrite Hargs. reflexivity.
  - intros q Hq.
    rewrite (visit_ask_eq _ _ _ _ _ Hc), rewriteAskCall_eq.
    rewrite nonLiteralFirstArgument_cons, Hlit. simpl.
    rewrite Htype, Hvars. simpl in Hq |- *. rewrite Hq. reflexivity.
Qed.

(** C4 (amended).  When an [ask] or [llm] call-form with a string-literal
    template is rewritten, one metadata record is appended, and its
    examples are: the value statically bound to the second argument when
    that argument is a bare identifier with such a value; the empty list
    when the identifier has none; and the empty list as well when there is
    no second argument or when the second argument is anything but an
    identifier, a literal array included. *)
Theorem examples_of_metadata_record
    sourceFileName callee typeArguments arguments p node' p' :
  In callee ["llm"; "ask"] ->
  (exists template, arguments !! 0%nat = Some template /\ isStringLiteralLike template = true) ->
  visit sourceFileName (CallExpression (Identifier callee) typeArguments arguments) p =
    (Ok node', p') ->
  exists item,
    info p' = info p ++ [item] /\
    examples item =
      match arguments !! 1%nat with
      | Some (Identifier name) =>
          match staticValue (Identifier name) with
          | Some value => value
          | None => []
          end
      | Some _ => []
      | None => []
      end.
Proof.
  intros Hc (template & Htemplate & Hlit) Hvisit.
  rewrite (visit_ask_eq _ _ _ _ _ Hc), rewriteAskCall_eq in Hvisit.
  assert (Hguard : nonLiteralFirstArgument arguments = false).
  { apply nonLiteralFirstArgument_false. intros first E.
    rewrite Htemplate in E. inversion E; subst. exact Hlit. }
  rewrite Hguard, Htemplate in Hvisit.
  destruct typeArguments as [[|t [|t' l]]|]; simpl in Hvisit; try discriminate.
  destruct (convertToDynamicType t checker) as [te|]; [|discriminate].
  destruct (lookupAll _ _) as [varSymbols|missing]; [|discriminate].
  exists (infoOf (templateText template) t varSymbols arguments).
  split.
  - destruct (existsSync _ _); inversion Hvisit; subst; reflexivity.
  - simpl. unfold examplesOf, getIdentifierValue.
    destruct (arguments !! 1%nat) as [[]|]; reflexivity.
Qed.

(** *** Whole traversals *)

Lemma visitNodes_id (visitor : Node -> M Node) nodes :
  Forall (fun node => forall p, visitor node p = (Ok node, p)) nodes ->
  forall p, visitNodes visitor nodes p = (Ok nodes, p).
Proof.
  induction 1 as [|node rest Hn _ IH]; intros p; simpl; [reflexivity|].
  unfold bind. rewrite Hn, IH. reflexivity.
Qed.

Lemma visitEachChild_id (visitor : Node -> M Node) node :
  Forall (fun child => forall p, visitor child p = (Ok child, p)) (children node) ->
  forall p, visitEachChild visitor node p = (Ok node, p).
Proof.
  intros H p.
  destruct node as [t|t|t|l|a b|l|a b|e ta args|k l]; simpl in *;
    try reflexivity;
    try (unfold bind; rewrite (visitNodes_id visitor _ H); reflexivity).
  - inversion H as [|? ? Ha Hb']; subst. inversion Hb' as [|? ? Hb _]; subst.
    unfold bind. rewrite Ha, Hb. reflexivity.
  - inversion H as [|? ? Ha Hb']; subst. inversion Hb' as [|? ? Hb _]; subst.
    unfold bind. rewrite Ha, Hb. reflexivity.
  - inversion H as [|? ? He Hrest]; subst.
    apply Forall_app in Hrest as [Hta Hargs].
    unfold bind. rewrite He.
    destruct ta as [l|]; simpl in Hta |- *.
    + rewrite (visitNodes_id visitor l Hta). simpl.
      rewrite (visitNodes_id visitor args Hargs). reflexivity.
    + rewrite (visitNodes_id visitor args Hargs). reflexivity.
Qed.

Lemma flat_map_nil_Forall {A B} (f : A -> list B) l :
  flat_map f l = [] -> Forall (fun x => f x = []) l.
Proof.
  induction l as [|x l IH]; simpl; intros E; constructor.
  - destruct (f x); [reflexivity | discriminate E].
  - apply IH. destruct (f x); [exact E | discriminate E].
Qed.

(** A tree without marker call-forms is returned as it is, in the pass as
    it is. *)
Lemma visit_id sourceFileName node :
  outerMarkers node = [] -> forall p, visit sourceFileName node p = (Ok node, p).
Proof.
  induction node as [node IH] using Node_children_ind. intros Hnone.
  destruct (markerOf node) as [m|] eqn:Hm.
  - rewrite (outerMarkers_marker _ _ Hm) in Hnone. discriminate Hnone.
  - rewrite (outerMarkers_children _ Hm) in Hnone.
    apply flat_map_nil_Forall in Hnone.
    rewrite (visit_other _ _ Hm). apply visitEachChild_id.
    rewrite Forall_forall in IH, Hnone |- *.
    intros child Hin. apply IH; [exact Hin | apply Hnone; exact Hin].
Qed.

Lemma sound_visitEachChildOfFile sourceFileName file :
  sound (visitEachChildOfFile (visit sourceFileName) file)
        (flat_map outerMarkers (statements file)).
Proof.
  unfold visitEachChildOfFile.
  apply sound_bind_nil.
  - apply sound_visitNodes. rewrite Forall_forall. intros node _. apply sound_visit.
  - intros stmts. apply sound_ret.
Qed.



Lemma visitEachChildOfFile_fileName (visitor : Node -> M Node) file p x p' :
  visitEachChildOfFile visitor file p = (Ok x, p') -> fileName x = fileName file.
Proof.
  unfold visitEachChildOfFile, bind, ret.
  destruct (visitNodes visitor (statements file) p) as [[stmts|e] p1]; intros E;
    inversion E; subst. reflexivity.
Qed.


(** The disk answers [existsSync]. *)
Lemma existsSync_disk w w' path :
  disk w' = disk w -> existsSync w' path = existsSync w path.
Proof. unfold existsSync. intros ->. reflexivity. Qed.

Lemma saveInfo_nil path w : saveInfo path [] w = (Ok tt, w).
Proof. reflexivity. Qed.

(** The file-system calls touch the disk only, and only add to it. *)
Lemma mkdirSync_variables path w :
  functions (snd (mkdirSync path w)) = functions w /\
  imports (snd (mkdirSync path w)) = imports w /\
  console (snd (mkdirSync path w)) = console w.
Proof.
  unfold mkdirSync.
  destruct (disk w !! dirname path) as [[|data]|]; [|simpl; tauto..].
  destruct (disk w !! path); simpl; tauto.
Qed.

Lemma writeFileSync_variables path data w :
  functions (snd (writeFileSync path data w)) = functions w /\
  imports (snd (writeFileSync path data w)) = imports w /\
  console (snd (writeFileSync path data w)) = console w.
Proof.
  unfold writeFileSync.
  destruct (disk w !! dirname path) as [[|data']|]; [|simpl; tauto..].
  destruct (disk w !! path) as [[|data']|]; simpl; tauto.
Qed.

Lemma insert_existsSync (d : gmap string Entry) path entry file :
  is_Some (d !! file) -> is_Some (<[path := entry]> d !! file).
Proof.
  intros H. destruct (decide (path = file)) as [->|Hne].
  - rewrite lookup_insert_eq. eauto.
  - rewrite lookup_insert_ne by exact Hne. exact H.
Qed.

Lemma mkdirSync_existsSync path w file :
  existsSync w file = true -> existsSync (snd (mkdirSync path w)) file = true.
Proof.
  unfold existsSync, mkdirSync. intros H. apply bool_decide_eq_true in H.
  apply bool_decide_eq_true.
  destruct (disk w !! dirname path) as [[|data]|]; [|exact H..].
  destruct (disk w !! path); simpl; [exact H|].
  apply insert_existsSync. exact H.
Qed.

Lemma writeFileSync_existsSync path data w file :
  existsSync w file = true -> existsSync (snd (writeFileSync path data w)) file = true.
Proof.
  unfold existsSync, writeFileSync. intros H. apply bool_decide_eq_true in H.
  apply bool_decide_eq_true.
  destruct (disk w !! dirname path) as [[|data']|]; [|exact H..].
  destruct (disk w !! path) as [[|data']|]; simpl;
    [exact H|apply insert_existsSync; exact H..].
Qed.

(** [saveInfo] as the two calls it makes: the creation of the directory,
    when nothing is at its path, and the writing of the file. *)
Lemma saveInfo_cons path item records w :
  saveInfo path (item :: records) w =
  match (if negb (existsSync w (join [dirname path; "askit"]))
         then mkdirSync (join [dirname path; "askit"]) w else (Ok tt, w)) with
  | (Throw error, w1) => (Throw error, w1)
  | (Ok _, w1) =>
      writeFileSync (join [join [dirname path; "askit"]; basename path +:+ ".jsonl"])
        (String.concat newline (map (fun item => JSON_stringify item) (item :: records))) w1
  end.
Proof. reflexivity. Qed.

Lemma saveInfo_variables path records w :
  functions (snd (saveInfo path records w)) = functions w /\
  imports (snd (saveInfo path records w)) = imports w /\
  console (snd (saveInfo path records w)) = console w.
Proof.
  destruct records as [|item records]; [simpl; tauto|].
  rewrite saveInfo_cons.
  assert (Hdir : forall r w1,
             (if negb (existsSync w (join [dirname path; "askit"]))
              then mkdirSync (join [dirname path; "askit"]) w else (Ok tt, w)) = (r, w1) ->
             functions w1 = functions w /\ imports w1 = imports w /\ console w1 = console w).
  { intros r w1. destruct (negb _).
    - intros E. pose proof (mkdirSync_variables (join [dirname path; "askit"]) w) as Hm.
      rewrite E in Hm. exact Hm.
    - intros E. inversion E. tauto. }
  destruct (if negb _ then _ else _) as [[[]|e] w1] eqn:E;
    destruct (Hdir _ _ eq_refl) as (Hf & Hi & Hc); [|simpl; tauto].
  match goal with
  | |- context [writeFileSync ?a ?b w1] =>
      destruct (writeFileSync_variables a b w1) as (Hf' & Hi' & Hc')
  end.
  rewrite Hf', Hi', Hc'. tauto.
Qed.

(** [saveInfo] only adds to the disk. *)
Lemma saveInfo_existsSync path records w file :
  existsSync w file = true -> existsSync (snd (saveInfo path records w)) file = true.
Proof.
  intros H. destruct records as [|item records]; [exact H|].
  rewrite saveInfo_cons.
  assert (Hdir : forall r w1,
             (if negb (existsSync w (join [dirname path; "askit"]))
              then mkdirSync (join [dirname path; "askit"]) w else (Ok tt, w)) = (r, w1) ->
             existsSync w1 file = true).
  { intros r w1. destruct (negb _).
    - intros E. pose proof (mkdirSync_existsSync (join [dirname path; "askit"]) w file H) as Hm.
      rewrite E in Hm. exact Hm.
    - intros E. inversion E; subst. exact H. }
  destruct (if negb _ then _ else _) as [[[]|e] w1] eqn:E;
    pose proof (Hdir _ _ eq_refl) as H1; [|exact H1].
  apply writeFileSync_existsSync. exact H1.
Qed.

(** [functions] is empty when the module is loaded (line 15) and no
    transformation changes that. *)
Lemma transformer_functions file w :
  functions w = [] -> functions (snd (transformer file w)) = [].
Proof.
  intros Hfunctions. unfold transformer.
  destruct (sound_visitEachChildOfFile (fileName file) file (mkPass w [] []))
    as ((_ & Hfun) & _ & _).
  destruct (visitEachChildOfFile _ file _) as [[x|e] p]; simpl in Hfun |- *.
  - destruct (saveInfo_variables (fileName file) (info p) (globals p)) as (Hf & _ & _).
    destruct (saveInfo (fileName file) (info p) (globals p)) as [[[]|e] w1]; simpl in Hf |- *.
    + unfold update.
      destruct (negb _ && negb _); simpl; [|reflexivity].
      rewrite Hf, Hfun. exact Hfunctions.
    + rewrite Hf, Hfun. exact Hfunctions.
  - rewrite Hfun. exact Hfunctions.
Qed.

(** C5 (amended).  In one pass over a source file that returns normally,
    the call-forms handed to a rewriter are exactly the marker call-forms
    that are not inside another marker call-form, each once and in source
    order; a marker call-form inside the arguments of another one is not
    visited.  The traversal does not change the disk, and what [visit]
    returns for a node depends on the pass it runs in through the disk only:
    no rewrite observes what another rewrite has accumulated. *)
Theorem outer_markers_visited_once file w x p :
  visitEachChildOfFile (visit (fileName file)) file (mkPass w [] []) = (Ok x, p) ->
  visited p = flat_map outerMarkers (statements file) /\
  disk (globals p) = disk w /\
  (forall node q q',
      disk (globals q) = disk (globals q') ->
      fst (visit (fileName file) node q) = fst (visit (fileName file) node q')).
Proof.
  intros Htraverse.
  destruct (sound_visitEachChildOfFile (fileName file) file (mkPass w [] []))
    as ((Hdisk & _) & Htrace & _).
  rewrite Htraverse in Hdisk. simpl in Hdisk.
  split; [|split].
  - apply (Htrace _ _ Htraverse).
  - exact Hdisk.
  - intros node q q' Hq.
    destruct (sound_visit (fileName file) node q') as (_ & _ & Hind).
    apply Hind. exact Hq.
Qed.

End Properties.

(** ** Further properties of the traversal *)

Section Traversals.

Context `{platform : Platform} `{checker : TypeChecker} `{package : Package}.

(** *** Relations that every step of a traversal obeys *)

Section Obeys.

Variables Rok Rthrow : Pass -> Pass -> Prop.
Hypothesis Rok_refl : forall p, Rok p p.
Hypothesis Rok_trans : forall p q r, Rok p q -> Rok q r -> Rok p r.
Hypothesis Rthrow_after : forall p q r, Rok p q -> Rthrow q r -> Rthrow p r.

Lemma obeys_ret {A} (a : A) : obeys Rok Rthrow (ret a).
Proof. intros p. apply Rok_refl. Qed.

Lemma obeys_bind {A B} (m : M A) (k : A -> M B) :
  obeys Rok Rthrow m -> (forall a, obeys Rok Rthrow (k a)) -> obeys Rok Rthrow (bind m k).
Proof.
  intros Hm Hk p. unfold bind. specialize (Hm p).
  destruct (m p) as [[a|e] p1]; [|exact Hm].
  specialize (Hk a p1). destruct (k a p1) as [[b|e] p2].
  - apply (Rok_trans _ _ _ Hm Hk).
  - apply (Rthrow_after _ _ _ Hm Hk).
Qed.

Lemma obeys_visitNodes (visitor : Node -> M Node) nodes :
  Forall (fun node => obeys Rok Rthrow (visitor node)) nodes ->
  obeys Rok Rthrow (visitNodes visitor nodes).
Proof.
  induction 1 as [|node rest Hn _ IH]; simpl.
  - apply obeys_ret.
  - apply obeys_bind; [exact Hn|]. intros node'.
    apply obeys_bind; [exact IH|]. intros rest'. apply obeys_ret.
Qed.

Lemma obeys_visitEachChild (visitor : Node -> M Node) node :
  Forall (fun child => obeys Rok Rthrow (visitor child)) (children node) ->
  obeys Rok Rthrow (visitEachChild visitor node).
Proof.
  intros H.
  destruct node as [t|t|t|l|a b|l|a b|e ta args|k l]; simpl in *;
    try apply obeys_ret;
    try (apply obeys_bind; [apply obeys_visitNodes; exact H|];
         intros l'; apply obeys_ret).
  - inversion H as [|? ? Ha Hb']; subst. inversion Hb' as [|? ? Hb _]; subst.
    apply obeys_bind; [exact Ha|]. intros a'.
    apply obeys_bind; [exact Hb|]. intros b'. apply obeys_ret.
  - inversion H as [|? ? Ha Hb']; subst. inversion Hb' as [|? ? Hb _]; subst.
    apply obeys_bind; [exact Ha|]. intros a'.
    apply obeys_bind; [exact Hb|]. intros b'. apply obeys_ret.
  - inversion H as [|? ? He Hrest]; subst.
    apply Forall_app in Hrest as [Hta Hargs].
    apply obeys_bind; [exact He|]. intros e'.
    apply obeys_bind.
    + destruct ta as [l|].
      * apply obeys_bind; [apply obeys_visitNodes; exact Hta|].
        intros l'. apply obeys_ret.
      * apply obeys_ret.
    + intros ta'.
      apply obeys_bind; [apply obeys_visitNodes; exact Hargs|].
      intros args'. apply obeys_ret.
Qed.

Variable sourceFileName : string.
Hypothesis marker_step :
  forall node m, markerOf node = Some m -> obeys Rok Rthrow (visit sourceFileName node).

(** A relation that the visit of every marker call-form obeys is obeyed by
    the visit of every tree. *)
Lemma obeys_visit node : obeys Rok Rthrow (visit sourceFileName node).
Proof.
  induction node as [node IH] using Node_children_ind.
  destruct (markerOf node) as [m|] eqn:Hm.
  - apply (marker_step _ _ Hm).
  - rewrite (visit_other _ _ Hm). apply obeys_visitEachChild. exact IH.
Qed.

Lemma obeys_visitEachChildOfFile file :
  obeys Rok Rthrow (visitEachChildOfFile (visit sourceFileName) file).
Proof.
  unfold visitEachChildOfFile. apply obeys_bind.
  - apply obeys_visitNodes. rewrite Forall_forall. intros node _. apply obeys_visit.
  - intros stmts. apply obeys_ret.
Qed.

End Obeys.

(** *** What the visit of a marker call-form does to the pass *)

Lemma nonLiteralFirstArgument_nil_false : nonLiteralFirstArgument [] = false.
Proof. reflexivity. Qed.

Lemma markerOf_ask expression typeArguments arguments :
  markerOf (CallExpression expression typeArguments arguments) = Some AskMarker ->
  exists callee,
    expression = Identifier callee /\ includes ["llm"; "ask"] (escapedText callee) = true.
Proof.
  destruct expression as [callee| | | | | | | |]; try discriminate.
  cbn [markerOf]. intros Hm. exists callee. split; [reflexivity|].
  destruct (includes ["llm"; "ask"] (escapedText callee)); [reflexivity|].
  destruct (includes ["define"] (escapedText callee)); discriminate Hm.
Qed.

Lemma markerOf_define expression typeArguments arguments :
  markerOf (CallExpression expression typeArguments arguments) = Some DefineMarker ->
  exists callee,
    expression = Identifier callee /\ includes ["llm"; "ask"] (escapedText callee) = false.
Proof.
  destruct expression as [callee| | | | | | | |]; try discriminate.
  cbn [markerOf]. intros Hm. exists callee. split; [reflexivity|].
  destruct (includes ["llm"; "ask"] (escapedText callee)); [discriminate Hm | reflexivity].
Qed.

(** The visit of an [ask] or [llm] call-form: with a record, it returns
    normally, appends the record and, when the module named in the record
    is on disk, the import of that name; without a record it only notes the
    call-form, whether it returns it unchanged or throws. *)
Lemma visit_ask_marker sourceFileName expression typeArguments arguments p :
  markerOf (CallExpression expression typeArguments arguments) = Some AskMarker ->
  match recordOf (CallExpression expression typeArguments arguments) with
  | Some item =>
      exists node',
        visit sourceFileName (CallExpression expression typeArguments arguments) p =
        (Ok node',
         mkPass
           (if existsSync (globals p) (fst (makeModuleName sourceFileName (info_name item)))
            then imports_push (importStatementOf (info_name item) (info_name item))
                   (console_log ("Found: " +:+ info_name item) (globals p))
            else globals p)
           (info p ++ [item])
           (visited p ++ [CallExpression expression typeArguments arguments]))
  | None =>
      snd (visit sourceFileName (CallExpression expression typeArguments arguments) p) =
      entered (CallExpression expression typeArguments arguments) p
  end.
Proof.
  intros Hm. rewrite (visit_ask _ _ _ _ Hm).
  destruct (markerOf_ask _ _ _ Hm) as (callee & -> & Hc).
  change (bind (enter (CallExpression (Identifier callee) typeArguments arguments))
            (fun _ => rewriteAskCall sourceFileName (Identifier callee) typeArguments arguments) p)
    with (rewriteAskCall sourceFileName (Identifier callee) typeArguments arguments
            (entered (CallExpression (Identifier callee) typeArguments arguments) p)).
  rewrite rewriteAskCall_eq. cbn [recordOf].
  destruct arguments as [|template rest].
  - rewrite nonLiteralFirstArgument_nil_false.
    destruct typeArguments as [[|t [|t' l]]|]; reflexivity.
  - rewrite nonLiteralFirstArgument_cons, Hc.
    destruct (isStringLiteralLike template) eqn:Hlit; simpl.
    + destruct typeArguments as [[|t [|t' l]]|]; try reflexivity.
      destruct (convertToDynamicType t checker) as [te|]; [|reflexivity].
      destruct (lookupAll _ _) as [varSymbols|missing]; [|reflexivity].
      simpl. destruct (existsSync (globals p) _); eexists; reflexivity.
    + destruct typeArguments as [[|t [|t' l]]|]; reflexivity.
Qed.

(** The visit of a [define] call-form only notes the call-form. *)
Lemma visit_define_marker sourceFileName expression typeArguments arguments p :
  markerOf (CallExpression expression typeArguments arguments) = Some DefineMarker ->
  recordOf (CallExpression expression typeArguments arguments) = None /\
  snd (visit sourceFileName (CallExpression expression typeArguments arguments) p) =
  entered (CallExpression expression typeArguments arguments) p.
Proof.
  intros Hm. rewrite (visit_define _ _ _ _ Hm).
  destruct (markerOf_define _ _ _ Hm) as (callee & -> & Hc).
  split.
  - cbn [recordOf]. destruct typeArguments as [[|t [|t' l]]|]; try reflexivity.
    destruct arguments as [|template rest]; [reflexivity|]. rewrite Hc. reflexivity.
  - change (bind (enter (CallExpression (Identifier callee) typeArguments arguments))
              (fun _ => rewriteDefineCall (Identifier callee) typeArguments arguments) p)
      with (rewriteDefineCall (Identifier callee) typeArguments arguments
              (entered (CallExpression (Identifier callee) typeArguments arguments) p)).
    rewrite rewriteDefineCall_eq.
    destruct (nonLiteralFirstArgument arguments); [reflexivity|].
    destruct typeArguments as [[|t [|t' l]]|]; try reflexivity.
    destruct (makeTypeDirection t checker); reflexivity.
Qed.

Lemma importOf_disk sourceFileName w w' node :
  disk w' = disk w -> importOf sourceFileName w' node = importOf sourceFileName w node.
Proof.
  intros Hd. unfold importOf. destruct (recordOf node); [|reflexivity].
  rewrite (existsSync_disk _ _ _ Hd). reflexivity.
Qed.

Lemma omap_pointwise {A B} (f g : A -> option B) (l : list A) :
  (forall x, f x = g x) -> omap f l = omap g l.
Proof.
  intros Hfg. induction l as [|x l IH]; [reflexivity|].
  cbn. rewrite Hfg. destruct (g x); [f_equal|]; exact IH.
Qed.

Lemma omap_one {A B} (f : A -> option B) (x : A) :
  omap f [x] = match f x with Some y => [y] | None => [] end.
Proof. reflexivity. Qed.

Lemma accounted_refl sourceFileName p : accounted sourceFileName p p.
Proof.
  exists []. simpl. rewrite !app_nil_r. repeat split.
Qed.

Lemma accounted_trans sourceFileName p q r :
  accounted sourceFileName p q -> accounted sourceFileName q r -> accounted sourceFileName p r.
Proof.
  intros (tr1 & Hv1 & Hi1 & Hm1 & Hd1) (tr2 & Hv2 & Hi2 & Hm2 & Hd2).
  exists (tr1 ++ tr2). rewrite !omap_app.
  split; [rewrite Hv2, Hv1, app_assoc; reflexivity|].
  split; [rewrite Hi2, Hi1, app_assoc; reflexivity|].
  split; [|congruence].
  rewrite Hm2, Hm1, <- app_assoc. f_equal. f_equal.
  apply omap_pointwise. intros node. apply importOf_disk. exact Hd1.
Qed.

Lemma accounted_marker sourceFileName node m :
  markerOf node = Some m ->
  obeys (accounted sourceFileName) (fun _ _ => True) (visit sourceFileName node).
Proof.
  intros Hm p.
  destruct (markerOf_call _ _ Hm) as (callee & ta & args & ->).
  assert (Hnone : recordOf (CallExpression (Identifier callee) ta args) = None ->
                  accounted sourceFileName p
                    (entered (CallExpression (Identifier callee) ta args) p)).
  { intros Hrec. exists [CallExpression (Identifier callee) ta args].
    rewrite !omap_one. unfold importOf. rewrite Hrec, !app_nil_r. repeat split. }
  destruct m.
  - pose proof (visit_ask_marker sourceFileName _ _ _ p Hm) as H.
    destruct (recordOf (CallExpression (Identifier callee) ta args)) as [item|] eqn:Hrec.
    + destruct H as (node' & ->).
      exists [CallExpression (Identifier callee) ta args].
      rewrite !omap_one. unfold importOf. rewrite Hrec.
      destruct (existsSync (globals p) _); simpl; rewrite ?app_nil_r; repeat split.
    + destruct (visit sourceFileName _ p) as [[a|e] p']; [|exact I].
      simpl in H. subst p'. apply Hnone. reflexivity.
  - destruct (visit_define_marker sourceFileName _ _ _ p Hm) as (Hrec & H).
    destruct (visit sourceFileName _ p) as [[a|e] p']; [|exact I].
    simpl in H. subst p'. apply Hnone. exact Hrec.
Qed.

Lemma accounted_file file w x p :
  visitEachChildOfFile (visit (fileName file)) file (mkPass w [] []) = (Ok x, p) ->
  info p = omap recordOf (flat_map outerMarkers (statements file)) /\
  imports (globals p) =
    imports w ++ omap (importOf (fileName file) w) (flat_map outerMarkers (statements file)).
Proof.
  intros Htraverse.
  pose proof (obeys_visitEachChildOfFile (accounted (fileName file)) (fun _ _ => True)
                (accounted_refl (fileName file)) (accounted_trans (fileName file))
                (fun _ _ _ _ _ => I) (fileName file)
                (accounted_marker (fileName file)) file (mkPass w [] [])) as H.
  rewrite Htraverse in H. destruct H as (tr & Hv & Hi & Hm & _).
  destruct (sound_visitEachChildOfFile (fileName file) file (mkPass w [] []))
    as (_ & Htrace & _).
  rewrite (Htrace _ _ Htraverse) in Hv. apply app_inv_head in Hv. subst tr.
  split; assumption.
Qed.

Lemma grown_refl p : grown p p.
Proof.
  repeat split; exists []; rewrite app_nil_r; reflexivity.
Qed.

Lemma grown_trans p q r : grown p q -> grown q r -> grown p r.
Proof.
  intros (Hd1 & Hf1 & (i1 & Hi1) & (m1 & Hm1)) (Hd2 & Hf2 & (i2 & Hi2) & (m2 & Hm2)).
  split; [congruence|]. split; [congruence|]. split.
  - exists (i1 ++ i2). rewrite Hi2, Hi1, app_assoc. reflexivity.
  - exists (m1 ++ m2). rewrite Hm2, Hm1, app_assoc. reflexivity.
Qed.

Lemma grown_entered node p : grown p (entered node p).
Proof.
  repeat split; exists []; rewrite app_nil_r; reflexivity.
Qed.

Lemma grown_marker sourceFileName node m :
  markerOf node = Some m -> obeys grown grown (visit sourceFileName node).
Proof.
  intros Hm p.
  assert (Hg : grown p (snd (visit sourceFileName node p))).
  { destruct (markerOf_call _ _ Hm) as (callee & ta & args & ->).
    destruct m.
    - pose proof (visit_ask_marker sourceFileName _ _ _ p Hm) as H.
      destruct (recordOf (CallExpression (Identifier callee) ta args)) as [item|].
      + destruct H as (node' & ->). simpl.
        split; [destruct (existsSync (globals p) _); reflexivity|].
        split; [destruct (existsSync (globals p) _); reflexivity|].
        split; [eexists; reflexivity|].
        destruct (existsSync (globals p) _); simpl.
        * eexists; reflexivity.
        * exists []. rewrite app_nil_r. reflexivity.
      + rewrite H. apply grown_entered.
    - destruct (visit_define_marker sourceFileName _ _ _ p Hm) as (_ & ->).
      apply grown_entered. }
  destruct (visit sourceFileName node p) as [[a|e] p']; exact Hg.
Qed.

Lemma grown_file file w :
  grown (mkPass w [] [])
        (snd (visitEachChildOfFile (visit (fileName file)) file (mkPass w [] []))).
Proof.
  pose proof (obeys_visitEachChildOfFile grown grown grown_refl grown_trans grown_trans
                (fileName file) (grown_marker (fileName file)) file (mkPass w [] [])) as H.
  destruct (visitEachChildOfFile _ file _) as [[x|e] p]; exact H.
Qed.

(** *** Errors of a rewrite *)

Lemma lookupAll_first_missing symbols known missing later :
  Forall (fun variable => is_Some (findSymbol symbols variable)) known ->
  findSymbol symbols missing = None ->
  lookupAll symbols (known ++ missing :: later) = inr missing.
Proof.
  intros Hknown Hmissing. induction Hknown as [|v vs [symbol Hv] _ IH]; simpl.
  - rewrite Hmissing. reflexivity.
  - rewrite Hv, IH. reflexivity.
Qed.

(** X1.  An [ask] or [llm] call-form with one type argument and a
    string-literal template that names a variable without a symbol in scope
    always throws.  The descriptor of the type is synthesized first
    (line 195): when the type has none, that failure is what is thrown;
    otherwise the error is "Unknown variable: " followed by the first such
    variable in template order (lines 204-210).  Either way the pass has
    only noted the call-form: no record and no import are added. *)
Theorem unknown_variable_is_reported
    sourceFileName callee returnType template rest known missing later p :
  In callee ["llm"; "ask"] ->
  isStringLiteralLike template = true ->
  extractVariables (templateText template) = known ++ missing :: later ->
  Forall (fun variable =>
            is_Some (findSymbol
                       (getSymbolsInScope
                          (CallExpression (Identifier callee) (Some [returnType])
                             (template :: rest)))
                       variable))
         known ->
  findSymbol
    (getSymbolsInScope
       (CallExpression (Identifier callee) (Some [returnType]) (template :: rest)))
    missing = None ->
  visit sourceFileName
        (CallExpression (Identifier callee) (Some [returnType]) (template :: rest)) p =
  (Throw (match convertToDynamicType returnType checker with
          | Some _ =>
              AskitError
                (CallExpression (Identifier callee) (Some [returnType]) (template :: rest))
                ("Unknown variable: " +:+ missing)
          | None => UnrepresentableType returnType
          end),
   mkPass (globals p) (info p)
          (visited p ++
           [CallExpression (Identifier callee) (Some [returnType]) (template :: rest)])).
Proof.
  intros Hc Hlit Hvars Hknown Hmissing.
  rewrite (visit_ask_eq _ _ _ _ _ Hc), rewriteAskCall_eq.
  rewrite nonLiteralFirstArgument_cons, Hlit. simpl.
  destruct (convertToDynamicType returnType checker) as [typeExpression|]; [|reflexivity].
  rewrite Hvars, (lookupAll_first_missing _ _ _ _ Hknown Hmissing). reflexivity.
Qed.

(** *** What a pass accumulates *)

(** X2.  When the visit of a tree returns normally, the records appended
    are exactly the records of the marker call-forms of the tree that are
    not inside another marker call-form, in source order, and the imports
    appended are, in the same order, those of the records whose module is on
    disk.  In particular [define] call-forms and call-forms returned
    unchanged contribute nothing. *)
Theorem visit_accumulates_records_and_imports sourceFileName node p node' p' :
  visit sourceFileName node p = (Ok node', p') ->
  info p' = info p ++ omap recordOf (outerMarkers node) /\
  imports (globals p') =
    imports (globals p) ++ omap (importOf sourceFileName (globals p)) (outerMarkers node).
Proof.
  intros Hvisit.
  pose proof (obeys_visit (accounted sourceFileName) (fun _ _ => True)
                (accounted_refl sourceFileName) (accounted_trans sourceFileName)
                (fun _ _ _ _ _ => I) sourceFileName
                (accounted_marker sourceFileName) node p) as H.
  rewrite Hvisit in H. destruct H as (tr & Hv & Hi & Hm & _).
  destruct (sound_visit sourceFileName node p) as (_ & Htrace & _).
  rewrite (Htrace _ _ Hvisit) in Hv. apply app_inv_head in Hv. subst tr.
  split; assumption.
Qed.

(** *** The sidecar *)

Lemma existsSync_lookup w path :
  existsSync w path = match disk w !! path with Some _ => true | None => false end.
Proof.
  unfold existsSync. destruct (disk w !! path) as [entry|].
  - apply bool_decide_eq_true_2. eauto.
  - apply bool_decide_eq_false_2. intros [entry E]. discriminate E.
Qed.

Lemma saveInfo_steps path item records w :
  saveInfo path (item :: records) w =
  match (if existsSync w (sidecarDirectory path) then (Ok tt, w)
         else mkdirSync (sidecarDirectory path) w) with
  | (Throw error, w1) => (Throw error, w1)
  | (Ok _, w1) => writeFileSync (sidecarPath path) (sidecarContent (item :: records)) w1
  end.
Proof.
  rewrite saveInfo_cons. unfold sidecarPath, sidecarDirectory, sidecarContent.
  destruct (existsSync w _); reflexivity.
Qed.

(** What [saveInfo] leaves on the disk: when it returns, the sidecar and,
    where nothing was at its path, the directory; when it throws, at most
    the directory. *)
Lemma saveInfo_spec path item records w :
  match saveInfo path (item :: records) w with
  | (Ok _, w') =>
      disk w' =
      <[sidecarPath path := File (sidecarContent (item :: records))]>
        (if existsSync w (sidecarDirectory path) then disk w
         else <[sidecarDirectory path := Directory]> (disk w))
  | (Throw _, w') =>
      disk w' = disk w \/
      (disk w !! sidecarDirectory path = None /\
       disk w' = <[sidecarDirectory path := Directory]> (disk w))
  end.
Proof.
  rewrite saveInfo_steps, existsSync_lookup.
  destruct (disk w !! sidecarDirectory path) as [entry|] eqn:Hdir.
  - unfold writeFileSync.
    destruct (disk w !! dirname (sidecarPath path)) as [[|data]|]; auto.
    destruct (disk w !! sidecarPath path) as [[|data]|]; simpl; auto.
  - unfold mkdirSync. rewrite Hdir.
    destruct (disk w !! dirname (sidecarDirectory path)) as [[|data]|]; auto.
    unfold writeFileSync. cbn [disk].
    destruct (<[sidecarDirectory path := Directory]> (disk w) !! dirname (sidecarPath path))
      as [[|data]|]; auto.
    destruct (<[sidecarDirectory path := Directory]> (disk w) !! sidecarPath path)
      as [[|data]|]; simpl; auto.
Qed.

(** [saveInfo] looks at the disk only. *)
Lemma saveInfo_disk_only path records w w' :
  disk w' = disk w ->
  fst (saveInfo path records w') = fst (saveInfo path records w) /\
  disk (snd (saveInfo path records w')) = disk (snd (saveInfo path records w)).
Proof.
  intros Hd. destruct records as [|item records]; [simpl; auto|].
  rewrite !saveInfo_steps, !existsSync_lookup, Hd.
  destruct (disk w !! sidecarDirectory path) as [entry|] eqn:Hdir.
  - unfold writeFileSync. rewrite Hd.
    destruct (disk w !! dirname (sidecarPath path)) as [[|data]|]; auto.
    destruct (disk w !! sidecarPath path) as [[|data]|]; simpl; rewrite ?Hd; auto.
  - unfold mkdirSync. rewrite Hd, Hdir.
    destruct (disk w !! dirname (sidecarDirectory path)) as [[|data]|]; auto.
    unfold writeFileSync. cbn [disk]. rewrite ?Hd.
    destruct (<[sidecarDirectory path := Directory]> (disk w) !! dirname (sidecarPath path))
      as [[|data]|]; auto.
    destruct (<[sidecarDirectory path := Directory]> (disk w) !! sidecarPath path)
      as [[|data]|]; simpl; rewrite ?Hd; auto.
Qed.

Lemma update_disk node w : disk (snd (update node w)) = disk w.
Proof. unfold update. destruct (negb _ && negb _); reflexivity. Qed.

Lemma update_prologue node w :
  existsSync w (fileName node) = true \/ basename (fileName node) = "<repl>.ts" ->
  update node w =
    (mkSourceFile (fileName node)
       (imports w ++ typeConstructorBindings ++ functions w ++ statements node),
     mkWorld (disk w) [] [] (console w)).
Proof.
  intros [H|H]; unfold update; rewrite H.
  - reflexivity.
  - rewrite andb_false_r. reflexivity.
Qed.

(** A transformation that returns normally has traversed, saved and
    updated. *)
Lemma transformer_returns file w y w' :
  transformer file w = (Ok y, w') ->
  exists x p w1,
    visitEachChildOfFile (visit (fileName file)) file (mkPass w [] []) = (Ok x, p) /\
    saveInfo (fileName file) (info p) (globals p) = (Ok tt, w1) /\
    update x w1 = (y, w').
Proof.
  unfold transformer. intros E.
  destruct (visitEachChildOfFile (visit (fileName file)) file (mkPass w [] []))
    as [[x|e] p]; [|discriminate E].
  destruct (saveInfo (fileName file) (info p) (globals p)) as [[[]|e] w1] eqn:Hsave;
    [|discriminate E].
  destruct (update x w1) as [y' w2] eqn:Hupdate.
  assert (Hy : y' = y) by (injection E; auto).
  assert (Hw : w2 = w') by (injection E; auto).
  subst. exists x, p, w1. split; [reflexivity|]. split; [exact Hsave | exact Hupdate].
Qed.

(** The records of a traversal are saved as they would be in the world the
    traversal started in. *)
Lemma saveInfo_of_traversal file w x p :
  visitEachChildOfFile (visit (fileName file)) file (mkPass w [] []) = (Ok x, p) ->
  fst (saveInfo (fileName file) (info p) (globals p)) =
    fst (saveInfo (fileName file)
           (omap recordOf (flat_map outerMarkers (statements file))) w) /\
  disk (snd (saveInfo (fileName file) (info p) (globals p))) =
    disk (snd (saveInfo (fileName file)
                 (omap recordOf (flat_map outerMarkers (statements file))) w)).
Proof.
  intros Htraverse.
  destruct (accounted_file _ _ _ _ Htraverse) as (Hinfo & _).
  destruct (grown_file file w) as (Hdisk & _).
  rewrite Htraverse in Hdisk. simpl in Hdisk.
  rewrite Hinfo. apply saveInfo_disk_only. exact Hdisk.
Qed.

(** The transformation of a file that gets the prologue, when the traversal
    returns normally and the records can be saved. *)
Lemma transformer_with_prologue file w x p :
  visitEachChildOfFile (visit (fileName file)) file (mkPass w [] []) = (Ok x, p) ->
  fst (saveInfo (fileName file)
         (omap recordOf (flat_map outerMarkers (statements file))) w) = Ok tt ->
  existsSync w (fileName file) = true \/ basename (fileName file) = "<repl>.ts" ->
  transformer file w =
    (Ok (mkSourceFile (fileName file)
           (imports (globals p) ++ typeConstructorBindings ++ functions w ++ statements x)),
     mkWorld
       (disk (snd (saveInfo (fileName file)
                     (omap recordOf (flat_map outerMarkers (statements file))) w)))
       [] [] (console (globals p))).
Proof.
  intros Htraverse Hsave Hprologue.
  destruct (saveInfo_of_traversal _ _ _ _ Htraverse) as (Hfst & Hsnd).
  destruct (grown_file file w) as (Hdisk & Hfun & _).
  rewrite Htraverse in Hdisk, Hfun. simpl in Hdisk, Hfun.
  destruct (saveInfo_variables (fileName file) (info p) (globals p)) as (Hf & Hi & Hc).
  pose proof (saveInfo_existsSync (fileName file) (info p) (globals p) (fileName file)) as Hon.
  rewrite Hsave in Hfst. rewrite <- Hsnd.
  unfold transformer. rewrite Htraverse.
  destruct (saveInfo (fileName file) (info p) (globals p)) as [[[]|e] w1];
    simpl in Hfst, Hf, Hi, Hc, Hon |- *; [|discriminate Hfst].
  rewrite update_prologue.
  - rewrite (visitEachChildOfFile_fileName _ _ _ _ _ Htraverse), Hf, Hi, Hc, Hfun. reflexivity.
  - rewrite (visitEachChildOfFile_fileName _ _ _ _ _ Htraverse).
    destruct Hprologue as [Hexists|Hrepl]; [left | right; exact Hrepl].
    apply Hon. rewrite (existsSync_disk w (globals p)) by exact Hdisk. exact Hexists.
Qed.

(** X3.  With at least one record, [saveInfo] returns normally exactly when
    the [askit] directory of the file is a directory, or nothing is at its
    path and its parent is a directory, and the path of the sidecar is not
    a directory.  It has then written exactly the lines of the records to
    the sidecar, whatever was there before, created the directory where
    nothing was, and touched no other path.  Otherwise it throws, the
    sidecar is as it was, and no path but that of the directory has
    changed.  In particular it throws [ENOENT] when neither the directory
    nor its parent is there, and [ENOTDIR] when a regular file is at the
    path of the directory. *)
Theorem saveInfo_writes_the_sidecar path records w :
  records <> [] ->
  sidecarDirectory path <> sidecarPath path ->
  dirname (sidecarPath path) = sidecarDirectory path ->
  match saveInfo path records w with
  | (Ok _, w') =>
      (disk w !! sidecarDirectory path = Some Directory \/
       disk w !! sidecarDirectory path = None /\
       disk w !! dirname (sidecarDirectory path) = Some Directory) /\
      disk w !! sidecarPath path <> Some Directory /\
      disk w' !! sidecarPath path = Some (File (sidecarContent records)) /\
      disk w' !! sidecarDirectory path = Some Directory /\
      (forall other,
          other <> sidecarPath path -> other <> sidecarDirectory path ->
          disk w' !! other = disk w !! other)
  | (Throw _, w') =>
      ~ ((disk w !! sidecarDirectory path = Some Directory \/
          disk w !! sidecarDirectory path = None /\
          disk w !! dirname (sidecarDirectory path) = Some Directory) /\
         disk w !! sidecarPath path <> Some Directory) /\
      disk w' !! sidecarPath path = disk w !! sidecarPath path /\
      (forall other, other <> sidecarDirectory path -> disk w' !! other = disk w !! other)
  end /\
  (disk w !! sidecarDirectory path = None ->
   disk w !! dirname (sidecarDirectory path) = None ->
   saveInfo path records w = (Throw (SystemError "ENOENT" (sidecarDirectory path)), w)) /\
  (forall data,
      disk w !! sidecarDirectory path = Some (File data) ->
      saveInfo path records w = (Throw (SystemError "ENOTDIR" (sidecarPath path)), w)).
Proof.
  intros Hne Hdiff Hparent.
  destruct records as [|item records]; [contradiction Hne; reflexivity|].
  assert (Hdiff' : sidecarPath path <> sidecarDirectory path)
    by (intros E; apply Hdiff; symmetry; exact E).
  rewrite !saveInfo_steps, existsSync_lookup.
  unfold writeFileSync, mkdirSync. rewrite Hparent.
  destruct (disk w !! sidecarDirectory path) as [[|data]|] eqn:Hdir.
  - split; [|split; [discriminate|discriminate]].
    rewrite Hdir.
    destruct (disk w !! sidecarPath path) as [[|data]|] eqn:Hpath; cbn [disk].
    + split; [intros (_ & H); apply H; reflexivity|].
      split; [exact Hpath | reflexivity].
    + split; [left; reflexivity|]. split; [discriminate|].
      split; [apply lookup_insert_eq|].
      split; [rewrite lookup_insert_ne by exact Hdiff'; exact Hdir|].
      intros other Ho _. rewrite lookup_insert_ne by (intros E; apply Ho; symmetry; exact E).
      reflexivity.
    + split; [left; reflexivity|]. split; [discriminate|].
      split; [apply lookup_insert_eq|].
      split; [rewrite lookup_insert_ne by exact Hdiff'; exact Hdir|].
      intros other Ho _. rewrite lookup_insert_ne by (intros E; apply Ho; symmetry; exact E).
      reflexivity.
  - split; [|split; [discriminate|]].
    + rewrite Hdir. split; [|split; [reflexivity|reflexivity]].
      intros ([H|(H & _)] & _); discriminate H.
    + intros data' E. rewrite Hdir. reflexivity.
  - split; [|split; [|discriminate]].
    + destruct (disk w !! dirname (sidecarDirectory path)) as [[|data]|] eqn:Hup.
      * cbn [disk]. rewrite lookup_insert_eq, lookup_insert_ne by exact Hdiff.
        destruct (disk w !! sidecarPath path) as [[|data]|] eqn:Hpath; cbn [disk].
        -- split; [intros (_ & H); apply H; reflexivity|].
           split; [rewrite lookup_insert_ne by exact Hdiff; exact Hpath|].
           intros other Ho.
           rewrite lookup_insert_ne by (intros E; apply Ho; symmetry; exact E). reflexivity.
        -- split; [right; split; reflexivity|]. split; [discriminate|].
           split; [apply lookup_insert_eq|].
           split; [rewrite lookup_insert_ne by exact Hdiff'; apply lookup_insert_eq|].
           intros other Ho Ho'.
           rewrite lookup_insert_ne by (intros E; apply Ho; symmetry; exact E).
           rewrite lookup_insert_ne by (intros E; apply Ho'; symmetry; exact E).
           reflexivity.
        -- split; [right; split; reflexivity|]. split; [discriminate|].
           split; [apply lookup_insert_eq|].
           split; [rewrite lookup_insert_ne by exact Hdiff'; apply lookup_insert_eq|].
           intros other Ho Ho'.
           rewrite lookup_insert_ne by (intros E; apply Ho; symmetry; exact E).
           rewrite lookup_insert_ne by (intros E; apply Ho'; symmetry; exact E).
           reflexivity.
      * split; [|split; [reflexivity|reflexivity]].
        intros ([H|(_ & H)] & _); discriminate H.
      * split; [|split; [reflexivity|reflexivity]].
        intros ([H|(_ & H)] & _); discriminate H.
    + intros _ Hup. rewrite Hup. reflexivity.
Qed.

(** X4.  After a transformation that returns normally, on disk or not: when
    the file has call-forms with a record, its sidecar holds exactly the
    lines of those records, in source order; when it has none, the disk is
    as it was, so that a sidecar of an earlier pass stays in place. *)
Theorem sidecar_of_a_pass file w y w' :
  transformer file w = (Ok y, w') ->
  (omap recordOf (flat_map outerMarkers (statements file)) <> [] ->
   disk w' !! sidecarPath (fileName file) =
   Some (File (sidecarContent (omap recordOf (flat_map outerMarkers (statements file)))))) /\
  (omap recordOf (flat_map outerMarkers (statements file)) = [] -> disk w' = disk w).
Proof.
  intros Hreturns.
  destruct (transformer_returns _ _ _ _ Hreturns) as (x & p & w1 & Htraverse & Hsave & Hupdate).
  destruct (accounted_file _ _ _ _ Htraverse) as (Hinfo & _).
  destruct (grown_file file w) as (Hdisk & _).
  rewrite Htraverse in Hdisk. simpl in Hdisk.
  assert (Hafter : disk w' = disk w1).
  { rewrite <- (update_disk x w1), Hupdate. reflexivity. }
  rewrite Hafter, <- Hinfo. split.
  - intros Hne. destruct (info p) as [|item records]; [contradiction Hne; reflexivity|].
    pose proof (saveInfo_spec (fileName file) item records (globals p)) as Hspec.
    rewrite Hsave in Hspec. rewrite Hspec. apply lookup_insert_eq.
  - intros Hnil. rewrite Hnil, saveInfo_nil in Hsave.
    assert (Hw : globals p = w1) by (injection Hsave; auto).
    rewrite <- Hw. exact Hdisk.
Qed.

(** *** Passes that are skipped *)

(** X6.  A file that is skipped (not on disk when [update] looks for it,
    and not [<repl>.ts]) leaves behind what its traversal pushed: the
    imports of its redirected call-forms stay pending, after those that were
    pending before, for the next file that gets a prologue. *)
Theorem skipped_file_leaves_imports_pending file w x p :
  visitEachChildOfFile (visit (fileName file)) file (mkPass w [] []) = (Ok x, p) ->
  existsSync (snd (saveInfo (fileName file) (info p) (globals p))) (fileName file) = false ->
  basename (fileName file) <> "<repl>.ts" ->
  imports (snd (transformer file w)) =
    imports w ++
    omap (importOf (fileName file) w) (flat_map outerMarkers (statements file)).
Proof.
  intros Htraverse Hmissing Hrepl.
  destruct (accounted_file _ _ _ _ Htraverse) as (_ & Himports).
  destruct (saveInfo_variables (fileName file) (info p) (globals p)) as (_ & Hi & _).
  unfold transformer. rewrite Htraverse.
  destruct (saveInfo (fileName file) (info p) (globals p)) as [[[]|e] w1];
    simpl in Hmissing, Hi |- *.
  - unfold update.
    rewrite (visitEachChildOfFile_fileName _ _ _ _ _ Htraverse), Hmissing.
    apply String.eqb_neq in Hrepl. rewrite Hrepl. simpl.
    rewrite Hi. exact Himports.
  - rewrite Hi. exact Himports.
Qed.

(** X7.  A file whose base name is [<repl>.ts] gets the prologue whether it
    is on disk or not, provided its records can be saved: the pending
    imports, the eight bindings, [functions] and the traversed statements,
    in this order; [imports] and [functions] are empty afterwards. *)
Theorem repl_file_gets_prologue file w x p :
  visitEachChildOfFile (visit (fileName file)) file (mkPass w [] []) = (Ok x, p) ->
  fst (saveInfo (fileName file)
         (omap recordOf (flat_map outerMarkers (statements file))) w) = Ok tt ->
  basename (fileName file) = "<repl>.ts" ->
  transformer file w =
    (Ok (mkSourceFile (fileName file)
           (imports (globals p) ++ typeConstructorBindings ++ functions w ++ statements x)),
     mkWorld
       (disk (snd (saveInfo (fileName file)
                     (omap recordOf (flat_map outerMarkers (statements file))) w)))
       [] [] (console (globals p))).
Proof.
  intros Htraverse Hsave Hrepl.
  apply (transformer_with_prologue _ _ _ _ Htraverse Hsave). right. exact Hrepl.
Qed.

(** *** The prologue of a file on disk *)


(** *** The redirected call and its record *)

Lemma recordOf_Some node item :
  recordOf node = Some item ->
  exists callee returnType template rest typeExpression varSymbols,
    node = CallExpression (Identifier callee) (Some [returnType]) (template :: rest) /\
    includes ["llm"; "ask"] (escapedText callee) = true /\
    isStringLiteralLike template = true /\
    convertToDynamicType returnType checker = Some typeExpression /\
    lookupAll (getSymbolsInScope node) (extractVariables (templateText template)) =
      inl varSymbols /\
    item = infoOf (templateText template) returnType varSymbols (template :: rest).
Proof.
  destruct node as [t|t|t|l|a b|l|a b|e ta args|k l]; try discriminate.
  destruct e as [callee| | | | | | | |]; try discriminate.
  destruct ta as [[|returnType [|t' l]]|]; try discriminate.
  destruct args as [|template rest]; try discriminate.
  cbn [recordOf].
  destruct (includes ["llm"; "ask"] (escapedText callee)) eqn:Hc; [|discriminate].
  destruct (isStringLiteralLike template) eqn:Hlit; [|discriminate].
  simpl.
  destruct (convertToDynamicType returnType checker) as [te|] eqn:Htype; [|discriminate].
  destruct (lookupAll _ _) as [varSymbols|missing] eqn:Hvars; [|discriminate].
  intros E. inversion E; subst.
  exists callee, returnType, template, rest, te, varSymbols. repeat split; assumption.
Qed.

(** X8.  The record is the key to the generated module.  For a call-form
    with a record, the module looked for is [askit/<name>.ts] beside the
    source file, [<name>] being the name in the record; when it is on disk
    the call-form becomes [<name>_1.<name>] applied to exactly the
    parameter names listed in the record, in their order. *)
Theorem redirected_call_matches_its_record sourceFileName node item p :
  recordOf node = Some item ->
  existsSync (globals p)
    (join [dirname sourceFileName; "askit"; info_name item +:+ ".ts"]) = true ->
  fst (visit sourceFileName node p) =
    Ok (CallExpression
          (PropertyAccessExpression (Identifier (info_name item +:+ "_1"))
                                    (Identifier (info_name item)))
          None
          (map (fun parameter => Identifier (snd parameter)) (params item))).
Proof.
  intros Hrec Hdisk.
  destruct (recordOf_Some _ _ Hrec)
    as (callee & t & template & rest & te & vs & -> & Hc & Hlit & Htype & Hvars & ->).
  rewrite visit_ask by (cbn [markerOf]; rewrite Hc; reflexivity).
  change (bind (enter (CallExpression (Identifier callee) (Some [t]) (template :: rest)))
            (fun _ => rewriteAskCall sourceFileName (Identifier callee) (Some [t])
                        (template :: rest)) p)
    with (rewriteAskCall sourceFileName (Identifier callee) (Some [t]) (template :: rest)
            (entered (CallExpression (Identifier callee) (Some [t]) (template :: rest)) p)).
  rewrite rewriteAskCall_eq, nonLiteralFirstArgument_cons, Hlit. simpl.
  rewrite Htype, Hvars. simpl in Hdisk |- *. rewrite Hdisk. simpl.
  unfold makeCall, createCallExpression, createPropertyAccessExpression, createIdentifier.
  unfold paramsOf. rewrite map_map. reflexivity.
Qed.

(** *** Nodes that the transformer adds *)

Lemma outerMarkers_identifiers names :
  flat_map outerMarkers (map Identifier names) = [].
Proof. induction names as [|name names IH]; simpl; [reflexivity | exact IH]. Qed.

Lemma outerMarkers_stringLiterals texts :
  flat_map outerMarkers (map (fun text => createStringLiteral text) texts) = [].
Proof. induction texts as [|text texts IH]; simpl; [reflexivity | exact IH]. Qed.

(** X9.  What the transformer itself adds to a file is never rewritten by a
    traversal: the redirected call (its callee is a property access, not a
    bare identifier, whatever the synthesized name), the import declaration
    and the [require] bindings are returned as they are, in an unchanged
    pass. *)
Theorem added_nodes_are_left_alone sourceFileName moduleName name variables jsName modNames p :
  visit sourceFileName (makeCall moduleName name (map Identifier variables)) p =
    (Ok (makeCall moduleName name (map Identifier variables)), p) /\
  visit sourceFileName (importStatementOf moduleName name) p =
    (Ok (importStatementOf moduleName name), p) /\
  visit sourceFileName (createRequire jsName name modNames) p =
    (Ok (createRequire jsName name modNames), p).
Proof.
  split; [|split]; apply visit_id.
  - unfold makeCall, createCallExpression. cbn [outerMarkers markerOf].
    rewrite outerMarkers_identifiers. reflexivity.
  - reflexivity.
  - unfold createRequire, createVariableStatement, createVariableDeclarationList,
      createVariableDeclaration, createPropertyAccessExpression, createCallExpression.
    simpl. rewrite outerMarkers_stringLiterals. reflexivity.
Qed.

(** *** A second traversal *)

(** Splitting a successful sequence of binds. *)
Ltac split_binds H :=
  unfold bind, ret in H;
  repeat match type of H with
         | context [match ?m ?p with (_, _) => _ end] =>
             let E := fresh "Estep" in
             destruct (m p) as [[?|?] ?] eqn:E; try discriminate H
         end.

Lemma visitNodes_results (visitor : Node -> M Node) nodes :
  forall p nodes' p',
    visitNodes visitor nodes p = (Ok nodes', p') ->
    Forall2 (fun node node' => exists q q', visitor node q = (Ok node', q')) nodes nodes'.
Proof.
  induction nodes as [|node rest IH]; intros p nodes' p' H; simpl in H.
  - inversion H; subst. constructor.
  - split_binds H. inversion H; subst. constructor; [eauto | eapply IH; eauto].
Qed.

Lemma visitEachChild_results (visitor : Node -> M Node) node p node' p' :
  visitEachChild visitor node p = (Ok node', p') ->
  Forall2 (fun child child' => exists q q', visitor child q = (Ok child', q'))
          (children node) (children node').
Proof.
  intros H.
  destruct node as [t|t|t|l|a b|l|a b|e ta args|k l]; simpl in H.
  - inversion H; subst. constructor.
  - inversion H; subst. constructor.
  - inversion H; subst. constructor.
  - split_binds H. inversion H; subst. simpl. eapply visitNodes_results; eauto.
  - split_binds H. inversion H; subst. simpl. repeat constructor; eauto.
  - split_binds H. inversion H; subst. simpl. eapply visitNodes_results; eauto.
  - split_binds H. inversion H; subst. simpl. repeat constructor; eauto.
  - destruct ta as [types|]; split_binds H; inversion H; subst; simpl.
    + constructor; [eauto|].
      apply Forall2_app; eapply visitNodes_results; eauto.
    + constructor; [eauto|]. eapply visitNodes_results; eauto.
  - split_binds H. inversion H; subst. simpl. eapply visitNodes_results; eauto.
Qed.

(** A visit that returns an identifier was given that identifier. *)
Lemma visit_returns_identifier sourceFileName node p text p' :
  visit sourceFileName node p = (Ok (Identifier text), p') -> node = Identifier text.
Proof.
  intros H.
  destruct (markerOf node) as [m|] eqn:Hm.
  - destruct (markerOf_call _ _ Hm) as (callee & ta & args & ->). exfalso.
    destruct m.
    + rewrite (visit_ask _ _ _ _ Hm) in H.
      change (rewriteAskCall sourceFileName (Identifier callee) ta args
                (entered (CallExpression (Identifier callee) ta args) p) =
              (Ok (Identifier text), p')) in H.
      rewrite rewriteAskCall_eq in H.
      destruct (nonLiteralFirstArgument args); [discriminate H|].
      destruct ta as [[|t [|t' l]]|]; try discriminate H.
      destruct (args !! 0%nat); [|discriminate H].
      destruct (convertToDynamicType t checker); [|discriminate H].
      destruct (lookupAll _ _); [|discriminate H].
      destruct (existsSync _ _); discriminate H.
    + rewrite (visit_define _ _ _ _ Hm) in H.
      change (rewriteDefineCall (Identifier callee) ta args
                (entered (CallExpression (Identifier callee) ta args) p) =
              (Ok (Identifier text), p')) in H.
      rewrite rewriteDefineCall_eq in H.
      destruct (nonLiteralFirstArgument args); [discriminate H|].
      destruct ta as [[|t [|t' l]]|]; try discriminate H.
      destruct (makeTypeDirection t checker); discriminate H.
  - rewrite (visit_other _ _ Hm) in H.
    destruct node as [t|t|t|l|a b|l|a b|e ta args|k l]; simpl in H;
      try (inversion H; subst; reflexivity);
      try (split_binds H; discriminate H).
Qed.

(** The traversal of the children of a node that is not a marker call-form
    does not return a marker call-form. *)
Lemma visitEachChild_no_marker sourceFileName node p node' p' :
  markerOf node = None ->
  visitEachChild (visit sourceFileName) node p = (Ok node', p') ->
  markerOf node' = None.
Proof.
  intros Hm H.
  destruct node as [t|t|t|l|a b|l|a b|e ta args|k l]; simpl in H;
    try (inversion H; subst; reflexivity);
    try (split_binds H; inversion H; subst; reflexivity).
  assert (Hcallee : exists e' ta' args' q q',
             node' = CallExpression e' ta' args' /\
             visit sourceFileName e q = (Ok e', q')).
  { destruct ta; split_binds H; inversion H; subst; eauto 10. }
  destruct Hcallee as (e' & ta' & args' & q & q' & -> & He).
  destruct e' as [text| | | | | | | |]; try reflexivity.
  apply visit_returns_identifier in He. subst e. exact Hm.
Qed.

Lemma visitNodes_settled sourceFileName nodes :
  Forall (settled sourceFileName) nodes ->
  forall q, exists q',
    visitNodes (visit sourceFileName) nodes q = (Ok nodes, q') /\
    globals q' = globals q /\ info q' = info q.
Proof.
  induction 1 as [|node rest Hn _ IH]; intros q; simpl.
  - exists q. repeat split.
  - destruct (Hn q) as (q1 & Hv & Hg1 & Hi1).
    destruct (IH q1) as (q2 & Hr & Hg2 & Hi2).
    exists q2. unfold bind. rewrite Hv, Hr.
    split; [reflexivity|]. split; congruence.
Qed.

Lemma visitEachChild_settled sourceFileName node :
  Forall (settled sourceFileName) (children node) ->
  forall q, exists q',
    visitEachChild (visit sourceFileName) node q = (Ok node, q') /\
    globals q' = globals q /\ info q' = info q.
Proof.
  intros H q.
  destruct node as [t|t|t|l|a b|l|a b|e ta args|k l]; simpl in *;
    try (exists q; repeat split; fail).
  - destruct (visitNodes_settled _ _ H q) as (q' & Hv & Hg & Hi).
    exists q'. unfold bind. rewrite Hv. repeat split; assumption.
  - inversion H as [|? ? Ha Hb']; subst. inversion Hb' as [|? ? Hb _]; subst.
    destruct (Ha q) as (q1 & Hv1 & Hg1 & Hi1).
    destruct (Hb q1) as (q2 & Hv2 & Hg2 & Hi2).
    exists q2. unfold bind. rewrite Hv1, Hv2. split; [reflexivity|]. split; congruence.
  - destruct (visitNodes_settled _ _ H q) as (q' & Hv & Hg & Hi).
    exists q'. unfold bind. rewrite Hv. repeat split; assumption.
  - inversion H as [|? ? Ha Hb']; subst. inversion Hb' as [|? ? Hb _]; subst.
    destruct (Ha q) as (q1 & Hv1 & Hg1 & Hi1).
    destruct (Hb q1) as (q2 & Hv2 & Hg2 & Hi2).
    exists q2. unfold bind. rewrite Hv1, Hv2. split; [reflexivity|]. split; congruence.
  - inversion H as [|? ? He Hrest]; subst.
    apply Forall_app in Hrest as [Hta Hargs].
    destruct (He q) as (q1 & Hv1 & Hg1 & Hi1).
    destruct ta as [types|]; simpl in Hta.
    + destruct (visitNodes_settled _ _ Hta q1) as (q2 & Hv2 & Hg2 & Hi2).
      destruct (visitNodes_settled _ _ Hargs q2) as (q3 & Hv3 & Hg3 & Hi3).
      exists q3. unfold bind. rewrite Hv1, Hv2. simpl. rewrite Hv3.
      split; [reflexivity|]. split; congruence.
    + destruct (visitNodes_settled _ _ Hargs q1) as (q3 & Hv3 & Hg3 & Hi3).
      exists q3. unfold bind. rewrite Hv1. simpl. rewrite Hv3.
      split; [reflexivity|]. split; congruence.
  - destruct (visitNodes_settled _ _ H q) as (q' & Hv & Hg & Hi).
    exists q'. unfold bind. rewrite Hv. repeat split; assumption.
Qed.

(** A marker call-form whose first argument is not a string literal is
    settled. *)
Lemma settled_non_literal sourceFileName expression typeArguments first rest m :
  markerOf (CallExpression expression typeArguments (first :: rest)) = Some m ->
  isStringLiteralLike first = false ->
  settled sourceFileName (CallExpression expression typeArguments (first :: rest)).
Proof.
  intros Hm Hfirst q.
  exists (entered (CallExpression expression typeArguments (first :: rest)) q).
  split; [|split; reflexivity].
  destruct m.
  - rewrite (visit_ask _ _ _ _ Hm).
    change (rewriteAskCall sourceFileName expression typeArguments (first :: rest)
              (entered (CallExpression expression typeArguments (first :: rest)) q) =
            (Ok (CallExpression expression typeArguments (first :: rest)),
             entered (CallExpression expression typeArguments (first :: rest)) q)).
    rewrite rewriteAskCall_eq, nonLiteralFirstArgument_cons, Hfirst. reflexivity.
  - rewrite (visit_define _ _ _ _ Hm).
    change (rewriteDefineCall expression typeArguments (first :: rest)
              (entered (CallExpression expression typeArguments (first :: rest)) q) =
            (Ok (CallExpression expression typeArguments (first :: rest)),
             entered (CallExpression expression typeArguments (first :: rest)) q)).
    rewrite rewriteDefineCall_eq, nonLiteralFirstArgument_cons, Hfirst. reflexivity.
Qed.

Lemma settled_unmarked sourceFileName node :
  outerMarkers node = [] -> settled sourceFileName node.
Proof.
  intros Hnone q. exists q. split; [apply visit_id; exact Hnone|]. split; reflexivity.
Qed.

Lemma Forall2_transfer {A B} (P : A -> Prop) (R : A -> B -> Prop) (Q : B -> Prop) l l' :
  (forall x y, P x -> R x y -> Q y) ->
  Forall P l -> Forall2 R l l' -> Forall Q l'.
Proof.
  intros HPRQ HP HR. revert HP.
  induction HR as [|x y l l' Hxy _ IH]; intros HP; constructor;
    inversion HP; subst; eauto.
Qed.

(** What a traversal returns is settled, when no type descriptor is a
    string literal. *)
Lemma visit_result_settled sourceFileName :
  (forall returnType typeExpression,
      convertToDynamicType returnType checker = Some typeExpression ->
      isStringLiteralLike typeExpression = false) ->
  (forall returnType typeString,
      makeTypeDirection returnType checker = Some typeString ->
      isStringLiteralLike (makeExpressionFromString typeString) = false) ->
  forall node p node' p',
    visit sourceFileName node p = (Ok node', p') -> settled sourceFileName node'.
Proof.
  intros Hdynamic Hdirective node.
  induction node as [node IH] using Node_children_ind. intros p node' p' Hvisit.
  destruct (markerOf node) as [m|] eqn:Hm.
  - destruct (markerOf_call _ _ Hm) as (callee & ta & args & ->).
    destruct m.
    + rewrite (visit_ask _ _ _ _ Hm) in Hvisit.
      change (rewriteAskCall sourceFileName (Identifier callee) ta args
                (entered (CallExpression (Identifier callee) ta args) p) =
              (Ok node', p')) in Hvisit.
      rewrite rewriteAskCall_eq in Hvisit.
      destruct args as [|first rest].
      * simpl in Hvisit. destruct ta as [[|t [|t' l]]|]; discriminate Hvisit.
      * rewrite nonLiteralFirstArgument_cons in Hvisit.
        destruct (isStringLiteralLike first) eqn:Hlit; simpl in Hvisit.
        -- destruct ta as [[|t [|t' l]]|]; try discriminate Hvisit.
           destruct (convertToDynamicType t checker) as [te|] eqn:Htype;
             [|discriminate Hvisit].
           destruct (lookupAll _ _) as [varSymbols|missing]; [|discriminate Hvisit].
           destruct (existsSync _ _); inversion Hvisit; subst.
           ++ apply settled_unmarked.
              unfold makeCall, createCallExpression. cbn [outerMarkers markerOf].
              rewrite <- (map_map symbol_name Identifier).
              rewrite outerMarkers_identifiers. reflexivity.
           ++ apply (settled_non_literal _ _ _ _ _ AskMarker); [exact Hm|].
              apply (Hdynamic _ _ Htype).
        -- inversion Hvisit; subst.
           apply (settled_non_literal _ _ _ _ _ AskMarker); assumption.
    + rewrite (visit_define _ _ _ _ Hm) in Hvisit.
      change (rewriteDefineCall (Identifier callee) ta args
                (entered (CallExpression (Identifier callee) ta args) p) =
              (Ok node', p')) in Hvisit.
      rewrite rewriteDefineCall_eq in Hvisit.
      destruct (nonLiteralFirstArgument args) eqn:Hguard.
      * inversion Hvisit; subst.
        destruct args as [|first rest]; [discriminate Hguard|].
        rewrite nonLiteralFirstArgument_cons in Hguard.
        apply (settled_non_literal _ _ _ _ _ DefineMarker); [exact Hm|].
        destruct (isStringLiteralLike first); [discriminate Hguard | reflexivity].
      * destruct ta as [[|t [|t' l]]|]; try discriminate Hvisit.
        destruct (makeTypeDirection t checker) as [typeString|] eqn:Htype;
          inversion Hvisit; subst.
        apply (settled_non_literal _ _ _ _ _ DefineMarker); [exact Hm|].
        apply (Hdirective _ _ Htype).
  - rewrite (visit_other _ _ Hm) in Hvisit.
    pose proof (visitEachChild_no_marker _ _ _ _ _ Hm Hvisit) as Hm'.
    pose proof (visitEachChild_results _ _ _ _ _ Hvisit) as Hchildren.
    assert (Hsettled : Forall (settled sourceFileName) (children node')).
    { apply (Forall2_transfer _ _ _ _ _ (fun child child' Hchild Hresult =>
               match Hresult with
               | ex_intro _ q (ex_intro _ q' Hq) => Hchild q child' q' Hq
               end) IH Hchildren). }
    intros q. rewrite (visit_other _ _ Hm'). apply visitEachChild_settled. exact Hsettled.
Qed.

(** X10.  A second traversal changes nothing.  When no type descriptor is
    a string literal, a tree that a traversal has returned is returned as it
    is by any later traversal, which appends no record and leaves the
    process-wide state, pending imports included, as it finds it. *)
Theorem second_traversal_changes_nothing sourceFileName node p node' p' q :
  (forall returnType typeExpression,
      convertToDynamicType returnType checker = Some typeExpression ->
      isStringLiteralLike typeExpression = false) ->
  (forall returnType typeString,
      makeTypeDirection returnType checker = Some typeString ->
      isStringLiteralLike (makeExpressionFromString typeString) = false) ->
  visit sourceFileName node p = (Ok node', p') ->
  fst (visit sourceFileName node' q) = Ok node' /\
  globals (snd (visit sourceFileName node' q)) = globals q /\
  info (snd (visit sourceFileName node' q)) = info q.
Proof.
  intros Hdynamic Hdirective Hvisit.
  destruct (visit_result_settled sourceFileName Hdynamic Hdirective _ _ _ _ Hvisit q)
    as (q' & -> & Hg & Hi).
  repeat split; assumption.
Qed.

(** *** The result of a traversal, without the pass *)

Lemma visit_marker_outcome sourceFileName node m p :
  markerOf node = Some m ->
  fst (visit sourceFileName node p) = rewriteOutcome sourceFileName (disk (globals p)) node.
Proof.
  intros Hm. destruct (markerOf_call _ _ Hm) as (callee & ta & args & ->).
  unfold rewriteOutcome. rewrite Hm. destruct m.
  - rewrite (visit_ask _ _ _ _ Hm).
    change (fst (rewriteAskCall sourceFileName (Identifier callee) ta args
                   (entered (CallExpression (Identifier callee) ta args) p)) =
            askOutcome sourceFileName (disk (globals p)) (Identifier callee) ta args).
    rewrite rewriteAskCall_eq. unfold askOutcome.
    destruct (nonLiteralFirstArgument args); [reflexivity|].
    destruct ta as [[|t [|t' l]]|]; try reflexivity.
    destruct (args !! 0%nat); [|reflexivity].
    destruct (convertToDynamicType t checker); [|reflexivity].
    destruct (lookupAll _ _); [|reflexivity].
    change (existsSync (globals (entered (CallExpression (Identifier callee) (Some [t]) args) p)))
      with (onDisk (disk (globals p))).
    destruct (onDisk (disk (globals p)) _); reflexivity.
  - rewrite (visit_define _ _ _ _ Hm).
    change (fst (rewriteDefineCall (Identifier callee) ta args
                   (entered (CallExpression (Identifier callee) ta args) p)) =
            defineOutcome (Identifier callee) ta args).
    rewrite rewriteDefineCall_eq. unfold defineOutcome.
    destruct (nonLiteralFirstArgument args); [reflexivity|].
    destruct ta as [[|t [|t' l]]|]; try reflexivity.
    destruct (makeTypeDirection t checker); reflexivity.
Qed.

Lemma traversalOutcome_marker sourceFileName d node m :
  markerOf node = Some m ->
  traversalOutcome sourceFileName d node = rewriteOutcome sourceFileName d node.
Proof.
  intros Hm. unfold traversalOutcome, firstError.
  rewrite (outerMarkers_marker _ _ Hm), omap_one.
  unfold errorOf, rewrittenOf.
  assert (Htree : forall rewrite, rewriteTree rewrite node = rewrite node).
  { intros rewrite. destruct node; simpl in Hm |- *; try discriminate Hm.
    rewrite Hm. reflexivity. }
  rewrite Htree.
  destruct (rewriteOutcome sourceFileName d node); reflexivity.
Qed.

Lemma firstError_app sourceFileName d markers markers' :
  firstError sourceFileName d (markers ++ markers') =
  match firstError sourceFileName d markers with
  | Some error => Some error
  | None => firstError sourceFileName d markers'
  end.
Proof.
  unfold firstError. rewrite omap_app.
  destruct (omap (errorOf sourceFileName d) markers); reflexivity.
Qed.

Lemma traversalOutcome_cases sourceFileName d node :
  (exists error,
      firstError sourceFileName d (outerMarkers node) = Some error /\
      traversalOutcome sourceFileName d node = Throw error) \/
  (firstError sourceFileName d (outerMarkers node) = None /\
   traversalOutcome sourceFileName d node =
     Ok (rewriteTree (rewrittenOf sourceFileName d) node)).
Proof.
  unfold traversalOutcome.
  destruct (firstError sourceFileName d (outerMarkers node)) as [error|]; eauto.
Qed.

Lemma traversalOutcomes_cases sourceFileName d nodes :
  (exists error,
      firstError sourceFileName d (flat_map outerMarkers nodes) = Some error /\
      traversalOutcomes sourceFileName d nodes = Throw error) \/
  (firstError sourceFileName d (flat_map outerMarkers nodes) = None /\
   traversalOutcomes sourceFileName d nodes =
     Ok (map (rewriteTree (rewrittenOf sourceFileName d)) nodes)).
Proof.
  unfold traversalOutcomes.
  destruct (firstError sourceFileName d (flat_map outerMarkers nodes)) as [error|]; eauto.
Qed.

(** The disk after a visit is the disk before. *)
Lemma visit_disk sourceFileName node p :
  disk (globals (snd (visit sourceFileName node p))) = disk (globals p).
Proof. destruct (sound_visit sourceFileName node p) as ((Hd & _) & _). exact Hd. Qed.

Lemma visitNodes_disk sourceFileName nodes p :
  disk (globals (snd (visitNodes (visit sourceFileName) nodes p))) = disk (globals p).
Proof.
  assert (H : sound (visitNodes (visit sourceFileName) nodes) (flat_map outerMarkers nodes)).
  { apply sound_visitNodes. rewrite Forall_forall. intros node _. apply sound_visit. }
  destruct (H p) as ((Hd & _) & _). exact Hd.
Qed.

Lemma visitNodes_outcome sourceFileName nodes :
  Forall (fun node =>
            forall p, fst (visit sourceFileName node p) =
                      traversalOutcome sourceFileName (disk (globals p)) node) nodes ->
  forall p, fst (visitNodes (visit sourceFileName) nodes p) =
            traversalOutcomes sourceFileName (disk (globals p)) nodes.
Proof.
  induction 1 as [|node rest Hn _ IH]; intros p.
  - reflexivity.
  - specialize (Hn p). pose proof (visit_disk sourceFileName node p) as Hd.
    simpl. unfold bind.
    destruct (visit sourceFileName node p) as [[node'|e] p1]; simpl in Hn, Hd.
    + specialize (IH p1). rewrite Hd in IH.
      unfold traversalOutcomes. simpl. rewrite firstError_app.
      destruct (traversalOutcome_cases sourceFileName (disk (globals p)) node)
        as [(error & Hf & Ht)|(Hf & Ht)]; rewrite Ht in Hn; inversion Hn; subst.
      rewrite Hf.
      destruct (visitNodes (visit sourceFileName) rest p1) as [[rest'|e] p2]; simpl in IH |- *;
        destruct (traversalOutcomes_cases sourceFileName (disk (globals p)) rest)
          as [(error & Hf' & Ht')|(Hf' & Ht')]; rewrite Ht' in IH; inversion IH; subst;
          rewrite Hf'; reflexivity.
    + unfold traversalOutcomes. simpl. rewrite firstError_app.
      destruct (traversalOutcome_cases sourceFileName (disk (globals p)) node)
        as [(error & Hf & Ht)|(Hf & Ht)]; rewrite Ht in Hn; inversion Hn; subst.
      rewrite Hf. reflexivity.
Qed.

Lemma rewriteTree_call rewrite e ta args :
  markerOf (CallExpression e ta args) = None ->
  rewriteTree rewrite (CallExpression e ta args) =
  CallExpression (rewriteTree rewrite e)
    (match ta with
     | Some l => Some (map (rewriteTree rewrite) l)
     | None => None
     end)
    (map (rewriteTree rewrite) args).
Proof.
  intros Hm.
  change (rewriteTree rewrite (CallExpression e ta args))
    with (match markerOf (CallExpression e ta args) with
          | Some _ => rewrite (CallExpression e ta args)
          | None =>
              CallExpression (rewriteTree rewrite e)
                (match ta with
                 | Some l => Some (map (rewriteTree rewrite) l)
                 | None => None
                 end)
                (map (rewriteTree rewrite) args)
          end).
  rewrite Hm. reflexivity.
Qed.

Lemma visitEachChild_outcome sourceFileName node :
  markerOf node = None ->
  Forall (fun child =>
            forall p, fst (visit sourceFileName child p) =
                      traversalOutcome sourceFileName (disk (globals p)) child)
         (children node) ->
  forall p, fst (visitEachChild (visit sourceFileName) node p) =
            traversalOutcome sourceFileName (disk (globals p)) node.
Proof.
  intros Hm H p.
  assert (Hlist : forall (build : list Node -> Node) l,
             Forall (fun child =>
                       forall p, fst (visit sourceFileName child p) =
                                 traversalOutcome sourceFileName (disk (globals p)) child) l ->
             fst (bind (visitNodes (visit sourceFileName) l) (fun l' => ret (build l')) p) =
             match traversalOutcomes sourceFileName (disk (globals p)) l with
             | Ok l' => Ok (build l')
             | Throw error => Throw error
             end).
  { intros build l Hl. pose proof (visitNodes_outcome sourceFileName l Hl p) as E.
    unfold bind. destruct (visitNodes (visit sourceFileName) l p) as [[l'|e] p1];
      simpl in E |- *; rewrite <- E; reflexivity. }
  assert (Hpair : forall (build : Node -> Node -> Node) a b,
             Forall (fun child =>
                       forall p, fst (visit sourceFileName child p) =
                                 traversalOutcome sourceFileName (disk (globals p)) child)
                    [a; b] ->
             fst (bind (visit sourceFileName a)
                       (fun a' => bind (visit sourceFileName b)
                                       (fun b' => ret (build a' b'))) p) =
             match firstError sourceFileName (disk (globals p))
                              (outerMarkers a ++ outerMarkers b) with
             | Some error => Throw error
             | None =>
                 Ok (build (rewriteTree (rewrittenOf sourceFileName (disk (globals p))) a)
                           (rewriteTree (rewrittenOf sourceFileName (disk (globals p))) b))
             end).
  { intros build a b Hab.
    inversion Hab as [|? ? Ha Hb']; subst. inversion Hb' as [|? ? Hb _]; subst.
    specialize (Ha p). pose proof (visit_disk sourceFileName a p) as Hd.
    rewrite firstError_app. unfold bind.
    destruct (visit sourceFileName a p) as [[a'|e] p1]; simpl in Ha, Hd;
      destruct (traversalOutcome_cases sourceFileName (disk (globals p)) a)
        as [(error & Hf & Ht)|(Hf & Ht)]; rewrite Ht in Ha; inversion Ha; subst;
        rewrite Hf; [|reflexivity].
    specialize (Hb p1). rewrite Hd in Hb.
    destruct (visit sourceFileName b p1) as [[b'|e] p2]; simpl in Hb |- *;
      destruct (traversalOutcome_cases sourceFileName (disk (globals p)) b)
        as [(error & Hf' & Ht')|(Hf' & Ht')]; rewrite Ht' in Hb; inversion Hb; subst;
        rewrite Hf'; reflexivity. }
  destruct node as [t|t|t|l|a b|l|a b|e ta args|k l].
  - reflexivity.
  - reflexivity.
  - reflexivity.
  - change (visitEachChild (visit sourceFileName) (ArrayLiteralExpression l))
      with (bind (visitNodes (visit sourceFileName) l)
                 (fun l' => ret (ArrayLiteralExpression l'))).
    rewrite (Hlist ArrayLiteralExpression l H).
    unfold traversalOutcomes, traversalOutcome. simpl.
    destruct (firstError _ _ _); reflexivity.
  - change (visitEachChild (visit sourceFileName) (PropertyAssignment a b))
      with (bind (visit sourceFileName a)
                 (fun a' => bind (visit sourceFileName b)
                                 (fun b' => ret (PropertyAssignment a' b')))).
    rewrite (Hpair PropertyAssignment a b H). reflexivity.
  - change (visitEachChild (visit sourceFileName) (ObjectLiteralExpression l))
      with (bind (visitNodes (visit sourceFileName) l)
                 (fun l' => ret (ObjectLiteralExpression l'))).
    rewrite (Hlist ObjectLiteralExpression l H).
    unfold traversalOutcomes, traversalOutcome. simpl.
    destruct (firstError _ _ _); reflexivity.
  - change (visitEachChild (visit sourceFileName) (PropertyAccessExpression a b))
      with (bind (visit sourceFileName a)
                 (fun a' => bind (visit sourceFileName b)
                                 (fun b' => ret (PropertyAccessExpression a' b')))).
    rewrite (Hpair PropertyAccessExpression a b H). reflexivity.
  - simpl in H. inversion H as [|? ? He Hrest]; subst.
    apply Forall_app in Hrest as [Hta Hargs].
    unfold traversalOutcome.
    rewrite (outerMarkers_children _ Hm), (rewriteTree_call _ _ _ _ Hm).
    cbn [children flat_map]. rewrite flat_map_app, !firstError_app.
    specialize (He p). pose proof (visit_disk sourceFileName e p) as Hd.
    cbn [visitEachChild]. unfold bind at 1.
    destruct (visit sourceFileName e p) as [[e'|err] p1]; simpl in He, Hd;
      destruct (traversalOutcome_cases sourceFileName (disk (globals p)) e)
        as [(error & Hf & Ht)|(Hf & Ht)]; rewrite Ht in He; inversion He; subst;
        rewrite Hf; [|reflexivity].
    destruct ta as [types|].
    + pose proof (visitNodes_outcome sourceFileName types Hta p1) as Etypes.
      pose proof (visitNodes_disk sourceFileName types p1) as Hd1.
      rewrite Hd in Etypes. unfold bind.
      destruct (visitNodes (visit sourceFileName) types p1) as [[types'|err] p2];
        simpl in Etypes, Hd1 |- *;
        destruct (traversalOutcomes_cases sourceFileName (disk (globals p)) types)
          as [(error & Hf1 & Ht1)|(Hf1 & Ht1)]; rewrite Ht1 in Etypes;
          inversion Etypes; subst; rewrite Hf1; [|reflexivity].
      pose proof (visitNodes_outcome sourceFileName args Hargs p2) as Eargs.
      rewrite Hd1, Hd in Eargs.
      destruct (visitNodes (visit sourceFileName) args p2) as [[args'|err] p3];
        simpl in Eargs |- *;
        destruct (traversalOutcomes_cases sourceFileName (disk (globals p)) args)
          as [(error & Hf2 & Ht2)|(Hf2 & Ht2)]; rewrite Ht2 in Eargs;
          inversion Eargs; subst; rewrite Hf2; reflexivity.
    + pose proof (visitNodes_outcome sourceFileName args Hargs p1) as Eargs.
      rewrite Hd in Eargs. unfold bind. simpl.
      destruct (visitNodes (visit sourceFileName) args p1) as [[args'|err] p3];
        simpl in Eargs |- *;
        destruct (traversalOutcomes_cases sourceFileName (disk (globals p)) args)
          as [(error & Hf2 & Ht2)|(Hf2 & Ht2)]; rewrite Ht2 in Eargs;
          inversion Eargs; subst; rewrite Hf2; reflexivity.
  - change (visitEachChild (visit sourceFileName) (SyntaxNode k l))
      with (bind (visitNodes (visit sourceFileName) l)
                 (fun l' => ret (SyntaxNode k l'))).
    rewrite (Hlist (SyntaxNode k) l H).
    unfold traversalOutcomes, traversalOutcome. simpl.
    destruct (firstError _ _ _); reflexivity.
Qed.

Lemma visit_outcome sourceFileName node :
  forall p, fst (visit sourceFileName node p) =
            traversalOutcome sourceFileName (disk (globals p)) node.
Proof.
  induction node as [node IH] using Node_children_ind. intros p.
  destruct (markerOf node) as [m|] eqn:Hm.
  - rewrite (traversalOutcome_marker _ _ _ _ Hm). apply (visit_marker_outcome _ _ _ _ Hm).
  - rewrite (visit_other _ _ Hm). apply (visitEachChild_outcome _ _ Hm IH).
Qed.

Lemma visitEachChildOfFile_outcome file w :
  fst (visitEachChildOfFile (visit (fileName file)) file (mkPass w [] [])) =
  match traversalOutcomes (fileName file) (disk w) (statements file) with
  | Ok stmts => Ok (mkSourceFile (fileName file) stmts)
  | Throw error => Throw error
  end.
Proof.
  assert (H : Forall (fun node =>
                        forall p, fst (visit (fileName file) node p) =
                                  traversalOutcome (fileName file) (disk (globals p)) node)
                     (statements file)).
  { rewrite Forall_forall. intros node _. apply visit_outcome. }
  pose proof (visitNodes_outcome (fileName file) (statements file) H (mkPass w [] [])) as E.
  unfold visitEachChildOfFile, bind.
  destruct (visitNodes (visit (fileName file)) (statements file) (mkPass w [] []))
    as [[stmts|e] p]; simpl in E |- *; rewrite <- E; reflexivity.
Qed.

(** X11.  What the visit of a tree returns depends on the pass through the
    disk only, and is this: the error of the first marker call-form, in
    source order and not counting those inside another marker call-form,
    whose rewrite throws; and when none throws, the tree in which exactly
    these call-forms are replaced by their rewrites, everything else being
    as it was. *)
Theorem visit_returns_the_rewritten_tree sourceFileName node p :
  fst (visit sourceFileName node p) =
  match firstError sourceFileName (disk (globals p)) (outerMarkers node) with
  | Some error => Throw error
  | None => Ok (rewriteTree (rewrittenOf sourceFileName (disk (globals p))) node)
  end.
Proof. apply visit_outcome. Qed.

(** *** The pass after a traversal, failed or not *)

Lemma firstError_cons sourceFileName d marker rest :
  firstError sourceFileName d (marker :: rest) =
  match errorOf sourceFileName d marker with
  | Some error => Some error
  | None => firstError sourceFileName d rest
  end.
Proof. unfold firstError. cbn. destruct (errorOf sourceFileName d marker); reflexivity. Qed.

Lemma markersBeforeError_all sourceFileName d markers :
  firstError sourceFileName d markers = None ->
  markersBeforeError sourceFileName d markers = markers.
Proof.
  induction markers as [|marker rest IH]; [reflexivity|].
  rewrite firstError_cons. cbn [markersBeforeError].
  destruct (errorOf sourceFileName d marker); [discriminate|].
  intros H. rewrite (IH H). reflexivity.
Qed.

Lemma markersBeforeError_app sourceFileName d markers markers' :
  markersBeforeError sourceFileName d (markers ++ markers') =
  match firstError sourceFileName d markers with
  | Some _ => markersBeforeError sourceFileName d markers
  | None => markers ++ markersBeforeError sourceFileName d markers'
  end.
Proof.
  induction markers as [|marker rest IH]; [reflexivity|].
  rewrite firstError_cons. cbn [markersBeforeError app].
  destruct (errorOf sourceFileName d marker); [reflexivity|].
  rewrite IH. destruct (firstError sourceFileName d rest); reflexivity.
Qed.

Lemma accounts_nil sourceFileName p p' :
  info p' = info p -> globals p' = globals p -> accounts sourceFileName [] p p'.
Proof.
  intros Hi Hg. unfold accounts. cbn. rewrite Hi, Hg, !app_nil_r. repeat split.
Qed.

Lemma accounts_app sourceFileName tr1 tr2 p q r :
  accounts sourceFileName tr1 p q -> accounts sourceFileName tr2 q r ->
  accounts sourceFileName (tr1 ++ tr2) p r.
Proof.
  intros (Hi1 & Hm1 & Hd1) (Hi2 & Hm2 & Hd2). unfold accounts. rewrite !omap_app.
  split; [rewrite Hi2, Hi1, app_assoc; reflexivity|].
  split; [|congruence].
  rewrite Hm2, Hm1, <- app_assoc. f_equal. f_equal.
  apply omap_pointwise. intros node. apply importOf_disk. exact Hd1.
Qed.

(** The visit of a marker call-form accounts for it when it returns
    normally, and for nothing when it throws. *)
Lemma visit_marker_accounts sourceFileName node m p :
  markerOf node = Some m ->
  accounts sourceFileName (markersBeforeError sourceFileName (disk (globals p)) [node]) p
           (snd (visit sourceFileName node p)).
Proof.
  intros Hm. pose proof (visit_marker_outcome sourceFileName node m p Hm) as Hout.
  cbn [markersBeforeError]. unfold errorOf. rewrite <- Hout. clear Hout.
  destruct (markerOf_call _ _ Hm) as (callee & ta & args & ->).
  assert (Hnone : recordOf (CallExpression (Identifier callee) ta args) = None ->
                  forall r : outcome Node,
                    accounts sourceFileName
                      (match (match r with Throw error => Some error | Ok _ => None end) with
                       | Some _ => []
                       | None => [CallExpression (Identifier callee) ta args]
                       end)
                      p (entered (CallExpression (Identifier callee) ta args) p)).
  { intros Hrec r. unfold accounts.
    destruct r; rewrite ?omap_one; unfold importOf; rewrite ?Hrec; cbn;
      rewrite !app_nil_r; repeat split. }
  destruct m.
  - pose proof (visit_ask_marker sourceFileName _ _ _ p Hm) as H.
    destruct (recordOf (CallExpression (Identifier callee) ta args)) as [item|] eqn:Hrec.
    + destruct H as (node' & ->). cbn [fst snd]. unfold accounts.
      rewrite !omap_one. unfold importOf. rewrite Hrec.
      destruct (existsSync (globals p) _); simpl; rewrite ?app_nil_r; repeat split.
    + rewrite H. apply Hnone. reflexivity.
  - destruct (visit_define_marker sourceFileName _ _ _ p Hm) as (Hrec & H).
    rewrite H. apply Hnone. exact Hrec.
Qed.

Lemma snd_bind {A B} (m : M A) (k : A -> M B) p :
  snd (bind m k p) =
  match m p with
  | (Ok a, p1) => snd (k a p1)
  | (Throw _, p1) => p1
  end.
Proof. unfold bind. destruct (m p) as [[a|e] p1]; reflexivity. Qed.

Lemma snd_bind_ret {A B} (m : M A) (g : A -> B) p :
  snd (bind m (fun a => ret (g a)) p) = snd (m p).
Proof. unfold bind, ret. destruct (m p) as [[a|e] p1]; reflexivity. Qed.

Lemma snd_rebuilt {A B} (r : outcome A * Pass) (g : A -> B) :
  snd (match r with
       | (Ok a, q) => (Ok (g a), q)
       | (Throw e, q) => (Throw e, q)
       end) = snd r.
Proof. destruct r as [[a|e] q]; reflexivity. Qed.

Lemma visitNodes_cons (visitor : Node -> M Node) x l p :
  visitNodes visitor (x :: l) p =
  match visitor x p with
  | (Ok x', p1) =>
      match visitNodes visitor l p1 with
      | (Ok l', p2) => (Ok (x' :: l'), p2)
      | (Throw e, p2) => (Throw e, p2)
      end
  | (Throw e, p1) => (Throw e, p1)
  end.
Proof. reflexivity. Qed.

Lemma visitNodes_snd_app (visitor : Node -> M Node) l1 l2 p :
  snd (visitNodes visitor (l1 ++ l2) p) =
  match visitNodes visitor l1 p with
  | (Ok _, p1) => snd (visitNodes visitor l2 p1)
  | (Throw _, p1) => p1
  end.
Proof.
  revert p. induction l1 as [|x l1 IH]; intros p; [reflexivity|].
  cbn [app]. rewrite !visitNodes_cons.
  destruct (visitor x p) as [[x'|e] p1]; [|reflexivity].
  specialize (IH p1).
  destruct (visitNodes visitor (l1 ++ l2) p1) as [[l'|e] q];
    destruct (visitNodes visitor l1 p1) as [[l1'|e'] p2]; exact IH.
Qed.

(** [visitEachChild] leaves the pass as the visits of the children, one
    after the other, leave it. *)
Lemma visitEachChild_snd (visitor : Node -> M Node) node p :
  snd (visitEachChild visitor node p) = snd (visitNodes visitor (children node) p).
Proof.
  destruct node as [t|t|t|l|a b|l|a b|e ta args|k l]; cbn [visitEachChild children].
  - reflexivity.
  - reflexivity.
  - reflexivity.
  - apply (snd_bind_ret _ ArrayLiteralExpression).
  - cbn [visitNodes]. unfold bind, ret.
    destruct (visitor a p) as [[a'|err] p1]; [|reflexivity].
    destruct (visitor b p1) as [[b'|err] p2]; reflexivity.
  - apply (snd_bind_ret _ ObjectLiteralExpression).
  - cbn [visitNodes]. unfold bind, ret.
    destruct (visitor a p) as [[a'|err] p1]; [|reflexivity].
    destruct (visitor b p1) as [[b'|err] p2]; reflexivity.
  - rewrite visitNodes_cons, snd_bind.
    destruct (visitor e p) as [[e'|err] p1]; [|reflexivity].
    rewrite (snd_rebuilt _ (cons e')), visitNodes_snd_app.
    destruct ta as [types|]; cbn [visitNodes]; unfold bind, ret; cbn beta iota.
    + destruct (visitNodes visitor types p1) as [[types'|err'] p2]; [|reflexivity].
      destruct (visitNodes visitor args p2) as [[args'|err'] p3]; reflexivity.
    + destruct (visitNodes visitor args p1) as [[args'|err'] p3]; reflexivity.
  - apply (snd_bind_ret _ (SyntaxNode k)).
Qed.

Lemma visitNodes_accounts sourceFileName nodes :
  Forall (fun node =>
            forall p,
              accounts sourceFileName
                (markersBeforeError sourceFileName (disk (globals p)) (outerMarkers node)) p
                (snd (visit sourceFileName node p))) nodes ->
  forall p,
    accounts sourceFileName
      (markersBeforeError sourceFileName (disk (globals p)) (flat_map outerMarkers nodes)) p
      (snd (visitNodes (visit sourceFileName) nodes p)).
Proof.
  induction 1 as [|node rest Hn _ IH]; intros p.
  - apply accounts_nil; reflexivity.
  - cbn [flat_map]. rewrite markersBeforeError_app.
    specialize (Hn p). pose proof (visit_outcome sourceFileName node p) as Hout.
    cbn [visitNodes]. unfold bind at 1.
    destruct (visit sourceFileName node p) as [[node'|e] p1]; cbn [fst snd] in Hn, Hout;
      destruct (traversalOutcome_cases sourceFileName (disk (globals p)) node)
        as [(error & Hf & Ht)|(Hf & Ht)]; rewrite Ht in Hout; try discriminate Hout;
        rewrite Hf.
    + rewrite (markersBeforeError_all _ _ _ Hf) in Hn.
      specialize (IH p1). destruct Hn as (Hi & Him & Hd). rewrite Hd in IH.
      rewrite snd_bind_ret.
      apply (accounts_app _ _ _ _ p1); [repeat split; assumption | exact IH].
    + exact Hn.
Qed.

(** Whether it returns or throws, the visit of a tree has accounted for
    the marker call-forms before the first one whose rewrite throws. *)
Lemma visit_accounts sourceFileName node :
  forall p,
    accounts sourceFileName
      (markersBeforeError sourceFileName (disk (globals p)) (outerMarkers node)) p
      (snd (visit sourceFileName node p)).
Proof.
  induction node as [node IH] using Node_children_ind. intros p.
  destruct (markerOf node) as [m|] eqn:Hm.
  - rewrite (outerMarkers_marker _ _ Hm). apply (visit_marker_accounts _ _ _ _ Hm).
  - rewrite (visit_other _ _ Hm), visitEachChild_snd, (outerMarkers_children _ Hm).
    apply visitNodes_accounts. exact IH.
Qed.

Lemma visitEachChildOfFile_accounts file w :
  accounts (fileName file)
    (markersBeforeError (fileName file) (disk w) (flat_map outerMarkers (statements file)))
    (mkPass w [] [])
    (snd (visitEachChildOfFile (visit (fileName file)) file (mkPass w [] []))).
Proof.
  unfold visitEachChildOfFile. rewrite snd_bind_ret.
  apply (visitNodes_accounts (fileName file) (statements file)).
  rewrite Forall_forall. intros node _. apply visit_accounts.
Qed.

Lemma visitEachChildOfFile_firstError file w :
  match visitEachChildOfFile (visit (fileName file)) file (mkPass w [] []) with
  | (Ok x, _) =>
      firstError (fileName file) (disk w) (flat_map outerMarkers (statements file)) = None /\
      x = mkSourceFile (fileName file)
            (map (rewriteTree (rewrittenOf (fileName file) (disk w))) (statements file))
  | (Throw error, _) =>
      firstError (fileName file) (disk w) (flat_map outerMarkers (statements file)) =
      Some error
  end.
Proof.
  pose proof (visitEachChildOfFile_outcome file w) as Houtcome.
  destruct (visitEachChildOfFile (visit (fileName file)) file (mkPass w [] []))
    as [[x|e] p]; cbn [fst] in Houtcome;
    destruct (traversalOutcomes_cases (fileName file) (disk w) (statements file))
      as [(error & Hf & Ht)|(Hf & Ht)]; rewrite Ht in Houtcome; try discriminate Houtcome.
  - split; [exact Hf|]. injection Houtcome; auto.
  - rewrite Hf. injection Houtcome as ->. reflexivity.
Qed.

(** X12.  The transformation of a file that is on disk, end to end.  It
    throws the first error of its marker call-forms; without one, it throws
    the error of [saveInfo] when the records cannot be saved; otherwise the
    result has, in this order, the imports that were pending, the imports of
    the call-forms whose module is on disk, the eight bindings, [functions],
    and the statements of the file with their marker call-forms rewritten. *)
Theorem transformer_of_a_file_on_disk file w :
  existsSync w (fileName file) = true ->
  fst (transformer file w) =
  match firstError (fileName file) (disk w) (flat_map outerMarkers (statements file)) with
  | Some error => Throw error
  | None =>
      match fst (saveInfo (fileName file)
                   (omap recordOf (flat_map outerMarkers (statements file))) w) with
      | Throw error => Throw error
      | Ok _ =>
          Ok (mkSourceFile (fileName file)
                (imports w ++
                 omap (importOf (fileName file) w)
                      (flat_map outerMarkers (statements file)) ++
                 typeConstructorBindings ++
                 functions w ++
                 map (rewriteTree (rewrittenOf (fileName file) (disk w))) (statements file)))
      end
  end.
Proof.
  intros Hexists.
  pose proof (visitEachChildOfFile_firstError file w) as Hfirst.
  destruct (visitEachChildOfFile (visit (fileName file)) file (mkPass w [] []))
    as [[x|e] p] eqn:Htraverse.
  - destruct Hfirst as (Hf & Hx). rewrite Hf.
    destruct (accounted_file _ _ _ _ Htraverse) as (_ & Himports).
    destruct (saveInfo_of_traversal _ _ _ _ Htraverse) as (Hfst & _).
    destruct (fst (saveInfo (fileName file)
                     (omap recordOf (flat_map outerMarkers (statements file))) w))
      as [[]|error] eqn:Hsave.
    + rewrite (transformer_with_prologue _ _ _ _ Htraverse Hsave (or_introl Hexists)).
      cbn [fst]. rewrite Himports, Hx, <- !app_assoc. reflexivity.
    + unfold transformer. rewrite Htraverse.
      destruct (saveInfo (fileName file) (info p) (globals p)) as [[[]|e] w1];
        cbn [fst] in Hfst; [discriminate Hfst|].
      cbn [fst]. injection Hfst as ->. reflexivity.
  - rewrite Hfirst. unfold transformer. rewrite Htraverse. reflexivity.
Qed.

(** *** Passes that fail *)

(** X5.  A transformation that throws leaves [functions] as it was and
    clears no import: the imports pending afterwards are those that were
    pending before, followed by the imports of the call-forms that were
    rewritten before the error, in source order.  When a marker call-form
    has an error, the first such error is the one thrown and the disk is as
    it was.  When none has, the error is that of [saveInfo], all call-forms
    have been rewritten, and on the disk no path other than that of the
    [askit] directory has changed. *)
Theorem failed_pass_leaves_imports_pending file w error :
  fst (transformer file w) = Throw error ->
  functions (snd (transformer file w)) = functions w /\
  imports (snd (transformer file w)) =
    imports w ++
    omap (importOf (fileName file) w)
         (markersBeforeError (fileName file) (disk w)
            (flat_map outerMarkers (statements file))) /\
  match firstError (fileName file) (disk w) (flat_map outerMarkers (statements file)) with
  | Some first => error = first /\ disk (snd (transformer file w)) = disk w
  | None =>
      fst (saveInfo (fileName file)
             (omap recordOf (flat_map outerMarkers (statements file))) w) = Throw error /\
      markersBeforeError (fileName file) (disk w) (flat_map outerMarkers (statements file)) =
        flat_map outerMarkers (statements file) /\
      (forall path,
          path <> sidecarDirectory (fileName file) ->
          disk (snd (transformer file w)) !! path = disk w !! path)
  end.
Proof.
  pose proof (visitEachChildOfFile_firstError file w) as Hfirst.
  pose proof (visitEachChildOfFile_accounts file w) as (_ & Himports & Hdisk).
  pose proof (grown_file file w) as (_ & Hfun & _).
  unfold transformer.
  destruct (visitEachChildOfFile (visit (fileName file)) file (mkPass w [] []))
    as [[x|e] p] eqn:Htraverse; cbn [fst snd globals imports disk] in Himports, Hdisk, Hfun.
  - destruct Hfirst as (Hf & _).
    destruct (saveInfo_of_traversal _ _ _ _ Htraverse) as (Hfst & _).
    destruct (saveInfo_variables (fileName file) (info p) (globals p)) as (Hf' & Hi' & _).
    destruct (accounted_file _ _ _ _ Htraverse) as (Hinfo & _).
    pose proof (fun item records => saveInfo_spec (fileName file) item records (globals p))
      as Hspec.
    destruct (saveInfo (fileName file) (info p) (globals p)) as [[[]|e] w1] eqn:Hsave;
      cbn [fst snd] in Hfst, Hf', Hi' |- *.
    + destruct (update x w1). discriminate.
    + intros Herror. assert (He : e = error) by (injection Herror; auto). subst e.
      rewrite Hf, Hf', Hi'. split; [exact Hfun|]. split; [exact Himports|].
      split; [rewrite <- Hfst; reflexivity|].
      split; [apply markersBeforeError_all; exact Hf|].
      intros path Hpath.
      destruct (info p) as [|item records].
      * rewrite saveInfo_nil in Hsave. discriminate Hsave.
      * specialize (Hspec item records). rewrite Hsave in Hspec.
        destruct Hspec as [Hsame|(_ & Hmade)].
        -- rewrite Hsame, Hdisk. reflexivity.
        -- rewrite Hmade, lookup_insert_ne by (intros E; apply Hpath; symmetry; exact E).
           rewrite Hdisk. reflexivity.
  - cbn [fst snd]. intros Herror.
    assert (He : e = error) by (injection Herror; auto). subst e.
    rewrite Hfirst. split; [exact Hfun|]. split; [exact Himports|].
    split; [reflexivity | exact Hdisk].
Qed.

(** *** A second transformation *)

Lemma imports_settled sourceFileName fileName w markers :
  Forall (settled sourceFileName) (omap (importOf fileName w) markers).
Proof.
  induction markers as [|marker markers IH]; [constructor|].
  cbn. unfold importOf at 1.
  destruct (recordOf marker) as [item|]; [|exact IH].
  destruct (existsSync w _); [|exact IH].
  constructor; [|exact IH]. apply settled_unmarked. reflexivity.
Qed.

Lemma bindings_settled sourceFileName :
  Forall (settled sourceFileName) typeConstructorBindings.
Proof.
  unfold typeConstructorBindings, typeConstructorNames. simpl.
  repeat (constructor; [apply settled_unmarked; reflexivity|]). constructor.
Qed.

Lemma visitEachChildOfFile_settled sourceFileName file :
  Forall (settled sourceFileName) (statements file) ->
  forall q, exists q',
    visitEachChildOfFile (visit sourceFileName) file q = (Ok file, q') /\
    globals q' = globals q /\ info q' = info q.
Proof.
  intros H q. destruct (visitNodes_settled _ _ H q) as (q' & Hv & Hg & Hi).
  exists q'. unfold visitEachChildOfFile, bind. rewrite Hv.
  split; [destruct file; reflexivity|]. split; assumption.
Qed.

(** X15.  The transformer on its own output.  Starting with nothing
    pending, when a file on disk has been transformed and no type descriptor
    is a string literal, transforming the result again rewrites nothing,
    accumulates nothing and leaves the disk alone; it only prepends the
    eight bindings once more. *)
Theorem second_pass_only_repeats_the_bindings file w y w1 :
  (forall returnType typeExpression,
      convertToDynamicType returnType checker = Some typeExpression ->
      isStringLiteralLike typeExpression = false) ->
  (forall returnType typeString,
      makeTypeDirection returnType checker = Some typeString ->
      isStringLiteralLike (makeExpressionFromString typeString) = false) ->
  existsSync w (fileName file) = true ->
  imports w = [] ->
  functions w = [] ->
  transformer file w = (Ok y, w1) ->
  transformer y w1 =
    (Ok (mkSourceFile (fileName file) (typeConstructorBindings ++ statements y)), w1).
Proof.
  intros Hdynamic Hdirective Hexists Himports Hfunctions Hfirst.
  assert (Htraverse : exists x p,
             visitEachChildOfFile (visit (fileName file)) file (mkPass w [] []) = (Ok x, p)).
  { unfold transformer in Hfirst.
    destruct (visitEachChildOfFile (visit (fileName file)) file (mkPass w [] []))
      as [[x|e] p]; [eauto | discriminate Hfirst]. }
  destruct Htraverse as (x & p & Htraverse).
  assert (Hsave : fst (saveInfo (fileName file)
                         (omap recordOf (flat_map outerMarkers (statements file))) w) =
                  Ok tt).
  { destruct (saveInfo_of_traversal _ _ _ _ Htraverse) as (Hfst & _). rewrite <- Hfst.
    unfold transformer in Hfirst. rewrite Htraverse in Hfirst.
    destruct (saveInfo (fileName file) (info p) (globals p)) as [[[]|e] w2];
      [reflexivity | discriminate Hfirst]. }
  rewrite (transformer_with_prologue _ _ _ _ Htraverse Hsave (or_introl Hexists)) in Hfirst.
  destruct (accounted_file _ _ _ _ Htraverse) as (_ & Hpushed).
  rewrite Hpushed, Himports, Hfunctions in Hfirst.
  rewrite !app_nil_l in Hfirst.
  pose proof (f_equal fst Hfirst) as Hy. pose proof (f_equal snd Hfirst) as Hw1.
  cbn [fst snd] in Hy, Hw1. clear Hfirst.
  assert (Hok : forall (a b : SourceFile), Ok a = Ok b -> a = b)
    by (intros a b E; injection E; auto).
  apply Hok in Hy. clear Hok.
  assert (Hsettled : Forall (settled (fileName file)) (statements y)).
  { rewrite <- Hy. cbn [statements].
    apply Forall_app_2; [apply imports_settled|].
    apply Forall_app_2; [apply bindings_settled|].
    unfold visitEachChildOfFile, bind, ret in Htraverse.
    destruct (visitNodes (visit (fileName file)) (statements file) (mkPass w [] []))
      as [[stmts|e] p0] eqn:Hnodes; inversion Htraverse; subst x p0.
    cbn [statements updateSourceFile].
    pose proof (visitNodes_results _ _ _ _ _ Hnodes) as Hresults.
    apply (Forall2_transfer (fun _ => True) _ _ _ _
             (fun node node' _ Hresult =>
                match Hresult with
                | ex_intro _ q (ex_intro _ q' Hq) =>
                    visit_result_settled (fileName file) Hdynamic Hdirective _ _ _ _ Hq
                end)
             (proj2 (Forall_forall _ _) (fun _ _ => I)) Hresults). }
  assert (Hname : fileName y = fileName file) by (rewrite <- Hy; reflexivity).
  rewrite <- Hname in Hsettled.
  destruct (visitEachChildOfFile_settled (fileName y) y Hsettled (mkPass w1 [] []))
    as (q' & Hsecond & Hglobals & Hinfo).
  simpl in Hglobals, Hinfo.
  assert (Hexists1 : existsSync w1 (fileName y) = true).
  { rewrite Hname, <- Hw1.
    rewrite (existsSync_disk
               (snd (saveInfo (fileName file)
                       (omap recordOf (flat_map outerMarkers (statements file))) w)))
      by reflexivity.
    apply saveInfo_existsSync. exact Hexists. }
  assert (Hnone : omap recordOf (flat_map outerMarkers (statements y)) = []).
  { destruct (accounted_file _ _ _ _ Hsecond) as (Hrecords & _).
    rewrite <- Hrecords. exact Hinfo. }
  assert (Hsave1 : fst (saveInfo (fileName y)
                          (omap recordOf (flat_map outerMarkers (statements y))) w1) =
                   Ok tt)
    by (rewrite Hnone; reflexivity).
  rewrite (transformer_with_prologue _ _ _ _ Hsecond Hsave1 (or_introl Hexists1)).
  rewrite Hnone, saveInfo_nil, Hglobals, Hname, <- Hw1. reflexivity.
Qed.

(** *** The module-level array [functions], the marker names *)

(** X13.  [functions] is never populated: after a transformation it is
    either empty or what it was, so that it stays empty from the moment the
    module is loaded (line 15), whichever way transformations end. *)
Theorem functions_is_never_populated file w :
  functions (snd (transformer file w)) = [] \/
  functions (snd (transformer file w)) = functions w.
Proof.
  pose proof (grown_file file w) as (_ & Hfun & _).
  unfold transformer.
  destruct (visitEachChildOfFile (visit (fileName file)) file (mkPass w [] []))
    as [[x|e] p]; simpl in Hfun |- *.
  - destruct (saveInfo_variables (fileName file) (info p) (globals p)) as (Hf & _ & _).
    destruct (saveInfo (fileName file) (info p) (globals p)) as [[[]|e] w1];
      simpl in Hf |- *.
    + unfold update. destruct (negb _ && negb _); simpl; [right | left; reflexivity].
      rewrite Hf. exact Hfun.
    + right. rewrite Hf. exact Hfun.
  - right. exact Hfun.
Qed.

Lemma escapeLeadingUnderscores_cases text :
  escapeLeadingUnderscores text = text \/
  escapeLeadingUnderscores text = String "_" text.
Proof.
  destruct text as [|a rest]; [left; reflexivity|].
  destruct a as [[] [] [] [] [] [] [] []]; try (left; reflexivity).
  destruct rest as [|b rest]; [left; reflexivity|].
  destruct b as [[] [] [] [] [] [] [] []]; try (left; reflexivity).
  right. reflexivity.
Qed.

Lemma escapedText_plain text name :
  (forall rest, name <> String "_" rest) -> escapedText text = name -> text = name.
Proof.
  intros Hplain E. unfold escapedText in E.
  destruct (escapeLeadingUnderscores_cases text) as [H|H]; rewrite H in E.
  - exact E.
  - exfalso. apply (Hplain text). symmetry. exact E.
Qed.

(** X14.  The marker call-forms are exactly the calls whose callee is the
    bare identifier [llm], [ask] or [define]: the test on the escaped text
    of the identifier (lines 120-122) singles out these three names and no
    other identifier, and a call through any other expression, a property
    access for one, is never a marker. *)
Theorem markers_are_the_three_names node :
  (markerOf node = Some AskMarker <->
   exists callee typeArguments arguments,
     node = CallExpression (Identifier callee) typeArguments arguments /\
     (callee = "llm" \/ callee = "ask")) /\
  (markerOf node = Some DefineMarker <->
   exists typeArguments arguments,
     node = CallExpression (Identifier "define") typeArguments arguments).
Proof.
  assert (Hllm : forall rest, "llm" <> String "_" rest) by (intros rest E; discriminate E).
  assert (Hask : forall rest, "ask" <> String "_" rest) by (intros rest E; discriminate E).
  assert (Hdefine : forall rest, "define" <> String "_" rest)
    by (intros rest E; discriminate E).
  split; split.
  - intros Hm. destruct (markerOf_call _ _ Hm) as (callee & ta & args & ->).
    destruct (markerOf_ask _ _ _ Hm) as (callee' & E & Hc). inversion E; subst callee'.
    exists callee, ta, args. split; [reflexivity|].
    unfold includes in Hc. simpl in Hc.
    apply orb_true_iff in Hc as [Hc|Hc]; [|apply orb_true_iff in Hc as [Hc|Hc]].
    + left. apply String.eqb_eq in Hc. apply (escapedText_plain _ _ Hllm Hc).
    + right. apply String.eqb_eq in Hc. apply (escapedText_plain _ _ Hask Hc).
    + discriminate Hc.
  - intros (callee & ta & args & -> & [->| ->]); reflexivity.
  - intros Hm. destruct (markerOf_call _ _ Hm) as (callee & ta & args & ->).
    exists ta, args. f_equal. f_equal.
    cbn [markerOf] in Hm.
    destruct (includes ["llm"; "ask"] (escapedText callee)); [discriminate Hm|].
    destruct (includes ["define"] (escapedText callee)) eqn:Hc; [|discriminate Hm].
    unfold includes in Hc. simpl in Hc.
    apply orb_true_iff in Hc as [Hc|Hc]; [|discriminate Hc].
    apply String.eqb_eq in Hc. apply (escapedText_plain _ _ Hdefine Hc).
  - intros (ta & args & ->). reflexivity.
Qed.

End Traversals.

(** ** The sample host at work *)

#[local] Existing Instance Sample.platform.
#[local] Existing Instance Sample.checker.
#[local] Existing Instance Sample.package.


(** Scenario B: the same call with the generated module on disk. *)
Lemma redirect_rewrite_witness :
  In "ask" ["llm"; "ask"] /\
  isStringLiteralLike Sample.addTemplate = true /\
  convertToDynamicType Sample.NumberKeyword Sample.checker = Some (Identifier "__number__") /\
  Forall2 (fun variable symbol =>
             findSymbol (getSymbolsInScope Sample.askAdd) variable = Some symbol)
          (extractVariables (templateText Sample.addTemplate)) Sample.symbolsOfAdd /\
  existsSync Sample.projectWithModule
    (fst (makeModuleName "/proj/main.ts"
            (functionName (templateText Sample.addTemplate) Sample.symbolsOfAdd
               Sample.NumberKeyword))) = true /\
  fst (visit "/proj/main.ts" Sample.askAdd (Sample.startOf Sample.projectWithModule)) =
    Ok (CallExpression
          (PropertyAccessExpression (Identifier "f_40_1") (Identifier "f_40")) None
          [Identifier "x"; Identifier "y"]) /\
  imports (globals (snd (visit "/proj/main.ts" Sample.askAdd
                           (Sample.startOf Sample.projectWithModule)))) =
    [importStatementOf "f_40" "f_40"] /\
  info (snd (visit "/proj/main.ts" Sample.askAdd (Sample.startOf Sample.projectWithModule))) =
  info (snd (visit "/proj/main.ts" Sample.askAdd (Sample.startOf Sample.project))).
Proof.
  assert (H1 : In "ask" ["llm"; "ask"]) by (right; left; reflexivity).
  assert (H2 : isStringLiteralLike Sample.addTemplate = true) by reflexivity.
  assert (H3 : convertToDynamicType Sample.NumberKeyword Sample.checker =
               Some (Identifier "__number__")) by reflexivity.
  assert (H4 : Forall2 (fun variable symbol =>
                          findSymbol (getSymbolsInScope Sample.askAdd) variable = Some symbol)
                       (extractVariables (templateText Sample.addTemplate))
                       Sample.symbolsOfAdd)
    by (repeat constructor).
  assert (H5 : existsSync Sample.projectWithModule
                 (fst (makeModuleName "/proj/main.ts"
                         (functionName (templateText Sample.addTemplate) Sample.symbolsOfAdd
                            Sample.NumberKeyword))) = true)
    by (vm_compute; reflexivity).
  destruct (redirect_rewrite "/proj/main.ts" "ask" Sample.NumberKeyword Sample.addTemplate []
              (Identifier "__number__") Sample.symbolsOfAdd
              (Sample.startOf Sample.projectWithModule)
              H1 H2 H3 H4 H5) as (Hvisit & _).
  repeat (split; [assumption|]).
  change Sample.askAdd
    with (CallExpression (Identifier "ask") (Some [Sample.NumberKeyword]) [Sample.addTemplate]).
  rewrite Hvisit. split; [reflexivity|]. split; reflexivity.
Defined.

(** The examples of the record when the second argument is the identifier
    [samples], which the checker knows the value of. *)
Lemma examples_of_metadata_record_witness :
  In "ask" ["llm"; "ask"] /\
  (exists template,
      [Sample.addTemplate; Identifier "samples"] !! 0%nat = Some template /\
      isStringLiteralLike template = true) /\
  visit "/proj/main.ts" Sample.askWithSamples (Sample.startOf Sample.project) =
    (Ok (Sample.inlineAdd (Identifier "samples")),
     snd (visit "/proj/main.ts" Sample.askWithSamples (Sample.startOf Sample.project))) /\
  exists item,
    info (snd (visit "/proj/main.ts" Sample.askWithSamples (Sample.startOf Sample.project))) =
      [item] /\
    examples item = Sample.sampleExamples.
Proof.
  assert (H1 : In "ask" ["llm"; "ask"]) by (right; left; reflexivity).
  assert (H2 : exists template,
             [Sample.addTemplate; Identifier "samples"] !! 0%nat = Some template /\
             isStringLiteralLike template = true)
    by (exists Sample.addTemplate; split; reflexivity).
  assert (H3 : visit "/proj/main.ts" Sample.askWithSamples (Sample.startOf Sample.project) =
               (Ok (Sample.inlineAdd (Identifier "samples")),
                snd (visit "/proj/main.ts" Sample.askWithSamples
                       (Sample.startOf Sample.project))))
    by (vm_compute; reflexivity).
  repeat (split; [assumption|]).
  exact (examples_of_metadata_record "/proj/main.ts" "ask" (Some [Sample.NumberKeyword])
           [Sample.addTemplate; Identifier "samples"] (Sample.startOf Sample.project)
           _ _ H1 H2 H3).
Defined.

(** Scenario C of the specification: [ask('static text')]. *)
Lemma missing_type_argument_iff_witness :
  In "ask" ["llm"; "ask"; "define"] /\
  (forall first,
      [StringLiteral "static text"] !! 0%nat = Some first -> isStringLiteralLike first = true) /\
  (fst (visit "/proj/main.ts" Sample.askUntyped (Sample.startOf Sample.project)) =
     Throw (MissingTypeArgument Sample.askUntyped)
   <-> exactlyOneTypeArgument None = false).
Proof.
  assert (H1 : In "ask" ["llm"; "ask"; "define"]) by (right; left; reflexivity).
  assert (H2 : forall first,
             [StringLiteral "static text"] !! 0%nat = Some first ->
             isStringLiteralLike first = true)
    by (intros first E; inversion E; reflexivity).
  repeat (split; [assumption|]).
  exact (missing_type_argument_iff "/proj/main.ts" "ask" None [StringLiteral "static text"]
           (Sample.startOf Sample.project) H1 H2).
Defined.

(** [ask<number>(prompt)]: the first argument is an identifier. *)
Lemma non_literal_first_argument_passes_through_witness :
  In "ask" ["llm"; "ask"; "define"] /\
  isStringLiteralLike (Identifier "prompt") = false /\
  visit "/proj/main.ts" Sample.askPrompt (Sample.startOf Sample.project) =
    (Ok Sample.askPrompt, mkPass Sample.project [] [Sample.askPrompt]).
Proof.
  assert (H1 : In "ask" ["llm"; "ask"; "define"]) by (right; left; reflexivity).
  assert (H2 : isStringLiteralLike (Identifier "prompt") = false) by reflexivity.
  repeat (split; [assumption|]).
  exact (non_literal_first_argument_passes_through "/proj/main.ts" "ask"
           (Some [Sample.NumberKeyword]) (Identifier "prompt") []
           (Sample.startOf Sample.project) H1 H2).
Defined.

(** [define<number>('adder')]. *)
Lemma define_call_is_rewritten_witness :
  (forall first,
      [StringLiteral "adder"] !! 0%nat = Some first -> isStringLiteralLike first = true) /\
  makeTypeDirection Sample.NumberKeyword Sample.checker = Some "number" /\
  visit "/proj/main.ts" Sample.defineAdder (Sample.startOf Sample.project) =
    (Ok (CallExpression (Identifier "define") (Some [Sample.NumberKeyword])
           [makeExpressionFromString "number"; StringLiteral "adder"]),
     mkPass Sample.project [] [Sample.defineAdder]).
Proof.
  assert (H1 : forall first,
             [StringLiteral "adder"] !! 0%nat = Some first ->
             isStringLiteralLike first = true)
    by (intros first E; inversion E; reflexivity).
  assert (H2 : makeTypeDirection Sample.NumberKeyword Sample.checker = Some "number")
    by reflexivity.
  repeat (split; [assumption|]).
  exact (define_call_is_rewritten "/proj/main.ts" Sample.NumberKeyword [StringLiteral "adder"]
           "number" (Sample.startOf Sample.project) H1 H2).
Defined.

(** A pass over [define<number>('adder', ask<number>(...))]: only the outer
    call-form is handed to a rewriter. *)
Lemma outer_markers_visited_once_witness :
  visitEachChildOfFile (visit (fileName Sample.nestedFile)) Sample.nestedFile
                       (mkPass Sample.project [] []) =
    (Ok (mkSourceFile "/proj/main.ts"
           [Sample.statementOf
              (CallExpression (Identifier "define") (Some [Sample.NumberKeyword])
                 [StringLiteral "number"; StringLiteral "adder"; Sample.askAdd])]),
     mkPass Sample.project [] [Sample.defineNested]) /\
  visited (mkPass Sample.project [] [Sample.defineNested]) =
    flat_map outerMarkers (statements Sample.nestedFile) /\
  disk (globals (mkPass Sample.project [] [Sample.defineNested])) = disk Sample.project /\
  (forall node q q',
      disk (globals q) = disk (globals q') ->
      fst (visit (fileName Sample.nestedFile) node q) =
      fst (visit (fileName Sample.nestedFile) node q')).
Proof.
  assert (H1 : visitEachChildOfFile (visit (fileName Sample.nestedFile)) Sample.nestedFile
                 (mkPass Sample.project [] []) =
               (Ok (mkSourceFile "/proj/main.ts"
                      [Sample.statementOf
                         (CallExpression (Identifier "define") (Some [Sample.NumberKeyword])
                            [StringLiteral "number"; StringLiteral "adder"; Sample.askAdd])]),
                mkPass Sample.project [] [Sample.defineNested]))
    by (vm_compute; reflexivity).
  split; [exact H1|].
  exact (outer_markers_visited_once Sample.nestedFile Sample.project _ _ H1).
Defined.


(** *** Where the specification and the code part *)

(** C1.  The code does not do what the specification, and its own comment
    "Skip the code transpiled by askgen" (line 23), say: [gen.ts] is not on
    disk and is not [<repl>.ts], yet its call-form is rewritten to a call
    that reads [__number__] and its sidecar is written, because the
    traversal and [saveInfo] run before [update] looks for the file
    (lines 99-105); and since [update] then skips the file, the result has
    no binding of [__number__]. *)
Lemma missing_file_is_still_rewritten :
  existsSync Sample.project (fileName Sample.genFile) = false /\
  basename (fileName Sample.genFile) <> "<repl>.ts" /\
  fst (transformer Sample.genFile Sample.project) =
    Ok (mkSourceFile "/proj/gen.ts"
          [Sample.statementOf (Sample.inlineAdd (ArrayLiteralExpression []))]) /\
  Sample.inlineAdd (ArrayLiteralExpression []) =
    CallExpression (Identifier "ask") (Some [Sample.NumberKeyword])
      [Identifier "__number__"; Sample.addTemplate; ArrayLiteralExpression [];
       makeVariableMapObject ["x"; "y"]] /\
  existsSync Sample.project "/proj/askit/gen.ts.jsonl" = false /\
  existsSync (snd (transformer Sample.genFile Sample.project)) "/proj/askit/gen.ts.jsonl" = true /\
  transformer Sample.genFile Sample.project <> (Ok Sample.genFile, Sample.project).
Proof.
  split; [vm_compute; reflexivity|].
  split; [vm_compute; discriminate|].
  split; [vm_compute; reflexivity|].
  split; [reflexivity|].
  split; [vm_compute; reflexivity|].
  split; [vm_compute; reflexivity|].
  intros E. apply (f_equal fst) in E. vm_compute in E. discriminate E.
Qed.

(** C4, as the specification states it, fails: with an inline literal array
    as second argument the examples of the record are empty (lines 231-235
    read the second argument only when it is an identifier). *)
Lemma literal_examples_are_not_recorded :
  [Sample.addTemplate; Sample.literalExamples] !! 1%nat = Some Sample.literalExamples /\
  literalArrayValue Sample.literalExamples = Some [JsonString "1 and 2 give 3"] /\
  exists item,
    info (snd (visit "/proj/main.ts" Sample.askWithLiteral (Sample.startOf Sample.project))) =
      [item] /\
    examples item = [] /\
    Some (examples item) <> literalArrayValue Sample.literalExamples.
Proof.
  split; [reflexivity|]. split; [reflexivity|].
  eexists. split; [vm_compute; reflexivity|].
  split; [reflexivity|]. vm_compute. discriminate.
Qed.

(** C5, as the specification states it, fails: the [ask] call-form in the
    arguments of [define] is a marker call-form of the file, but it is never
    handed to a rewriter and stays in the output as it was (line 123 returns
    the rewritten [define] without visiting its children). *)
Lemma nested_marker_is_not_visited :
  flat_map allMarkers (statements Sample.nestedFile) = [Sample.defineNested; Sample.askAdd] /\
  visited (snd (visitEachChildOfFile (visit (fileName Sample.nestedFile)) Sample.nestedFile
                  (mkPass Sample.project [] []))) = [Sample.defineNested] /\
  fst (visitEachChildOfFile (visit (fileName Sample.nestedFile)) Sample.nestedFile
         (mkPass Sample.project [] [])) =
    Ok (mkSourceFile "/proj/main.ts"
          [Sample.statementOf
             (CallExpression (Identifier "define") (Some [Sample.NumberKeyword])
                [StringLiteral "number"; StringLiteral "adder"; Sample.askAdd])]) /\
  visited (snd (visitEachChildOfFile (visit (fileName Sample.nestedFile)) Sample.nestedFile
                  (mkPass Sample.project [] []))) <>
    flat_map allMarkers (statements Sample.nestedFile).
Proof.
  split; [reflexivity|].
  split; [vm_compute; reflexivity|].
  split; [vm_compute; reflexivity|].
  vm_compute. discriminate.
Qed.


(** *** Further evaluations *)

(** [ask<string>('Hello {{name}}')] with no [name] in scope: Scenario D of
    the specification. *)
Lemma unknown_variable_is_reported_witness :
  In "ask" ["llm"; "ask"] /\
  isStringLiteralLike (StringLiteral "Hello {{name}}") = true /\
  extractVariables (templateText (StringLiteral "Hello {{name}}")) = [] ++ "name" :: [] /\
  Forall (fun variable => is_Some (findSymbol (getSymbolsInScope Sample.askHello) variable)) [] /\
  findSymbol (getSymbolsInScope Sample.askHello) "name" = None /\
  visit "/proj/main.ts" Sample.askHello (Sample.startOf Sample.project) =
    (Throw (AskitError Sample.askHello "Unknown variable: name"),
     mkPass Sample.project [] [Sample.askHello]).
Proof.
  assert (H1 : In "ask" ["llm"; "ask"]) by (right; left; reflexivity).
  assert (H2 : isStringLiteralLike (StringLiteral "Hello {{name}}") = true) by reflexivity.
  assert (H4 : extractVariables (templateText (StringLiteral "Hello {{name}}")) =
               [] ++ "name" :: []) by reflexivity.
  assert (H5 : Forall (fun variable =>
                         is_Some (findSymbol (getSymbolsInScope Sample.askHello) variable)) [])
    by constructor.
  assert (H6 : findSymbol (getSymbolsInScope Sample.askHello) "name" = None) by reflexivity.
  repeat (split; [assumption|]).
  exact (unknown_variable_is_reported "/proj/main.ts" "ask" Sample.StringKeyword
           (StringLiteral "Hello {{name}}") [] [] "name" []
           (Sample.startOf Sample.project) H1 H2 H4 H5 H6).
Defined.

(** The statement of [Sample.askAdd] with its module on disk: one record,
    one import. *)
Lemma visit_accumulates_records_and_imports_witness :
  visit "/proj/main.ts" (Sample.statementOf Sample.askAdd)
        (Sample.startOf Sample.projectWithModule) =
    (Ok (Sample.statementOf Sample.redirectedAdd),
     snd (visit "/proj/main.ts" (Sample.statementOf Sample.askAdd)
            (Sample.startOf Sample.projectWithModule))) /\
  info (snd (visit "/proj/main.ts" (Sample.statementOf Sample.askAdd)
               (Sample.startOf Sample.projectWithModule))) = [Sample.recordOfAdd] /\
  imports (globals (snd (visit "/proj/main.ts" (Sample.statementOf Sample.askAdd)
                           (Sample.startOf Sample.projectWithModule)))) =
    [importStatementOf "f_40" "f_40"].
Proof.
  assert (H1 : visit "/proj/main.ts" (Sample.statementOf Sample.askAdd)
                 (Sample.startOf Sample.projectWithModule) =
               (Ok (Sample.statementOf Sample.redirectedAdd),
                snd (visit "/proj/main.ts" (Sample.statementOf Sample.askAdd)
                       (Sample.startOf Sample.projectWithModule))))
    by (vm_compute; reflexivity).
  split; [exact H1|].
  destruct (visit_accumulates_records_and_imports _ _ _ _ _ H1) as (Hinfo & Himports).
  split; [rewrite Hinfo | rewrite Himports]; reflexivity.
Defined.

(** The sidecar of [main.ts] after its transformation. *)
Lemma sidecar_of_a_pass_witness :
  transformer Sample.mainFile Sample.project =
    (Ok (mkSourceFile "/proj/main.ts"
           (typeConstructorBindings ++
            [Sample.statementOf (Sample.inlineAdd (ArrayLiteralExpression []))])),
     snd (transformer Sample.mainFile Sample.project)) /\
  omap recordOf (flat_map outerMarkers (statements Sample.mainFile)) = [Sample.recordOfAdd] /\
  disk (snd (transformer Sample.mainFile Sample.project)) !! "/proj/askit/main.ts.jsonl" =
    Some (File (JSON_stringify Sample.recordOfAdd)).
Proof.
  assert (H1 : transformer Sample.mainFile Sample.project =
               (Ok (mkSourceFile "/proj/main.ts"
                      (typeConstructorBindings ++
                       [Sample.statementOf (Sample.inlineAdd (ArrayLiteralExpression []))])),
                snd (transformer Sample.mainFile Sample.project)))
    by (vm_compute; reflexivity).
  assert (H2 : omap recordOf (flat_map outerMarkers (statements Sample.mainFile)) =
               [Sample.recordOfAdd]) by reflexivity.
  split; [exact H1|]. split; [exact H2|].
  destruct (sidecar_of_a_pass Sample.mainFile Sample.project _ _ H1) as (Hsome & _).
  assert (H3 : omap recordOf (flat_map outerMarkers (statements Sample.mainFile)) <> [])
    by (rewrite H2; discriminate).
  rewrite H2 in Hsome. exact (Hsome H3).
Defined.

(** [saveInfo] with one record in the project, where no [askit] directory
    exists yet. *)
Lemma saveInfo_writes_the_sidecar_witness :
  [Sample.recordOfAdd] <> [] /\
  sidecarDirectory "/proj/main.ts" <> sidecarPath "/proj/main.ts" /\
  dirname (sidecarPath "/proj/main.ts") = sidecarDirectory "/proj/main.ts" /\
  saveInfo "/proj/main.ts" [Sample.recordOfAdd] Sample.project =
    (Ok tt, snd (saveInfo "/proj/main.ts" [Sample.recordOfAdd] Sample.project)) /\
  disk (snd (saveInfo "/proj/main.ts" [Sample.recordOfAdd] Sample.project))
    !! sidecarPath "/proj/main.ts" = Some (File (sidecarContent [Sample.recordOfAdd])) /\
  disk (snd (saveInfo "/proj/main.ts" [Sample.recordOfAdd] Sample.project))
    !! sidecarDirectory "/proj/main.ts" = Some Directory /\
  disk (snd (saveInfo "/proj/main.ts" [Sample.recordOfAdd] Sample.project)) !! "/proj/main.ts" =
    disk Sample.project !! "/proj/main.ts".
Proof.
  assert (H1 : [Sample.recordOfAdd] <> []) by discriminate.
  assert (H2 : sidecarDirectory "/proj/main.ts" <> sidecarPath "/proj/main.ts")
    by (vm_compute; discriminate).
  assert (H3 : dirname (sidecarPath "/proj/main.ts") = sidecarDirectory "/proj/main.ts")
    by (vm_compute; reflexivity).
  assert (H4 : saveInfo "/proj/main.ts" [Sample.recordOfAdd] Sample.project =
               (Ok tt, snd (saveInfo "/proj/main.ts" [Sample.recordOfAdd] Sample.project)))
    by (vm_compute; reflexivity).
  repeat (split; [assumption|]).
  destruct (saveInfo_writes_the_sidecar "/proj/main.ts" [Sample.recordOfAdd] Sample.project
              H1 H2 H3) as (Hcases & _).
  destruct (saveInfo "/proj/main.ts" [Sample.recordOfAdd] Sample.project) as [[[]|e] w'];
    [|discriminate H4].
  destruct Hcases as (_ & _ & Hfile & Hdir & Hother).
  split; [exact Hfile|]. split; [exact Hdir|].
  apply Hother; vm_compute; discriminate.
Defined.

(** A file whose first call is redirected and whose second call has no type
    argument: the pass throws, the disk is untouched, the import of the
    first call stays. *)
Lemma failed_pass_leaves_imports_pending_witness :
  fst (transformer Sample.failingFile Sample.projectWithModule) =
    Throw (MissingTypeArgument Sample.askUntyped) /\
  functions (snd (transformer Sample.failingFile Sample.projectWithModule)) = [] /\
  imports (snd (transformer Sample.failingFile Sample.projectWithModule)) =
    [importStatementOf "f_40" "f_40"] /\
  disk (snd (transformer Sample.failingFile Sample.projectWithModule)) =
    disk Sample.projectWithModule.
Proof.
  assert (H1 : fst (transformer Sample.failingFile Sample.projectWithModule) =
               Throw (MissingTypeArgument Sample.askUntyped))
    by (vm_compute; reflexivity).
  split; [exact H1|].
  destruct (failed_pass_leaves_imports_pending Sample.failingFile Sample.projectWithModule
              _ H1) as (Hfunctions & Himports & Hfirst).
  split; [exact Hfunctions|]. split; [rewrite Himports; reflexivity|].
  assert (H2 : firstError (fileName Sample.failingFile) (disk Sample.projectWithModule)
                 (flat_map outerMarkers (statements Sample.failingFile)) =
               Some (MissingTypeArgument Sample.askUntyped))
    by (vm_compute; reflexivity).
  rewrite H2 in Hfirst. exact (proj2 Hfirst).
Defined.

(** [gen.ts] is not on disk; the module of its call is: the import stays
    pending. *)
Lemma skipped_file_leaves_imports_pending_witness :
  visitEachChildOfFile (visit (fileName Sample.genFile)) Sample.genFile
                       (mkPass Sample.projectWithModule [] []) =
    (Ok (mkSourceFile "/proj/gen.ts" [Sample.statementOf Sample.redirectedAdd]),
     snd (visitEachChildOfFile (visit (fileName Sample.genFile)) Sample.genFile
            (mkPass Sample.projectWithModule [] []))) /\
  existsSync
    (snd (saveInfo (fileName Sample.genFile)
            (info (snd (visitEachChildOfFile (visit (fileName Sample.genFile)) Sample.genFile
                          (mkPass Sample.projectWithModule [] []))))
            (globals (snd (visitEachChildOfFile (visit (fileName Sample.genFile))
                             Sample.genFile (mkPass Sample.projectWithModule [] []))))))
    (fileName Sample.genFile) = false /\
  basename (fileName Sample.genFile) <> "<repl>.ts" /\
  imports (snd (transformer Sample.genFile Sample.projectWithModule)) =
    [importStatementOf "f_40" "f_40"].
Proof.
  assert (H1 : visitEachChildOfFile (visit (fileName Sample.genFile)) Sample.genFile
                 (mkPass Sample.projectWithModule [] []) =
               (Ok (mkSourceFile "/proj/gen.ts" [Sample.statementOf Sample.redirectedAdd]),
                snd (visitEachChildOfFile (visit (fileName Sample.genFile)) Sample.genFile
                       (mkPass Sample.projectWithModule [] []))))
    by (vm_compute; reflexivity).
  assert (H2 : existsSync
                 (snd (saveInfo (fileName Sample.genFile)
                         (info (snd (visitEachChildOfFile (visit (fileName Sample.genFile))
                                       Sample.genFile
                                       (mkPass Sample.projectWithModule [] []))))
                         (globals (snd (visitEachChildOfFile (visit (fileName Sample.genFile))
                                          Sample.genFile
                                          (mkPass Sample.projectWithModule [] []))))))
                 (fileName Sample.genFile) = false)
    by (vm_compute; reflexivity).
  assert (H3 : basename (fileName Sample.genFile) <> "<repl>.ts")
    by (vm_compute; discriminate).
  repeat (split; [assumption|]).
  rewrite (skipped_file_leaves_imports_pending Sample.genFile Sample.projectWithModule
             _ _ H1 H2 H3).
  reflexivity.
Defined.

(** The interactive pseudo-file, which is not on disk. *)
Lemma repl_file_gets_prologue_witness :
  visitEachChildOfFile (visit (fileName Sample.replFile)) Sample.replFile
                       (mkPass Sample.project [] []) =
    (Ok (mkSourceFile "/proj/<repl>.ts"
           [Sample.statementOf (Sample.inlineAdd (ArrayLiteralExpression []))]),
     snd (visitEachChildOfFile (visit (fileName Sample.replFile)) Sample.replFile
            (mkPass Sample.project [] []))) /\
  fst (saveInfo (fileName Sample.replFile)
         (omap recordOf (flat_map outerMarkers (statements Sample.replFile)))
         Sample.project) = Ok tt /\
  basename (fileName Sample.replFile) = "<repl>.ts" /\
  existsSync Sample.project (fileName Sample.replFile) = false /\
  fst (transformer Sample.replFile Sample.project) =
    Ok (mkSourceFile "/proj/<repl>.ts"
          (typeConstructorBindings ++
           [Sample.statementOf (Sample.inlineAdd (ArrayLiteralExpression []))])).
Proof.
  assert (H1 : visitEachChildOfFile (visit (fileName Sample.replFile)) Sample.replFile
                 (mkPass Sample.project [] []) =
               (Ok (mkSourceFile "/proj/<repl>.ts"
                      [Sample.statementOf (Sample.inlineAdd (ArrayLiteralExpression []))]),
                snd (visitEachChildOfFile (visit (fileName Sample.replFile)) Sample.replFile
                       (mkPass Sample.project [] []))))
    by (vm_compute; reflexivity).
  assert (H2 : fst (saveInfo (fileName Sample.replFile)
                      (omap recordOf (flat_map outerMarkers (statements Sample.replFile)))
                      Sample.project) = Ok tt)
    by (vm_compute; reflexivity).
  assert (H3 : basename (fileName Sample.replFile) = "<repl>.ts") by reflexivity.
  assert (H4 : existsSync Sample.project (fileName Sample.replFile) = false)
    by (vm_compute; reflexivity).
  repeat (split; [assumption|]).
  rewrite (repl_file_gets_prologue Sample.replFile Sample.project _ _ H1 H2 H3).
  reflexivity.
Defined.

(** The redirected call of [Sample.askAdd] and its record. *)
Lemma redirected_call_matches_its_record_witness :
  recordOf Sample.askAdd = Some Sample.recordOfAdd /\
  existsSync (globals (Sample.startOf Sample.projectWithModule))
    (join [dirname "/proj/main.ts"; "askit"; info_name Sample.recordOfAdd +:+ ".ts"]) = true /\
  fst (visit "/proj/main.ts" Sample.askAdd (Sample.startOf Sample.projectWithModule)) =
    Ok Sample.redirectedAdd.
Proof.
  assert (H1 : recordOf Sample.askAdd = Some Sample.recordOfAdd) by reflexivity.
  assert (H2 : existsSync (globals (Sample.startOf Sample.projectWithModule))
                 (join [dirname "/proj/main.ts"; "askit";
                        info_name Sample.recordOfAdd +:+ ".ts"]) = true)
    by (vm_compute; reflexivity).
  repeat (split; [assumption|]).
  exact (redirected_call_matches_its_record "/proj/main.ts" Sample.askAdd Sample.recordOfAdd
           (Sample.startOf Sample.projectWithModule) H1 H2).
Defined.

(** A second traversal of the rewritten [define<number>('adder', ask...)],
    with type directives that are parsed to identifiers. *)
Lemma second_traversal_changes_nothing_witness :
  (forall returnType typeExpression,
      @convertToDynamicType Sample.packageOfIdentifiers returnType Sample.checker =
        Some typeExpression ->
      isStringLiteralLike typeExpression = false) /\
  (forall returnType typeString,
      @makeTypeDirection Sample.packageOfIdentifiers returnType Sample.checker =
        Some typeString ->
      isStringLiteralLike (@makeExpressionFromString Sample.packageOfIdentifiers typeString) =
        false) /\
  @visit Sample.platform Sample.checker Sample.packageOfIdentifiers
         "/proj/main.ts" Sample.defineNested (Sample.startOf Sample.project) =
    (Ok (CallExpression (Identifier "define") (Some [Sample.NumberKeyword])
           [Identifier "number"; StringLiteral "adder"; Sample.askAdd]),
     mkPass Sample.project [] [Sample.defineNested]) /\
  fst (@visit Sample.platform Sample.checker Sample.packageOfIdentifiers "/proj/main.ts"
         (CallExpression (Identifier "define") (Some [Sample.NumberKeyword])
            [Identifier "number"; StringLiteral "adder"; Sample.askAdd])
         (Sample.startOf Sample.project)) =
    Ok (CallExpression (Identifier "define") (Some [Sample.NumberKeyword])
          [Identifier "number"; StringLiteral "adder"; Sample.askAdd]).
Proof.
  assert (H1 : forall returnType typeExpression,
             @convertToDynamicType Sample.packageOfIdentifiers returnType Sample.checker =
               Some typeExpression ->
             isStringLiteralLike typeExpression = false).
  { intros returnType typeExpression E. cbn in E. unfold Sample.convertToDynamicType in E.
    repeat match type of E with
           | context [match ?x with _ => _ end] =>
               destruct x; simpl in E; try discriminate E
           end.
    all: inversion E; reflexivity. }
  assert (H2 : forall returnType typeString,
             @makeTypeDirection Sample.packageOfIdentifiers returnType Sample.checker =
               Some typeString ->
             isStringLiteralLike
               (@makeExpressionFromString Sample.packageOfIdentifiers typeString) = false)
    by reflexivity.
  assert (H3 : @visit Sample.platform Sample.checker Sample.packageOfIdentifiers
                 "/proj/main.ts" Sample.defineNested (Sample.startOf Sample.project) =
               (Ok (CallExpression (Identifier "define") (Some [Sample.NumberKeyword])
                      [Identifier "number"; StringLiteral "adder"; Sample.askAdd]),
                mkPass Sample.project [] [Sample.defineNested]))
    by (vm_compute; reflexivity).
  repeat (split; [assumption|]).
  exact (proj1 (@second_traversal_changes_nothing Sample.platform Sample.checker
                  Sample.packageOfIdentifiers "/proj/main.ts" _ _ _ _
                  (Sample.startOf Sample.project) H1 H2 H3)).
Defined.

(** [main.ts], on disk, with the module of its call on disk as well. *)
Lemma transformer_of_a_file_on_disk_witness :
  existsSync Sample.projectWithModule (fileName Sample.mainFile) = true /\
  firstError (fileName Sample.mainFile) (disk Sample.projectWithModule)
             (flat_map outerMarkers (statements Sample.mainFile)) = None /\
  fst (saveInfo (fileName Sample.mainFile)
         (omap recordOf (flat_map outerMarkers (statements Sample.mainFile)))
         Sample.projectWithModule) = Ok tt /\
  fst (transformer Sample.mainFile Sample.projectWithModule) =
    Ok (mkSourceFile "/proj/main.ts"
          ([importStatementOf "f_40" "f_40"] ++ typeConstructorBindings ++
           [Sample.statementOf Sample.redirectedAdd])).
Proof.
  assert (H1 : existsSync Sample.projectWithModule (fileName Sample.mainFile) = true)
    by (vm_compute; reflexivity).
  assert (H2 : firstError (fileName Sample.mainFile) (disk Sample.projectWithModule)
                 (flat_map outerMarkers (statements Sample.mainFile)) = None)
    by (vm_compute; reflexivity).
  assert (H3 : fst (saveInfo (fileName Sample.mainFile)
                      (omap recordOf (flat_map outerMarkers (statements Sample.mainFile)))
                      Sample.projectWithModule) = Ok tt)
    by (vm_compute; reflexivity).
  repeat (split; [assumption|]).
  rewrite (transformer_of_a_file_on_disk Sample.mainFile Sample.projectWithModule H1), H2, H3.
  vm_compute. reflexivity.
Defined.

(** The file of [define<number>('adder', ask...)], transformed twice, with
    type directives that are parsed to identifiers. *)
Lemma second_pass_only_repeats_the_bindings_witness :
  (forall returnType typeExpression,
      @convertToDynamicType Sample.packageOfIdentifiers returnType Sample.checker =
        Some typeExpression ->
      isStringLiteralLike typeExpression = false) /\
  (forall returnType typeString,
      @makeTypeDirection Sample.packageOfIdentifiers returnType Sample.checker =
        Some typeString ->
      isStringLiteralLike (@makeExpressionFromString Sample.packageOfIdentifiers typeString) =
        false) /\
  existsSync Sample.project (fileName Sample.nestedFile) = true /\
  imports Sample.project = [] /\
  functions Sample.project = [] /\
  @transformer Sample.platform Sample.checker Sample.packageOfIdentifiers
    Sample.nestedFile Sample.project =
    (Ok (mkSourceFile "/proj/main.ts"
           (typeConstructorBindings ++
            [Sample.statementOf
               (CallExpression (Identifier "define") (Some [Sample.NumberKeyword])
                  [Identifier "number"; StringLiteral "adder"; Sample.askAdd])])),
     Sample.project) /\
  @transformer Sample.platform Sample.checker Sample.packageOfIdentifiers
    (mkSourceFile "/proj/main.ts"
       (typeConstructorBindings ++
        [Sample.statementOf
           (CallExpression (Identifier "define") (Some [Sample.NumberKeyword])
              [Identifier "number"; StringLiteral "adder"; Sample.askAdd])]))
    Sample.project =
    (Ok (mkSourceFile "/proj/main.ts"
           (typeConstructorBindings ++ typeConstructorBindings ++
            [Sample.statementOf
               (CallExpression (Identifier "define") (Some [Sample.NumberKeyword])
                  [Identifier "number"; StringLiteral "adder"; Sample.askAdd])])),
     Sample.project).
Proof.
  assert (H1 : forall returnType typeExpression,
             @convertToDynamicType Sample.packageOfIdentifiers returnType Sample.checker =
               Some typeExpression ->
             isStringLiteralLike typeExpression = false).
  { intros returnType typeExpression E. cbn in E. unfold Sample.convertToDynamicType in E.
    repeat match type of E with
           | context [match ?x with _ => _ end] =>
               destruct x; simpl in E; try discriminate E
           end.
    all: inversion E; reflexivity. }
  assert (H2 : forall returnType typeString,
             @makeTypeDirection Sample.packageOfIdentifiers returnType Sample.checker =
               Some typeString ->
             isStringLiteralLike
               (@makeExpressionFromString Sample.packageOfIdentifiers typeString) = false)
    by reflexivity.
  assert (H3 : existsSync Sample.project (fileName Sample.nestedFile) = true)
    by (vm_compute; reflexivity).
  assert (H4 : imports Sample.project = []) by reflexivity.
  assert (H5 : functions Sample.project = []) by reflexivity.
  assert (H6 : @transformer Sample.platform Sample.checker Sample.packageOfIdentifiers
                 Sample.nestedFile Sample.project =
               (Ok (mkSourceFile "/proj/main.ts"
                      (typeConstructorBindings ++
                       [Sample.statementOf
                          (CallExpression (Identifier "define") (Some [Sample.NumberKeyword])
                             [Identifier "number"; StringLiteral "adder"; Sample.askAdd])])),
                Sample.project))
    by (vm_compute; reflexivity).
  repeat (split; [assumption|]).
  exact (@second_pass_only_repeats_the_bindings Sample.platform Sample.checker
           Sample.packageOfIdentifiers Sample.nestedFile Sample.project _ _
           H1 H2 H3 H4 H5 H6).
Defined.

(** *** Where the file system refuses *)

(** A file with a record in a directory that does not exist: nothing is at
    the path of the [askit] directory, [fs.mkdirSync] throws [ENOENT], and
    the transformation throws it again. *)
Lemma transformer_without_directory :
  transformer (mkSourceFile "/nodir/gen.ts" [Sample.statementOf Sample.askAdd])
              Sample.project =
  (Throw (SystemError "ENOENT" "/nodir/askit"), Sample.project).
Proof. vm_compute. reflexivity. Qed.

(** A regular file at the path of the [askit] directory: [fs.existsSync]
    answers [true], no directory is made, and [fs.writeFileSync] throws
    [ENOTDIR]. *)
Lemma transformer_with_a_file_at_askit :
  fst (transformer Sample.mainFile
         (mkWorld (<["/proj/askit" := File "notes"]> (disk Sample.project)) [] [] [])) =
  Throw (SystemError "ENOTDIR" "/proj/askit/main.ts.jsonl").
Proof. vm_compute. reflexivity. Qed.
